(** * Device reservations: conflict checking, gap computation and the
      reservation and device handlers

    A shallow embedding of [website/models.py], [website/helper_functions.py],
    [website/reservation_page_routing.py] and [website/device_page_routing.py].

    Conventions of the embedding.
    - A [datetime] is an integer number of microseconds ([Z]), counted from
      1970-01-01 00:00 where the origin matters; only the order of instants
      and the subtraction of a [timedelta] are used by the code.
    - [datetime.now()] is read once per request and passed in the request
      environment [Env].
    - A text form field that is missing and one that is empty are both the
      empty string (both are falsy in the handlers).
    - A form field holding a time is represented by what [strptime] makes of
      it: blank, malformed, or a well-formed stamp.
    - A device identifier typed in a form is represented by the integer it
      denotes (the store compares it with an integer column).
    - The tables are lists in retrieval order; a handler that leaves without
      committing leaves the tables as they were (the session is discarded). *)

From stdpp Require Import base strings list gmap pretty.
From Stdlib Require Import ZArith Lia Sorted.

Open Scope Z_scope.

(** ** models.py *)

Module User.
Record t := mk {
  id : Z;
  username : string;
  email_address : string;
  password : string;
  security_pin : Z;
  administrator : bool
}.
End User.

Module Device.
Record t := mk {
  id : Z;
  device_brand : string;
  device_name : string;
  device_status : string;
  device_type : string;
  last_use : option Z
}.

Definition set_device_name (v : string) (d : t) : t :=
  mk (id d) (device_brand d) v (device_status d) (device_type d) (last_use d).
End Device.

Module Reservation.
(** [id] is [None] on an object that was built but not yet flushed to the
    store: the key is assigned by the store on insertion. *)
Record t := mk {
  id : option Z;
  device_id : Z;
  device_name : string;
  username : string;
  start_time : Z;
  end_time : Z;
  reason : string
}.

Definition set_id (v : option Z) (r : t) : t :=
  mk v (device_id r) (device_name r) (username r) (start_time r) (end_time r) (reason r).
Definition set_device_id (v : Z) (r : t) : t :=
  mk (id r) v (device_name r) (username r) (start_time r) (end_time r) (reason r).
Definition set_device_name (v : string) (r : t) : t :=
  mk (id r) (device_id r) v (username r) (start_time r) (end_time r) (reason r).
Definition set_username (v : string) (r : t) : t :=
  mk (id r) (device_id r) (device_name r) v (start_time r) (end_time r) (reason r).
Definition set_start_time (v : Z) (r : t) : t :=
  mk (id r) (device_id r) (device_name r) (username r) v (end_time r) (reason r).
Definition set_end_time (v : Z) (r : t) : t :=
  mk (id r) (device_id r) (device_name r) (username r) (start_time r) v (reason r).
Definition set_reason (v : string) (r : t) : t :=
  mk (id r) (device_id r) (device_name r) (username r) (start_time r) (end_time r) v.
End Reservation.

#[global] Instance Reservation_eq_dec : EqDecision Reservation.t.
Proof. solve_decision. Defined.
#[global] Instance Device_eq_dec : EqDecision Device.t.
Proof. solve_decision. Defined.
#[global] Instance User_eq_dec : EqDecision User.t.
Proof. solve_decision. Defined.

(** ** The store, the scheduler and the flashed messages *)

(** The three tables, each in retrieval order. *)
Record DB := mkDB {
  devices : list Device.t;
  reservations : list Reservation.t;
  users : list User.t
}.

(** A job of the scheduler: [send_reservation_email] run at [run_date] with
    [args = [email, reservation]]. *)
Record Job := mkJob {
  run_date : Z;
  job_email : string;
  job_reservation : Reservation.t
}.

Record Flash := mkFlash { message : string; category : string }.

#[global] Instance Flash_eq_dec : EqDecision Flash.
Proof. solve_decision. Defined.

(** What persists between requests: the committed tables, the scheduler's job
    store (keyed by job id) and the messages flashed so far. *)
Record World := mkWorld {
  db : DB;
  jobs : gmap string Job;
  flashes : list Flash
}.

(** What a request reads from its surroundings: the clock, the logged-in
    user, and whether the scheduler and the store accept what they are asked
    ([commit_fault] carries the text of the storage error). *)
Record Env := mkEnv {
  now : Z;
  current_user : User.t;
  add_job_fault : bool;
  commit_fault : option string
}.

Inductive Exn := TypeError | ValueError | AttributeError | IndexError | SchedulerError.

Inductive Slot := mkSlot { slot_start : Z; slot_end : option Z }.

Inductive Response :=
| Redirect (endpoint : string)
| UrlText (endpoint : string)
| Render (template : string)
| RenderAvailability (shown : list Reservation.t) (availability_slots : list Slot).

Inductive Outcome :=
| Responded (r : Response) (w : World)
| Raised (e : Exn) (w : World).

Definition world_of (o : Outcome) : World :=
  match o with Responded _ w => w | Raised _ w => w end.

(** ** Handlers: state, early return and exceptions *)

Inductive Step (A : Type) :=
| Cont (a : A) (w : World)
| Stop (o : Outcome).
Arguments Cont {A} a w.
Arguments Stop {A} o.

Definition Handler (A : Type) : Type := World → Step A.

#[global] Instance Handler_ret : MRet Handler := λ A a w, Cont a w.
#[global] Instance Handler_bind : MBind Handler := λ A B k m w,
  match m w with
  | Cont a w' => k a w'
  | Stop o => Stop o
  end.

(** [return response] *)
Definition respond {A} (r : Response) : Handler A := λ w, Stop (Responded r w).
(** an exception nobody catches *)
Definition raise {A} (e : Exn) : Handler A := λ w, Stop (Raised e w).
Definition get_db : Handler DB := λ w, Cont (db w) w.
Definition put_db (d : DB) : Handler unit := λ w, Cont () (mkWorld d (jobs w) (flashes w)).
Definition get_jobs : Handler (gmap string Job) := λ w, Cont (jobs w) w.
Definition put_jobs (j : gmap string Job) : Handler unit :=
  λ w, Cont () (mkWorld (db w) j (flashes w)).

(** [flash(message, category=...)] *)
Definition add_flash (msg cat : string) (w : World) : World :=
  mkWorld (db w) (jobs w) (flashes w ++ [mkFlash msg cat]).

Definition flash (msg : string) (cat : string) : Handler unit :=
  λ w, Cont () (add_flash msg cat w).

(** A view function is a handler that ends by returning a response. *)
Definition run (h : Handler Response) (w : World) : Outcome :=
  match h w with
  | Cont r w' => Responded r w'
  | Stop o => o
  end.

(** ** Form values *)

(** Truthiness of a text field. *)
Definition truthy (s : string) : bool := bool_decide (s ≠ "").

Inductive TimeField :=
| TBlank                (* missing or empty: falsy *)
| TMalformed            (* non-empty, rejected by strptime *)
| TStamp (t : Z).       (* non-empty, "%Y-%m-%dT%H:%M" text of instant t *)

Definition time_truthy (f : TimeField) : bool :=
  match f with TBlank => false | _ => true end.

(** The values the variable [device_id] takes in the handlers. *)
Inductive PyId :=
| PyNone                (* blank form field *)
| PyFalse               (* the resolver's failure value *)
| PyStr (z : Z)         (* non-empty form text, denoting device z *)
| PyInt (z : Z).        (* a [Device.id] *)

Definition id_truthy (v : PyId) : bool :=
  match v with
  | PyNone | PyFalse => false
  | PyStr _ => true
  | PyInt z => negb (z =? 0)
  end.

(** [if device_id:] together with the key the store then looks up. *)
Definition id_key (v : PyId) : option Z :=
  match v with
  | PyNone | PyFalse => None
  | PyStr z => Some z
  | PyInt z => if z =? 0 then None else Some z
  end.

(** [request.form.get("device_id")] *)
Definition form_id (f : option Z) : PyId :=
  match f with None => PyNone | Some z => PyStr z end.

(** ** helper_functions.py *)

Definition format_time (time : TimeField) : Handler Z :=
  match time with
  | TBlank => raise TypeError
  | TMalformed => raise ValueError
  | TStamp t => mret t
  end.

(** [Reservation.query.filter_by(device_id=device_id)] *)
Definition reservations_for_device (d : DB) (device_id : Z) : list Reservation.t :=
  filter (λ r, Reservation.device_id r = device_id) (reservations d).

(** The [for] loop of [check_if_device_is_available]. *)
Fixpoint availability_scan (rs : list Reservation.t) (start_time end_time : Z) : bool :=
  match rs with
  | [] => true
  | reservation :: rest =>
      if (Reservation.start_time reservation >? end_time)
         || (Reservation.end_time reservation <? start_time)
      then availability_scan rest start_time end_time
      else false
  end.

Definition check_if_device_is_available (d : DB) (device_id : Z)
    (start_time end_time : Z) : bool :=
  availability_scan (reservations_for_device d device_id) start_time end_time.

Definition minutes (n : Z) : Z := n * 60000000.

(** [str(x)] for an attribute that is an integer or [None]. *)
Definition py_str (x : option Z) : string :=
  match x with
  | None => "None"
  | Some z => pretty z
  end.

Definition job_id_of (reservation : Reservation.t) : string :=
  "notify_user_" +:+ py_str (Reservation.id reservation).

(** [scheduler.add_job(..., id=job_id, replace_existing=True)]: the job is
    stored under its id, taking the place of a job with the same id. *)
Definition add_job (env : Env) (job_id : string) (j : Job) : Handler unit :=
  if add_job_fault env then raise SchedulerError
  else js ← get_jobs; put_jobs (<[job_id := j]> js).

(** [notification_time] is computed on the integers. For a start time less
    than 30 minutes after [datetime.min] the subtraction raises
    [OverflowError] in the code; [create], the only caller, passes a start
    time that [check_start_and_end_time] has accepted, which is no earlier
    than the clock. *)
Definition schedule_reservation_notification (env : Env)
    (reservation : Reservation.t) : Handler unit :=
  let notification_time := Reservation.start_time reservation - minutes 30 in
  let job_id := job_id_of reservation in
  add_job env job_id
    (mkJob notification_time (User.email_address (current_user env)) reservation).

Definition msg_past : string := "You cannot schedule a reservation in the past.".
Definition msg_order : string := "Start time must be before end time.".

Definition check_start_and_end_time (env : Env) (start_time end_time : Z)
    : Handler bool :=
  let time_now := now env in
  if (start_time <? time_now) || (end_time <? time_now) then
    _ ← flash msg_past "error"; mret false
  else if start_time >=? end_time then
    _ ← flash msg_order "error"; mret false
  else mret true.

Definition check_if_user_exists_from_username (d : DB) (username : string) : bool :=
  match filter (λ u, User.username u = username) (users d) with
  | _ :: _ => true
  | [] => false
  end.

(** [Device.query.get(device_id)] *)
Definition device_get (d : DB) (device_id : Z) : option Device.t :=
  head (filter (λ x, Device.id x = device_id) (devices d)).

Definition check_if_device_exists_from_device_id (d : DB) (device_id : Z) : bool :=
  match device_get d device_id with
  | Some _ => true
  | None => false
  end.

Definition msg_no_devices (device_name : string) : string :=
  "No devices found with the name " +:+ device_name +:+ ".".
Definition msg_none_available : string :=
  "No devices are available with the specified name.".

(** The [for device in all_devices] loop of the resolver. *)
Fixpoint first_available (d : DB) (all_devices : list Device.t)
    (start_time end_time : Z) : option Z :=
  match all_devices with
  | [] => None
  | device :: rest =>
      if check_if_device_is_available d (Device.id device) start_time end_time
      then Some (Device.id device)
      else first_available d rest start_time end_time
  end.

Definition check_availability_of_device_name (d : DB) (device_name : string)
    (start_time end_time : Z) : Handler PyId :=
  let all_devices := filter (λ x, Device.device_name x = device_name) (devices d) in
  match all_devices with
  | [] => _ ← flash (msg_no_devices device_name) "error"; mret PyFalse
  | _ =>
      match first_available d all_devices start_time end_time with
      | Some i => mret (PyInt i)
      | None => _ ← flash msg_none_available "error"; mret PyFalse
      end
  end.

(** [database.session.commit()] inside [try]/[except]: on success the working
    tables [d'] become the committed ones; on a storage error the session is
    rolled back and the error text is flashed. *)
Definition commit_or_rollback (env : Env) (d' : DB)
    (success_message error_message : string) : Handler bool :=
  match commit_fault env with
  | None => _ ← put_db d'; _ ← flash success_message "success"; mret true
  | Some e => _ ← flash (error_message +:+ "  " +:+ e) "error"; mret false
  end.

Definition table_update_item (env : Env) (d' : DB)
    (success_message error_message : string) : Handler bool :=
  commit_or_rollback env d' success_message error_message.

(** The key the store gives to the next inserted reservation. *)
Definition next_reservation_id (d : DB) : Z :=
  1 + foldr (λ r m, Z.max (default 0 (Reservation.id r)) m) 0 (reservations d).

(** [table_create_item] for a reservation: [add] then [commit]. *)
Definition table_create_item (env : Env) (item : Reservation.t)
    (success_message error_message : string) : Handler bool :=
  d ← get_db;
  let row := Reservation.set_id (Some (next_reservation_id d)) item in
  commit_or_rollback env
    (mkDB (devices d) (reservations d ++ [row]) (users d))
    success_message error_message.

(** [table_delete_item] for a reservation: [delete] then [commit]. *)
Definition table_delete_item (env : Env) (item : Reservation.t)
    (success_message error_message : string) : Handler bool :=
  d ← get_db;
  commit_or_rollback env
    (mkDB (devices d)
          (filter (λ r, Reservation.id r ≠ Reservation.id item) (reservations d))
          (users d))
    success_message error_message.

(** ** device_page_routing.py: see_availability *)

(** [.order_by(Reservation.start_time)]: ascending, rows with equal keys in
    retrieval order. *)
Fixpoint insert_by_start_time (r : Reservation.t) (l : list Reservation.t)
    : list Reservation.t :=
  match l with
  | [] => [r]
  | x :: l' =>
      if Reservation.start_time r <=? Reservation.start_time x
      then r :: x :: l'
      else x :: insert_by_start_time r l'
  end.

Definition order_by_start_time (l : list Reservation.t) : list Reservation.t :=
  foldr insert_by_start_time [] l.

(** The query of [see_availability]:
    [filter_by(device_id=...).filter(start_time > now).order_by(start_time).all()] *)
Definition future_reservations (d : DB) (device_id : Z) (now : Z) : list Reservation.t :=
  order_by_start_time
    (filter (λ r, Reservation.start_time r > now) (reservations_for_device d device_id)).

(** One turn of [for i in range(len(reservations) - 1)]; [None] stands for
    the [IndexError] of an index out of range. *)
Definition gap_loop_body (reservations : list Reservation.t)
    (acc : option (list Slot)) (i : nat) : option (list Slot) :=
  availability_slots ← acc;
  current ← reservations !! i;
  next ← reservations !! (i + 1)%nat;
  let end_of_current_reservation := Reservation.end_time current in
  let start_of_next_reservation := Reservation.start_time next in
  if end_of_current_reservation <? start_of_next_reservation
  then Some (availability_slots
             ++ [mkSlot end_of_current_reservation (Some start_of_next_reservation)])
  else Some availability_slots.

(** The body of [see_availability] after the query: the list
    [availability_slots], or [None] for an [IndexError]. *)
Definition compute_availability_slots (now : Z) (reservations : list Reservation.t)
    : option (list Slot) :=
  match reservations with
  | first :: _ =>
      let availability_slots :=
        if now <? Reservation.start_time first
        then [mkSlot now (Some (Reservation.start_time first))]
        else [] in
      availability_slots ←
        foldl (gap_loop_body reservations) (Some availability_slots)
              (seq 0 (length reservations - 1));
      final ← last reservations;
      Some (availability_slots ++ [mkSlot (Reservation.end_time final) None])
  | [] => Some [mkSlot now None]
  end.

Definition see_availability (env : Env) (device_id : option Z) : Handler Response :=
  match device_id with
  | None =>
      _ ← flash "Device ID not provided." "error";
      respond (Redirect "device.home")
  | Some device_id =>
      d ← get_db;
      match device_get d device_id with
      | None =>
          _ ← flash "Device not found." "error";
          respond (Redirect "device.home")
      | Some device =>
          let reservations := future_reservations d device_id (now env) in
          match compute_availability_slots (now env) reservations with
          | None => raise IndexError
          | Some availability_slots =>
              mret (RenderAvailability reservations availability_slots)
          end
      end
  end.

(** ** device_page_routing.py: update *)

Record DeviceForm := mkDeviceForm {
  df_device_name : string;
  df_device_brand : string;
  df_device_status : string;
  df_device_type : string;
  df_last_use : TimeField
}.

Inductive DeviceField :=
| F_device_name | F_device_brand | F_device_status | F_device_type | F_last_use.

Definition device_fields : list DeviceField :=
  [F_device_name; F_device_brand; F_device_status; F_device_type; F_last_use].

(** [for x in l: s = body x s] with effects. *)
Fixpoint for_each {A S : Type} (l : list A) (body : A → S → Handler S) (s : S)
    : Handler S :=
  match l with
  | [] => mret s
  | x :: rest => s' ← body x s; for_each rest body s'
  end.

(** The object with key [k] in the working tables. *)
Definition replace_reservation (r' : Reservation.t) (d : DB) : DB :=
  mkDB (devices d)
       (map (λ r, if decide (Reservation.id r = Reservation.id r') then r' else r)
            (reservations d))
       (users d).

Definition replace_device (x' : Device.t) (d : DB) : DB :=
  mkDB (map (λ x, if decide (Device.id x = Device.id x') then x' else x) (devices d))
       (reservations d)
       (users d).

(** The inner loop of the rename:
    [for reservation in ...: reservation.device_name = value; setattr(device, "device_name", value)].
    The state is the device object and the working tables. *)
Definition rename_loop (value : string) (all_current_device_reservations : list Reservation.t)
    (s : Device.t * DB) : Device.t * DB :=
  foldl (λ '(device, d) reservation,
           let d1 := replace_reservation (Reservation.set_device_name value reservation) d in
           let device' := Device.set_device_name value device in
           (device', replace_device device' d1))
        s all_current_device_reservations.

(** One turn of [for device_field in device_fields]. *)
Definition device_field_body (env : Env) (device_id : Z) (form : DeviceForm)
    (device_field : DeviceField) (s : Device.t * DB) : Handler (Device.t * DB) :=
  match device_field with
  | F_last_use =>
      if time_truthy (df_last_use form) then
        value ← format_time (df_last_use form);
        if value >? now env then
          _ ← flash "The last use of a device can not be in the future" "info";
          mret s
        else mret s
      else mret s
  | F_device_name =>
      let value := df_device_name form in
      if truthy value then
        mret (rename_loop value (reservations_for_device (snd s) device_id) s)
      else mret s
  | F_device_brand | F_device_status | F_device_type => mret s
  end.

Definition device_update (env : Env) (device_id : option Z) (is_post : bool)
    (form : DeviceForm) : Handler Response :=
  match device_id with
  | None =>
      _ ← flash "Device ID not provided." "error";
      respond (Redirect "device.home")
  | Some device_id =>
      d ← get_db;
      match device_get d device_id with
      | None =>
          _ ← flash "Device not found." "error";
          respond (Redirect "device.home")
      | Some device =>
          if is_post && User.administrator (current_user env) then
            '(device, d') ← for_each device_fields
                              (device_field_body env device_id form) (device, d);
            let success_message :=
              "Device " +:+ Device.device_name device +:+ " updated successfully!" in
            let error_message := "Error updating device:" in
            ok ← table_update_item env d' success_message error_message;
            if (ok : bool) then respond (Redirect "device.home")
            else respond (Redirect "device.update")
          else if negb (User.administrator (current_user env)) then
            _ ← flash "You are not administrator" "error";
            respond (Redirect "device.home")
          else mret (Render "update_device.html")
      end
  end.

(** ** reservation_page_routing.py *)

(** [Reservation.query.get(reservation_id)] *)
Definition reservation_get (d : DB) (reservation_id : Z) : option Reservation.t :=
  head (filter (λ r, Reservation.id r = Some reservation_id) (reservations d)).

(** [Device.query.filter_by(id=device_id).first()] *)
Definition device_first (d : DB) (device_id : Z) : option Device.t :=
  head (filter (λ x, Device.id x = device_id) (devices d)).

Definition msg_no_permission : string :=
  "You do not have permission to delete this reservation.".

(** [home], the branch [request.method == "POST"] with [_method == "DELETE"]. *)
Definition home_delete (env : Env) (reservation_id : option Z) : Handler Response :=
  d ← get_db;
  match reservation_id ≫= reservation_get d with
  | None =>
      _ ← flash "Reservation not found." "error";
      respond (Redirect "reservation.home")
  | Some reservation =>
      _ ← (if User.administrator (current_user env)
              || bool_decide (Reservation.username reservation
                              = User.username (current_user env))
           then
             let success_message := "Reservation deleted successfully!" in
             let error_message := "Error deleting Reservation:" in
             _ ← table_delete_item env reservation success_message error_message;
             mret ()
           else
             flash msg_no_permission "error");
      mret (Redirect "views.home")
  end.

Record CreateForm := mkCreateForm {
  cf_device_name : string;
  cf_device_id : option Z;
  cf_start_time : TimeField;
  cf_end_time : TimeField;
  cf_reason : string
}.

(** [create], the branch [request.method == "POST"], up to the point where
    the device is settled: parsing, the interval validator, and the
    availability check by identifier or the resolver by name. The result is
    the value of [device_id] with the parsed times. *)
Definition create_checks (env : Env) (form : CreateForm) : Handler (Z * Z * Z) :=
  let device_name := cf_device_name form in
  let device_id := form_id (cf_device_id form) in
  start_time ← format_time (cf_start_time form);
  end_time ← format_time (cf_end_time form);
  ok ← check_start_and_end_time env start_time end_time;
  if negb ok then respond (Redirect "reservation.create") else
  d ← get_db;
  match id_key device_id with
  | Some device_id =>
      if negb (check_if_device_is_available d device_id start_time end_time) then
        _ ← flash "The selected device is not available at this time." "error";
        respond (Redirect "reservation.create")
      else
        match device_first d device_id with
        | None =>
            _ ← flash "Device not found." "error";
            respond (Redirect "reservation.home")
        | Some device => mret (device_id, start_time, end_time)
        end
  | None =>
      device_id ← check_availability_of_device_name d device_name start_time end_time;
      match id_key device_id with
      | None => respond (Redirect "reservation.create")
      | Some device_id =>
          if negb (check_if_user_exists_from_username d
                     (User.username (current_user env))) then
            _ ← flash "Username not does exist" "error";
            respond (Redirect "reservation.create")
          else mret (device_id, start_time, end_time)
      end
  end.

(** [create], the branch [request.method == "POST"]: the checks, then the
    reservation object is built, its notification is scheduled, and it is
    added and committed. *)
Definition create (env : Env) (form : CreateForm) : Handler Response :=
  '(device_id, start_time, end_time) ← create_checks env form;
  let reason := cf_reason form in
  d ← get_db;
  match device_first d device_id with
  | None => raise AttributeError
  | Some device =>
      let new_reservation :=
        Reservation.mk None device_id (Device.device_name device)
          (User.username (current_user env)) start_time end_time reason in
      _ ← schedule_reservation_notification env new_reservation;
      let success_message := "Reservation created successfully!" in
      let error_message := "Error creating reservation:" in
      created ← table_create_item env new_reservation success_message error_message;
      if (created : bool) then mret (Redirect "reservation.home")
      else mret (Redirect "reservation.create")
  end.

Record UpdateForm := mkUpdateForm {
  uf_device_id : option Z;
  uf_device_name : string;
  uf_username : string;
  uf_start_time : TimeField;
  uf_end_time : TimeField;
  uf_reason : string
}.

(** The three branches of [update] on the submitted times. The result is the
    reservation object with the times it now has, and the values of the
    variables [start_time] and [end_time] after
    [start_time = start_time if start_time else reservation.start_time] and
    the like for [end_time]. *)
Definition update_times (env : Env) (form : UpdateForm) (reservation : Reservation.t)
    : Handler (Reservation.t * Z * Z) :=
  let back : Handler (Reservation.t * Z * Z) :=
    respond (UrlText "reservation.update") in
  if time_truthy (uf_start_time form) && time_truthy (uf_end_time form) then
    start_time ← format_time (uf_start_time form);
    end_time ← format_time (uf_end_time form);
    ok ← check_start_and_end_time env start_time end_time;
    if negb ok then back else
    let reservation :=
      Reservation.set_end_time end_time
        (Reservation.set_start_time start_time reservation) in
    mret (reservation, start_time, end_time)
  else if time_truthy (uf_start_time form) then
    start_time ← format_time (uf_start_time form);
    ok ← check_start_and_end_time env start_time (Reservation.end_time reservation);
    if negb ok then back else
    let reservation := Reservation.set_start_time start_time reservation in
    mret (reservation, start_time, Reservation.end_time reservation)
  else if time_truthy (uf_end_time form) then
    end_time ← format_time (uf_end_time form);
    ok ← check_start_and_end_time env (Reservation.start_time reservation) end_time;
    if negb ok then back else
    let reservation := Reservation.set_end_time end_time reservation in
    mret (reservation, Reservation.start_time reservation, end_time)
  else
    mret (reservation, Reservation.start_time reservation,
          Reservation.end_time reservation).

(** [update]. Queries issued while the reservation object has unsaved changes
    see those changes (the session flushes before each query), hence the
    [replace_reservation reservation d] below. *)
Definition update (env : Env) (reservation_id : option Z) (is_post : bool)
    (form : UpdateForm) : Handler Response :=
  match reservation_id with
  | None =>
      _ ← flash "Reservation ID not provided." "error";
      respond (Redirect "reservation.home")
  | Some reservation_id =>
  d ← get_db;
  match reservation_get d reservation_id with
  | None =>
      _ ← flash "Reservation not found." "error";
      respond (Redirect "reservation.home")
  | Some reservation =>
  if is_post && User.administrator (current_user env) then
    let device_id := form_id (uf_device_id form) in
    let device_name := uf_device_name form in
    let username := uf_username form in
    let reason := uf_reason form in
    let reservation :=
      if truthy reason then Reservation.set_reason reason reservation
      else reservation in
    reservation ←
      (if truthy username then
         if negb (check_if_user_exists_from_username d username) then
           _ ← flash "Username does not exist" "error";
           respond (UrlText "reservation.update")
         else mret (Reservation.set_username username reservation)
       else mret reservation);
    '(reservation, start_time, end_time) ← update_times env form reservation;
    '(reservation, device_id) ←
      (if truthy device_name then
         device_id ← check_availability_of_device_name
                       (replace_reservation reservation d)
                       device_name start_time end_time;
         if negb (id_truthy device_id) then respond (UrlText "reservation.update")
         else mret (Reservation.set_device_name device_name reservation, device_id)
       else mret (reservation, device_id));
    reservation ←
      match id_key device_id with
      | Some device_id =>
          if negb (check_if_device_exists_from_device_id d device_id) then
            _ ← flash "Device does not exist" "error";
            respond (UrlText "reservation.update")
          else if check_if_device_is_available (replace_reservation reservation d)
                    device_id start_time end_time
          then mret (Reservation.set_device_id device_id reservation)
          else
            _ ← flash "Device is not available for this time" "error";
            respond (UrlText "reservation.update")
      | None => mret reservation
      end;
    let success_message := "Reservation updated successfully!" in
    let error_message := "Error updating reservation:" in
    ok ← table_update_item env (replace_reservation reservation d)
           success_message error_message;
    if (ok : bool) then mret (Redirect "reservation.home")
    else mret (Redirect "reservation.update")
  else mret (Render "update_reservation.html")
  end
  end.

(** ** Specification-side notions *)

(** Two reservations are apart when one ends strictly before the other
    starts. *)
Definition apart (a b : Reservation.t) : Prop :=
  Reservation.end_time a < Reservation.start_time b
  ∨ Reservation.end_time b < Reservation.start_time a.

(** No two rows of the table that are on the same device overlap. *)
Definition no_overlap (d : DB) : Prop :=
  ForallOrdPairs
    (λ a b, Reservation.device_id a = Reservation.device_id b → apart a b)
    (reservations d).

(** The requests that create and update reservations. *)
Inductive Request :=
| CreateReq (env : Env) (form : CreateForm)
| UpdateReq (env : Env) (reservation_id : option Z) (is_post : bool) (form : UpdateForm).

Definition handle (q : Request) (w : World) : World :=
  match q with
  | CreateReq env form => world_of (run (create env form) w)
  | UpdateReq env rid is_post form => world_of (run (update env rid is_post form) w)
  end.

(** The states reached from a store without reservations. *)
Inductive reachable : World → Prop :=
| reachable_init w : reservations (db w) = [] → reachable w
| reachable_step q w : reachable w → reachable (handle q w).

(** The gaps between consecutive reservations, as the specification words
    them: one gap per consecutive pair whose first member ends strictly before
    the second starts. *)
Fixpoint gaps_between (rs : list Reservation.t) : list Slot :=
  match rs with
  | a :: (b :: _) as rest =>
      (if Reservation.end_time a <? Reservation.start_time b
       then [mkSlot (Reservation.end_time a) (Some (Reservation.start_time b))]
       else [])
      ++ gaps_between rest
  | _ => []
  end.

(** The gap list as the specification words it. *)
Definition expected_slots (now : Z) (rs : list Reservation.t) : list Slot :=
  match rs with
  | [] => [mkSlot now None]
  | first :: _ =>
      (if now <? Reservation.start_time first
       then [mkSlot now (Some (Reservation.start_time first))]
       else [])
      ++ gaps_between rs
      ++ [mkSlot (Reservation.end_time (List.last rs first)) None]
  end.

(** Instants covered by a gap and by a reservation, both read as half-open
    intervals. *)
Definition in_slot (t : Z) (g : Slot) : bool :=
  (slot_start g <=? t)
  && match slot_end g with Some e => t <? e | None => true end.

Definition in_reservation (t : Z) (r : Reservation.t) : bool :=
  (Reservation.start_time r <=? t) && (t <? Reservation.end_time r).

(** How many members of a list pass a test. *)
Definition hits {A} (f : A → bool) (l : list A) : nat :=
  length (filter (λ x, f x = true) l).

(** How many of the gaps and reservations contain the instant [t]. *)
Definition cover_count (t : Z) (slots : list Slot) (rs : list Reservation.t) : nat :=
  (hits (in_slot t) slots + hits (in_reservation t) rs)%nat.

(** Two reservations share no instant (an end may meet a start). *)
Definition disjoint_times (a b : Reservation.t) : Prop :=
  Reservation.end_time a <= Reservation.start_time b
  ∨ Reservation.end_time b <= Reservation.start_time a.

Definition proper_interval (r : Reservation.t) : Prop :=
  Reservation.start_time r < Reservation.end_time r.

(** Each member ends no later than the next one starts. *)
Fixpoint chained (l : list Reservation.t) : Prop :=
  match l with
  | a :: (b :: _) as rest =>
      Reservation.end_time a <= Reservation.start_time b ∧ chained rest
  | _ => True
  end.

(** The reason the validator is to flash, as the specification words it. *)
Definition validator_reason (env : Env) (start_time end_time : Z) : option string :=
  if decide (start_time < now env ∨ end_time < now env) then Some msg_past
  else if decide (start_time >= end_time) then Some msg_order
  else None.

(** A reservation leaves the requested interval free. *)
Definition clear_of (start_time end_time : Z) (r : Reservation.t) : Prop :=
  Reservation.start_time r > end_time ∨ Reservation.end_time r < start_time.

(** The order of [order_by(Reservation.start_time)]. *)
Definition starts_no_later (a b : Reservation.t) : Prop :=
  Reservation.start_time a <= Reservation.start_time b.

(** The tables after a device rename that reaches every row of the device:
    in each such row the name is [value] and every other column is as it
    was. *)
Definition rename_reservation_rows (value : string) (device_id : Z)
    (rows : list Reservation.t) : list Reservation.t :=
  map (λ r, if decide (Reservation.device_id r = device_id)
            then Reservation.mk (Reservation.id r) (Reservation.device_id r) value
                   (Reservation.username r) (Reservation.start_time r)
                   (Reservation.end_time r) (Reservation.reason r)
            else r) rows.

Definition rename_device_rows (value : string) (device_id : Z)
    (rows : list Device.t) : list Device.t :=
  map (λ x, if decide (Device.id x = device_id)
            then Device.mk (Device.id x) (Device.device_brand x) value
                   (Device.device_status x) (Device.device_type x)
                   (Device.last_use x)
            else x) rows.

(** Two device rows agree on everything but the name. *)
Definition same_but_name (x x' : Device.t) : Prop :=
  Device.id x = Device.id x'
  ∧ Device.device_brand x = Device.device_brand x'
  ∧ Device.device_status x = Device.device_status x'
  ∧ Device.device_type x = Device.device_type x'
  ∧ Device.last_use x = Device.last_use x'.

(** The working tables of the device [update] after its loop over the fields. *)
Definition device_update_tables (device_id : Z) (form : DeviceForm)
    (device : Device.t) (d : DB) : DB :=
  snd (if truthy (df_device_name form)
       then rename_loop (df_device_name form)
              (reservations_for_device d device_id) (device, d)
       else (device, d)).

(** The reservation object that [create] builds, the job it schedules for
    it, and the row the store inserts. *)
Definition new_reservation_of (env : Env) (form : CreateForm) (device : Device.t)
    (device_id start_time end_time : Z) : Reservation.t :=
  Reservation.mk None device_id (Device.device_name device)
    (User.username (current_user env)) start_time end_time (cf_reason form).

Definition job_of (env : Env) (reservation : Reservation.t) : Job :=
  mkJob (Reservation.start_time reservation - minutes 30)
        (User.email_address (current_user env)) reservation.

(** ** Sample data *)

Definition alice : User.t := User.mk 1 "alice" "alice@example.org" "h1" 1111 false.
Definition bob : User.t := User.mk 2 "bob" "bob@example.org" "h2" 2222 false.
Definition root : User.t := User.mk 3 "root" "root@example.org" "h3" 3333 true.

Definition laptop : Device.t := Device.mk 1 "Acme" "Laptop-A" "Active" "Laptop" None.
Definition laptop2 : Device.t := Device.mk 2 "Acme" "Laptop-A" "Active" "Laptop" None.

Definition db0 : DB := mkDB [laptop; laptop2] [] [alice; bob; root].
Definition world0 : World := mkWorld db0 ∅ [].

(** The instant [h:m] of the sample day. *)
Definition clock (h m : Z) : Z := minutes (60 * h + m).

Definition env_of (u : User.t) (t : Z) : Env := mkEnv t u false None.

Definition book (dev : Z) (s e : Z) : CreateForm :=
  mkCreateForm "" (Some dev) (TStamp s) (TStamp e) "work".

(** ** Further notions *)

(** An outcome that leaves the tables and the jobs as
    they were. *)
Definition store_kept (w : World) (o : Outcome) : Prop :=
  db (world_of o) = db w ∧ jobs (world_of o) = jobs w.

(** A gap with an end that lies after its start. *)
Definition bounded_gap (g : Slot) : Prop :=
  ∃ e, slot_end g = Some e ∧ slot_start g < e.

(** ** views.py *)

(** The loop of [home] over the user's reservations: those strictly in
    progress go to [current_reservations]; any other goes to
    [upcoming_reservations] as long as that list holds fewer than three. *)
Definition home_loop_body (now : Z) (acc : list Reservation.t * list Reservation.t)
    (reservation : Reservation.t) : list Reservation.t * list Reservation.t :=
  let '(current_reservations, upcoming_reservations) := acc in
  if (Reservation.start_time reservation <? now)
     && (now <? Reservation.end_time reservation)
  then (current_reservations ++ [reservation], upcoming_reservations)
  else if (length upcoming_reservations <? 3)%nat
  then (current_reservations, upcoming_reservations ++ [reservation])
  else (current_reservations, upcoming_reservations).

(** The two lists [home] hands to its template:
    [(current_reservations, upcoming_reservations)]. *)
Definition views_home_lists (env : Env) (d : DB)
    : list Reservation.t * list Reservation.t :=
  let user_reservations :=
    filter (λ r, Reservation.username r = User.username (current_user env))
           (reservations d) in
  foldl (home_loop_body (now env)) ([], []) user_reservations.

(** ** device_page_routing.py: home, confirm_delete, create *)

Inductive Method := GET | POST.

#[global] Instance Method_eq_dec : EqDecision Method.
Proof. solve_decision. Defined.

(** [table_delete_item] for a device. *)
Definition table_delete_device (env : Env) (item : Device.t)
    (success_message error_message : string) : Handler bool :=
  d ← get_db;
  commit_or_rollback env
    (mkDB (filter (λ x, Device.id x ≠ Device.id item) (devices d))
          (reservations d) (users d))
    success_message error_message.

(** [Device.query.get(device_id)] for a form value, which may be missing. *)
Definition device_get_form (d : DB) (device_id : option Z) : option (Z * Device.t) :=
  k ← device_id; device ← device_get d k; Some (k, device).

(** [home] of the device pages; [is_delete] is
    [request.form.get("_method") == "DELETE"]. *)
Definition device_home (env : Env) (method : Method) (is_delete : bool)
    (device_id : option Z) : Handler Response :=
  match method with
  | GET => mret (Render "read_device.html")
  | POST =>
      if is_delete && User.administrator (current_user env) then
        d ← get_db;
        match device_get_form d device_id with
        | None =>
            _ ← flash "Device not found." "error";
            respond (Redirect "device.home")
        | Some (device_id, device) =>
            match reservations_for_device d device_id with
            | _ :: _ => mret (Render "confirm_device_delete.html")
            | [] => mret (Redirect "device.home")
            end
        end
      else mret (Redirect "views.home")
  end.

Definition confirm_delete (env : Env) (device_id : option Z) (confirm : string)
    : Handler Response :=
  d ← get_db;
  match device_get_form d device_id with
  | None =>
      _ ← flash "Device not found." "error";
      respond (Redirect "device.home")
  | Some (_, device) =>
      _ ← (if bool_decide (confirm = "yes") && User.administrator (current_user env)
           then
             let success_message :=
               "Device " +:+ Device.device_name device
               +:+ " has been deleted successfully." in
             let error_message :=
               "Error deleting Device " +:+ Device.device_name device +:+ ":" in
             _ ← table_delete_device env device success_message error_message;
             mret ()
           else if negb (User.administrator (current_user env)) then
             flash "You are not administrator" "error"
           else
             flash ("Deletion of device " +:+ Device.device_name device
                    +:+ " was canceled.") "info");
      mret (Redirect "device.home")
  end.

Record DeviceCreateForm := mkDeviceCreateForm {
  dc_device_name : string;
  dc_device_brand : string;
  dc_device_status : string;
  dc_device_type : string
}.

(** The key the store gives to the next inserted device. *)
Definition next_device_id (d : DB) : Z :=
  1 + foldr (λ x m, Z.max (Device.id x) m) 0 (devices d).

(** [table_create_item] for a device built with [id=None]. *)
Definition table_create_device (env : Env)
    (device_brand device_name device_status device_type : string)
    (success_message error_message : string) : Handler bool :=
  d ← get_db;
  let row := Device.mk (next_device_id d) device_brand device_name device_status
               device_type None in
  commit_or_rollback env
    (mkDB (devices d ++ [row]) (reservations d) (users d))
    success_message error_message.

Definition device_create (env : Env) (method : Method) (form : DeviceCreateForm)
    : Handler Response :=
  if bool_decide (method = POST) && User.administrator (current_user env) then
    let device_name := dc_device_name form in
    let device_brand := dc_device_brand form in
    let device_status := dc_device_status form in
    let device_type := dc_device_type form in
    let success_message := "Device " +:+ device_name +:+ " created successfully!" in
    let error_message := "Error creating device:" in
    ok ← table_create_device env device_brand device_name device_status device_type
           success_message error_message;
    if (ok : bool) then mret (Redirect "device.home")
    else mret (Redirect "device.create")
  else if negb (User.administrator (current_user env)) then
    _ ← flash "You are not administrator" "error";
    respond (Redirect "device.home")
  else mret (Render "create_device.html").

(** A reservation strictly in progress at an instant. *)
Definition in_progress (now : Z) (r : Reservation.t) : Prop :=
  Reservation.start_time r < now ∧ now < Reservation.end_time r.

(** ** user_page_routing.py *)

(** What can leave a user page besides a response: the errors of
    [Query.one()], and [url_for] asked for an endpoint that no blueprint
    registers (the blueprints are named views, authentication, device,
    reservation and user). *)
Inductive UserError := NoResultFound | MultipleResultsFound | BuildError.

Definition set_user_username (v : string) (u : User.t) : User.t :=
  User.mk (User.id u) v (User.email_address u) (User.password u)
    (User.security_pin u) (User.administrator u).
Definition set_user_email_address (v : string) (u : User.t) : User.t :=
  User.mk (User.id u) (User.username u) v (User.password u)
    (User.security_pin u) (User.administrator u).
Definition set_user_password (v : string) (u : User.t) : User.t :=
  User.mk (User.id u) (User.username u) (User.email_address u) v
    (User.security_pin u) (User.administrator u).
Definition set_user_security_pin (v : Z) (u : User.t) : User.t :=
  User.mk (User.id u) (User.username u) (User.email_address u) (User.password u)
    v (User.administrator u).

(** The object with the key of [u'] in the working tables. *)
Definition replace_user (u' : User.t) (d : DB) : DB :=
  mkDB (devices d) (reservations d)
       (map (λ u, if decide (User.id u = User.id u') then u' else u) (users d)).

(** The guard shared by the settings pages. [last_auth_time] is the instant
    [datetime.fromtimestamp(session["last_auth_time"])], counted from the
    epoch, or [None] when the session has no such entry; the timestamp 0.0 is
    falsy. The window is 15 minutes. *)
Definition auth_expired (env : Env) (last_auth_time : option Z) : bool :=
  match last_auth_time with
  | None => true
  | Some t => (t =? 0) || (now env - t >? minutes 15)
  end.

Definition msg_reauthenticate : string :=
  "Please re-authenticate to change your settings.".

(** [table_delete_item] for a user. *)
Definition table_delete_user (env : Env) (item : User.t)
    (success_message error_message : string) : Handler bool :=
  d ← get_db;
  commit_or_rollback env
    (mkDB (devices d) (reservations d)
          (filter (λ u, User.id u ≠ User.id item) (users d)))
    success_message error_message.

(** [delete_account]; the route accepts POST only, [is_delete] is
    [request.form.get("_method") == "DELETE"]. The redirect issued for a
    non-administrator is built and dropped (there is no [return]), and the
    endpoint "auth.logout_page" asked for after a deletion does not exist. *)
Definition delete_account (env : Env) (last_auth_time : option Z) (is_delete : bool)
    : Handler (UserError + Response) :=
  _ ← (if negb (User.administrator (current_user env))
       then flash "You are not administrator" "error"
       else mret ());
  if auth_expired env last_auth_time then
    _ ← flash msg_reauthenticate "warning";
    mret (inr (Redirect "user.reauthenticate"))
  else if is_delete then
    let user_id := User.id (current_user env) in
    d ← get_db;
    match filter (λ u, User.id u = user_id) (users d) with
    | [] => mret (inl NoResultFound)
    | [user] =>
        let username := User.username user in
        let success_message := "User " +:+ username +:+ " successfully deleted!" in
        let error_message := "Error deleting account:" in
        ok ← table_delete_user env user success_message error_message;
        if (ok : bool) then mret (inl BuildError)
        else mret (inr (Redirect "views.home"))
    | _ => mret (inl MultipleResultsFound)
    end
  else mret (inr (Redirect "views.home")).

(** [admin_view]. In the POST branch [user] is the query object returned by
    [filter_by], which is always truthy, and [user.administrator = True] sets
    an attribute of that object: no row of the table is touched, and the
    commit that follows has nothing to write. *)
Definition admin_view (env : Env) (method : Method) (user_id : option Z)
    : Handler Response :=
  if bool_decide (method = GET) && User.administrator (current_user env) then
    mret (Render "read_user.html")
  else
    _ ← (if negb (User.administrator (current_user env))
         then flash "You are not administrator" "error"
         else mret ());
    if bool_decide (method = POST) && User.administrator (current_user env) then
      d ← get_db;
      let success_message := "User successfully promoted to administrator!" in
      let error_message := "Error making user administrator:" in
      _ ← table_update_item env d success_message error_message;
      mret (Redirect "user.admin_view")
    else mret (Redirect "user.user_settings").

(** [str.isdigit] on text taken to be ASCII: not empty and digits only. *)
Definition is_ascii_digit (c : Ascii.ascii) : bool :=
  let n := Ascii.nat_of_ascii c in (48 <=? n)%nat && (n <=? 57)%nat.

Fixpoint all_digits (s : string) : bool :=
  match s with
  | EmptyString => true
  | String c rest => is_ascii_digit c && all_digits rest
  end.

Definition py_isdigit (s : string) : bool := truthy s && all_digits s.

Record SettingsForm := mkSettingsForm {
  sf_new_password : string;
  sf_confirm_password : string;
  sf_username : string;
  sf_email : string;
  sf_security_pin : string;
  sf_confirm_security_pin : string
}.

(** The loop [for reservation in ...: reservation.username = new_username]. *)
Definition rename_owner_loop (new_username : string)
    (all_current_user_reservations : list Reservation.t) (d : DB) : DB :=
  foldl (λ d reservation,
           replace_reservation (Reservation.set_username new_username reservation) d)
        d all_current_user_reservations.

Section UserSettings.

(** What the pages take from [werkzeug] and [re]: the salted hash of a
    password, the same hash as the integer column [security_pin] holds it,
    and [re.search(r"[^@]+@[^@]+\.[^@]+", email)] as a test. Form text is
    taken to be ASCII, so [len] is the number of characters. *)
Variable generate_password_hash : string → string.
Variable generate_pin_hash : string → Z.
Variable email_matches : string → bool.

Definition change_details (env : Env) (last_auth_time : option Z) (method : Method)
    (form : SettingsForm) : Handler Response :=
  if auth_expired env last_auth_time then
    _ ← flash msg_reauthenticate "warning";
    respond (Redirect "user.reauthenticate")
  else
  match method with
  | GET => mret (Render "user_settings_update.html")
  | POST =>
  let back : ∀ A, Handler A := λ A, respond (Redirect "user.user_settings") in
  d ← get_db;
  let user := current_user env in
  let new_password := sf_new_password form in
  let confirm_password := sf_confirm_password form in
  user ←
    (if truthy new_password then
       if (String.length new_password <? 7)%nat then
         _ ← flash "Password must be at least 7 characters long." "error"; back _
       else if bool_decide (new_password ≠ confirm_password) then
         _ ← flash "New password and confirmation do not match." "error"; back _
       else mret (set_user_password (generate_password_hash new_password) user)
     else mret user);
  let new_username := sf_username form in
  '(user, d') ←
    (if truthy new_username && bool_decide (new_username ≠ User.username user) then
       if (String.length new_username <? 3)%nat then
         _ ← flash "Username must be at least 3 characters long." "error"; back _
       else if check_if_user_exists_from_username (replace_user user d) new_username
       then
         _ ← flash "Username already taken. Please choose another." "error"; back _
       else
         let all_current_user_reservations :=
           filter (λ r, Reservation.username r = User.username user)
                  (reservations d) in
         mret (set_user_username new_username user,
               rename_owner_loop new_username all_current_user_reservations d)
     else mret (user, d));
  let new_email := sf_email form in
  user ←
    (if truthy new_email && bool_decide (new_email ≠ User.email_address user) then
       if negb (email_matches new_email) then
         _ ← flash "Enter a valid email." "error"; back _
       else mret (set_user_email_address new_email user)
     else mret user);
  let new_security_pin := sf_security_pin form in
  let confirm_security_pin := sf_confirm_security_pin form in
  user ←
    (if truthy new_security_pin then
       if (String.length new_security_pin <? 8)%nat
          || negb (py_isdigit new_security_pin) then
         _ ← flash "Security pin must be at least 8 digits." "error"; back _
       else if bool_decide (new_security_pin ≠ confirm_security_pin) then
         _ ← flash "Security pin and confirmation do not match." "error"; back _
       else mret (set_user_security_pin (generate_pin_hash new_security_pin) user)
     else mret user);
  let success_message := "Your details have been updated successfully!" in
  let error_message := "Error updating user:" in
  ok ← table_update_item env (replace_user user d') success_message error_message;
  if (ok : bool) then mret (Redirect "views.home")
  else mret (Redirect "user.user_settings")
  end.

End UserSettings.

(** The reservation rows after a rename of their owner that reaches every
    row of the old name. *)
Definition rename_owner_rows (old_username new_username : string)
    (rows : list Reservation.t) : list Reservation.t :=
  map (λ r, if decide (Reservation.username r = old_username)
            then Reservation.mk (Reservation.id r) (Reservation.device_id r)
                   (Reservation.device_name r) new_username
                   (Reservation.start_time r) (Reservation.end_time r)
                   (Reservation.reason r)
            else r) rows.

(** The fields of a settings form other than the username are blank, or
    (for the e-mail address) unchanged, or pass their checks. *)
Definition other_fields_accepted (email_matches : string → bool) (user : User.t)
    (form : SettingsForm) : Prop :=
  (sf_new_password form = ""
   ∨ ((7 <= String.length (sf_new_password form))%nat
      ∧ sf_new_password form = sf_confirm_password form))
  ∧ (sf_email form = "" ∨ sf_email form = User.email_address user
     ∨ email_matches (sf_email form) = true)
  ∧ (sf_security_pin form = ""
     ∨ ((8 <= String.length (sf_security_pin form))%nat
        ∧ py_isdigit (sf_security_pin form) = true
        ∧ sf_security_pin form = sf_confirm_security_pin form)).

(** Every reservation names a user of the table as its owner. *)
Definition owners_exist (d : DB) : Prop :=
  ∀ r, r ∈ reservations d →
       ∃ u, u ∈ users d ∧ User.username u = Reservation.username r.

(** Stand-ins for the library functions in the examples of the user pages. *)
Definition sample_password_hash (s : string) : string := "pbkdf2:sha256$" +:+ s.
Definition sample_pin_hash (s : string) : Z := Z.of_nat (String.length s).
Definition sample_email_matches (s : string) : bool := truthy s.

(** Alice has re-authenticated at 08:50 and asks at 09:00 to be "alicia". *)
Definition alice_world : World :=
  mkWorld
    (mkDB [laptop]
       [Reservation.mk (Some 1) 1 "Laptop-A" "alice" (clock 10 0) (clock 11 0) "work";
        Reservation.mk (Some 2) 1 "Laptop-A" "bob" (clock 12 0) (clock 13 0) "work"]
       [alice; bob])
    ∅ [].
Definition alice_rename : SettingsForm := mkSettingsForm "" "" "alicia" "" "" "".

(** The stored reservations carry keys, all different. *)
Definition keys_distinct (d : DB) : Prop :=
  NoDup (map Reservation.id (reservations d))
  ∧ Forall (λ r, is_Some (Reservation.id r)) (reservations d).

(** The range of [datetime] on the time axis, in microseconds counted from
    1970-01-01 00:00: [datetime.min] is 0001-01-01 00:00 and [datetime.max]
    is 9999-12-31 23:59:59.999999. Arithmetic that leaves the range raises
    [OverflowError] in the code. *)
Definition datetime_min : Z := -62135596800000000.
Definition datetime_max : Z := 253402300799999999.

(** A start time for which a notification can be scheduled: taking 30
    minutes off it, and the scheduler's conversion of the run date to its
    time zone (an offset of less than a day), stay within the range. Every
    start time accepted by [check_start_and_end_time] is of this kind, being
    no earlier than the clock. *)
Definition schedulable_start (start_time : Z) : Prop :=
  datetime_min + minutes (24 * 60) + minutes 30 <= start_time
  ∧ start_time <= datetime_max - minutes (24 * 60).

(** * Theorems *)

(** ** Forms of the monad's primitives *)

Lemma bind_cont {A B} (m : Handler A) (k : A → Handler B) w a w' :
  m w = Cont a w' → (m ≫= k) w = k a w'.
Proof. intros H. unfold mbind, Handler_bind. by rewrite H. Qed.

Lemma bind_stop {A B} (m : Handler A) (k : A → Handler B) w o :
  m w = Stop o → (m ≫= k) w = Stop o.
Proof. intros H. unfold mbind, Handler_bind. by rewrite H. Qed.

Lemma flash_then {B} msg cat (k : unit → Handler B) w :
  (flash msg cat ≫= k) w = k () (add_flash msg cat w).
Proof. reflexivity. Qed.

(** ** The interval validator *)

Lemma check_start_and_end_time_past env start_time end_time w :
  start_time < now env ∨ end_time < now env →
  check_start_and_end_time env start_time end_time w
  = Cont false (add_flash msg_past "error" w).
Proof.
  intros H. unfold check_start_and_end_time.
  assert (((start_time <? now env) || (end_time <? now env)) = true) as ->; [|done].
  apply orb_true_iff. destruct H; [left | right]; by apply Z.ltb_lt.
Qed.

Lemma check_start_and_end_time_order env start_time end_time w :
  now env <= start_time → now env <= end_time → start_time >= end_time →
  check_start_and_end_time env start_time end_time w
  = Cont false (add_flash msg_order "error" w).
Proof.
  intros Hs He Hge. unfold check_start_and_end_time.
  assert (((start_time <? now env) || (end_time <? now env)) = false) as ->.
  { apply orb_false_iff. split; apply Z.ltb_ge; lia. }
  assert ((start_time >=? end_time) = true) as ->; [|done].
  apply Z.geb_le. lia.
Qed.

Lemma check_start_and_end_time_ok env start_time end_time w :
  now env <= start_time → start_time < end_time →
  check_start_and_end_time env start_time end_time w = Cont true w.
Proof.
  intros Hs Hlt. unfold check_start_and_end_time.
  assert (((start_time <? now env) || (end_time <? now env)) = false) as ->.
  { apply orb_false_iff. split; apply Z.ltb_ge; lia. }
  assert ((start_time >=? end_time) = false) as ->; [|done].
  rewrite Z.geb_leb. apply Z.leb_gt. lia.
Qed.

(** C5. The validator rejects exactly when [start < now], [end < now] or
    [start >= end]: a past interval is rejected with the past-interval
    message, an interval that is not past but has [start >= end] with the
    ordering message, and any other interval is accepted without a message.
    Validating the same triple again, in the world the first validation left,
    gives the same verdict. *)
Theorem check_start_and_end_time_spec (env : Env) (start_time end_time : Z) (w : World) :
  ∃ verdict w',
    check_start_and_end_time env start_time end_time w = Cont verdict w'
    ∧ (verdict = false
       ↔ start_time < now env ∨ end_time < now env ∨ start_time >= end_time)
    ∧ w' = match validator_reason env start_time end_time with
           | Some reason => add_flash reason "error" w
           | None => w
           end
    ∧ (validator_reason env start_time end_time = Some msg_past
       ↔ start_time < now env ∨ end_time < now env)
    ∧ (validator_reason env start_time end_time = Some msg_order
       ↔ ¬ (start_time < now env ∨ end_time < now env) ∧ start_time >= end_time)
    ∧ msg_past ≠ msg_order
    ∧ ∃ w'', check_start_and_end_time env start_time end_time w' = Cont verdict w''.
Proof.
  unfold validator_reason.
  destruct (decide (start_time < now env ∨ end_time < now env)) as [Hp | Hp].
  - exists false, (add_flash msg_past "error" w).
    rewrite !check_start_and_end_time_past by done.
    split_and!; eauto; try done; intuition (try lia; try discriminate).
  - destruct (decide (start_time >= end_time)) as [Ho | Ho].
    + exists false, (add_flash msg_order "error" w).
      rewrite !check_start_and_end_time_order by lia.
      split_and!; eauto; try done; intuition (try lia; try discriminate).
    + exists true, w.
      rewrite !check_start_and_end_time_ok by lia.
      split_and!; eauto; try done; intuition (try lia; try discriminate).
Qed.

(** ** The availability checker *)

Lemma clear_of_test start_time end_time r :
  ((Reservation.start_time r >? end_time) || (Reservation.end_time r <? start_time)) = true
  ↔ clear_of start_time end_time r.
Proof.
  unfold clear_of. rewrite orb_true_iff, Z.gtb_ltb, !Z.ltb_lt. lia.
Qed.

Lemma availability_scan_true rs start_time end_time :
  availability_scan rs start_time end_time = true
  ↔ Forall (clear_of start_time end_time) rs.
Proof.
  induction rs as [| r rs IH]; simpl.
  - split; [constructor | done].
  - destruct ((Reservation.start_time r >? end_time)
              || (Reservation.end_time r <? start_time)) eqn:E.
    + apply clear_of_test in E. rewrite IH, Forall_cons. tauto.
    + split; [done |]. intros [Hr _]%Forall_cons.
      apply clear_of_test in Hr. congruence.
Qed.

(** The scan stops at the first conflicting row: what follows it has no part
    in the result. *)
Lemma availability_scan_stops before r after start_time end_time :
  ¬ clear_of start_time end_time r →
  availability_scan (before ++ r :: after) start_time end_time = false.
Proof.
  intros Hr. apply not_true_is_false. rewrite availability_scan_true.
  rewrite Forall_app, Forall_cons. tauto.
Qed.

Lemma elem_of_reservations_for_device d device_id r :
  r ∈ reservations_for_device d device_id
  ↔ r ∈ reservations d ∧ Reservation.device_id r = device_id.
Proof. unfold reservations_for_device. rewrite list_elem_of_filter. tauto. Qed.

Lemma check_if_device_is_available_true d device_id start_time end_time :
  check_if_device_is_available d device_id start_time end_time = true
  ↔ ∀ r, r ∈ reservations d → Reservation.device_id r = device_id →
         clear_of start_time end_time r.
Proof.
  unfold check_if_device_is_available.
  rewrite availability_scan_true, Forall_forall.
  setoid_rewrite elem_of_reservations_for_device.
  split; intros H r; [intros Hin Hdev | intros [Hin Hdev]]; by apply H.
Qed.

(** C2. The availability check answers true exactly when every reservation of
    the device starts after the requested end or ends before the requested
    start; it answers true for a device without reservations; it answers
    false at the first conflicting reservation, whatever follows it; and a
    reservation that touches the requested interval at an endpoint is a
    conflict. *)
Theorem check_if_device_is_available_spec (d : DB) (device_id start_time end_time : Z) :
  (check_if_device_is_available d device_id start_time end_time = true
   ↔ ∀ r, r ∈ reservations d → Reservation.device_id r = device_id →
          Reservation.start_time r > end_time ∨ Reservation.end_time r < start_time)
  ∧ (reservations_for_device d device_id = [] →
     check_if_device_is_available d device_id start_time end_time = true)
  ∧ (∀ before r after,
       reservations_for_device d device_id = before ++ r :: after →
       ¬ (Reservation.start_time r > end_time ∨ Reservation.end_time r < start_time) →
       check_if_device_is_available d device_id start_time end_time = false
       ∧ ∀ after', availability_scan (before ++ r :: after') start_time end_time = false)
  ∧ (∀ r, r ∈ reservations d → Reservation.device_id r = device_id →
       Reservation.end_time r = start_time ∨ Reservation.start_time r = end_time →
       Reservation.start_time r <= Reservation.end_time r →
       start_time <= end_time →
       check_if_device_is_available d device_id start_time end_time = false).
Proof.
  split_and!.
  - apply check_if_device_is_available_true.
  - intros E. unfold check_if_device_is_available. by rewrite E.
  - intros before r after E Hr. unfold check_if_device_is_available. rewrite E.
    split; [| intros after']; by apply availability_scan_stops.
  - intros r Hin Hdev Htouch Hr Hreq. apply not_true_is_false.
    rewrite check_if_device_is_available_true. intros Hall.
    specialize (Hall r Hin Hdev). unfold clear_of in Hall. lia.
Qed.

(** ** The device resolver *)

Lemma first_available_none d all_devices start_time end_time :
  first_available d all_devices start_time end_time = None
  ↔ Forall (λ x, check_if_device_is_available d (Device.id x) start_time end_time = false)
           all_devices.
Proof.
  induction all_devices as [| x l IH]; simpl.
  - split; [constructor | done].
  - destruct (check_if_device_is_available d (Device.id x) start_time end_time) eqn:E.
    + split; [done |]. intros [Hx _]%Forall_cons. congruence.
    + rewrite IH, Forall_cons. tauto.
Qed.

Lemma first_available_first d before x after start_time end_time :
  Forall (λ y, check_if_device_is_available d (Device.id y) start_time end_time = false)
         before →
  check_if_device_is_available d (Device.id x) start_time end_time = true →
  first_available d (before ++ x :: after) start_time end_time = Some (Device.id x).
Proof.
  induction 1 as [| y l Hy _ IH]; intros Hx; simpl.
  - by rewrite Hx.
  - rewrite Hy. by apply IH.
Qed.

Lemma msg_no_devices_differs device_name : msg_no_devices device_name ≠ msg_none_available.
Proof.
  unfold msg_no_devices, msg_none_available. intros H.
  cbv [String.append] in H. congruence.
Qed.

(** C6. With [matches] the devices of that name in retrieval order: the
    resolver returns the identifier of the first one the availability check
    accepts, flashing nothing; when no device has the name it returns [False]
    after flashing the not-found message; when some have the name and none
    is available it returns [False] after flashing the none-available message;
    the two messages differ, so the two failures leave different worlds. *)
Theorem check_availability_of_device_name_spec
    (d : DB) (device_name : string) (start_time end_time : Z) (w : World) :
  let matches := filter (λ x, Device.device_name x = device_name) (devices d) in
  let available x :=
    check_if_device_is_available d (Device.id x) start_time end_time in
  (∀ before x after,
     matches = before ++ x :: after →
     Forall (λ y, available y = false) before →
     available x = true →
     check_availability_of_device_name d device_name start_time end_time w
     = Cont (PyInt (Device.id x)) w)
  ∧ (matches = [] →
     check_availability_of_device_name d device_name start_time end_time w
     = Cont PyFalse (add_flash (msg_no_devices device_name) "error" w))
  ∧ (matches ≠ [] →
     Forall (λ y, available y = false) matches →
     check_availability_of_device_name d device_name start_time end_time w
     = Cont PyFalse (add_flash msg_none_available "error" w))
  ∧ add_flash (msg_no_devices device_name) "error" w
    ≠ add_flash msg_none_available "error" w.
Proof.
  intros matches available. split_and!.
  - intros before x after E Hb Hx. unfold check_availability_of_device_name.
    fold matches. rewrite E.
    rewrite (first_available_first d before x after) by done.
    by destruct before.
  - intros E. unfold check_availability_of_device_name. fold matches. by rewrite E.
  - intros Hne Hall. unfold check_availability_of_device_name. fold matches.
    apply first_available_none in Hall. rewrite Hall.
    by destruct matches.
  - intros E. apply (f_equal flashes) in E. unfold add_flash, flashes in E.
    apply app_inv_head in E.
    apply (f_equal (λ l, message <$> head l)) in E. unfold head, message, fmap, option_fmap, option_map in E.
    apply (inj Some) in E. by apply msg_no_devices_differs in E.
Qed.

(** ** The gap computer: what it produces *)

(** The loop over [range(len(reservations) - 1)], started at the index where
    the suffix [suf] begins, appends the gaps between the members of [suf]. *)
Lemma gap_loop_suffix pre suf acc :
  foldl (gap_loop_body (pre ++ suf)) (Some acc)
        (seq (length pre) (length suf - 1))
  = Some (acc ++ gaps_between suf).
Proof.
  revert pre acc. induction suf as [| a suf IH]; intros pre acc.
  - simpl. by rewrite app_nil_r.
  - destruct suf as [| b rest].
    + simpl. by rewrite app_nil_r.
    + replace (length (a :: b :: rest) - 1)%nat with (S (length (b :: rest) - 1))
        by (simpl; lia).
      rewrite <- cons_seq. cbn [foldl].
      assert (gap_loop_body (pre ++ a :: b :: rest) (Some acc) (length pre)
              = Some (acc ++ if Reservation.end_time a <? Reservation.start_time b
                             then [mkSlot (Reservation.end_time a)
                                          (Some (Reservation.start_time b))]
                             else [])) as ->.
      { assert ((pre ++ a :: b :: rest) !! length pre = Some a) as Ha
          by (by apply list_lookup_middle).
        assert ((pre ++ a :: b :: rest) !! (length pre + 1)%nat = Some b) as Hb.
        { change (a :: b :: rest) with ([a] ++ b :: rest). rewrite app_assoc.
          apply list_lookup_middle. rewrite length_app. simpl. lia. }
        unfold gap_loop_body. simpl. rewrite Ha. simpl. rewrite Hb. simpl.
        destruct (Reservation.end_time a <? Reservation.start_time b);
          [done | by rewrite app_nil_r]. }
      specialize (IH (pre ++ [a])).
      rewrite <- app_assoc in IH. simpl in IH.
      replace (S (length pre)) with (length (pre ++ [a]))
        by (rewrite length_app; simpl; lia).
      rewrite IH. change (gaps_between (a :: b :: rest))
        with ((if Reservation.end_time a <? Reservation.start_time b
               then [mkSlot (Reservation.end_time a) (Some (Reservation.start_time b))]
               else []) ++ gaps_between (b :: rest)).
      by rewrite app_assoc.
Qed.

Lemma List_last_cons {A} (l : list A) (a d : A) :
  List.last (a :: l) d = List.last l a.
Proof.
  revert a d. induction l as [| b l IH]; intros a d; [done |].
  change (List.last (a :: b :: l) d) with (List.last (b :: l) d).
  by rewrite !IH.
Qed.

Lemma last_cons_default {A} (a : A) (l : list A) :
  last (a :: l) = Some (List.last (a :: l) a).
Proof.
  rewrite List_last_cons. revert a.
  induction l as [| b l IH]; intros a; [done |].
  change (last (a :: b :: l)) with (last (b :: l)).
  by rewrite IH, List_last_cons.
Qed.

(** The body of [see_availability] never meets an index out of range and
    computes the gap list of the specification. *)
Lemma compute_availability_slots_expected now rs :
  compute_availability_slots now rs = Some (expected_slots now rs).
Proof.
  destruct rs as [| first rest]; [done |].
  unfold compute_availability_slots, expected_slots.
  pose proof (gap_loop_suffix [] (first :: rest)) as H. simpl app in H.
  simpl length in H at 1. rewrite H. simpl mbind.
  rewrite last_cons_default. simpl. by rewrite <- app_assoc.
Qed.

(** ** Ordering by start time *)

Lemma insert_by_start_time_perm r l : insert_by_start_time r l ≡ₚ r :: l.
Proof.
  induction l as [| x l IH]; simpl; [done |].
  destruct (Reservation.start_time r <=? Reservation.start_time x); [done |].
  rewrite IH. apply perm_swap.
Qed.

Lemma order_by_start_time_perm l : order_by_start_time l ≡ₚ l.
Proof.
  induction l as [| x l IH]; simpl; [done |].
  rewrite insert_by_start_time_perm. by rewrite IH.
Qed.

Lemma insert_by_start_time_sorted r l :
  StronglySorted starts_no_later l →
  StronglySorted starts_no_later (insert_by_start_time r l).
Proof.
  induction 1 as [| x l Hs IH Hx]; simpl.
  - repeat constructor.
  - destruct (Reservation.start_time r <=? Reservation.start_time x) eqn:E.
    + apply Z.leb_le in E. constructor; [by constructor |].
      constructor; [done |].
      eapply Forall_impl; [exact Hx |]. unfold starts_no_later. intros; lia.
    + apply Z.leb_gt in E. constructor; [done |].
      rewrite insert_by_start_time_perm. constructor; [| done].
      unfold starts_no_later. lia.
Qed.

Lemma order_by_start_time_sorted l :
  StronglySorted starts_no_later (order_by_start_time l).
Proof.
  induction l as [| x l IH]; simpl; [constructor |].
  by apply insert_by_start_time_sorted.
Qed.

Lemma elem_of_future_reservations d device_id now r :
  r ∈ future_reservations d device_id now
  ↔ r ∈ reservations d ∧ Reservation.device_id r = device_id
    ∧ Reservation.start_time r > now.
Proof.
  unfold future_reservations. rewrite order_by_start_time_perm.
  rewrite list_elem_of_filter, elem_of_reservations_for_device. tauto.
Qed.

(** C4. The gap list computed for a device at [now] is: the single
    open-ended gap from [now] when the device has no reservation starting
    after [now]; otherwise the leading gap up to the first start (when [now]
    is before it), one gap per consecutive pair of the future reservations
    whose first member ends strictly before the second starts, and the
    trailing open-ended gap from the end of the last one. The future
    reservations are those of the device that start after [now], in ascending
    order of start time. *)
Theorem compute_availability_slots_spec (d : DB) (device_id now : Z) :
  let rs := future_reservations d device_id now in
  compute_availability_slots now rs
  = Some match rs with
         | [] => [mkSlot now None]
         | first :: _ =>
             (if now <? Reservation.start_time first
              then [mkSlot now (Some (Reservation.start_time first))]
              else [])
             ++ gaps_between rs
             ++ [mkSlot (Reservation.end_time (List.last rs first)) None]
         end
  ∧ (rs = [] ↔ ∀ r, r ∈ reservations d → Reservation.device_id r = device_id →
                    ¬ Reservation.start_time r > now)
  ∧ rs ≡ₚ filter (λ r, Reservation.start_time r > now)
                 (reservations_for_device d device_id)
  ∧ StronglySorted starts_no_later rs.
Proof.
  intros rs. split_and!.
  - apply compute_availability_slots_expected.
  - split.
    + intros E r Hin Hdev Hgt.
      assert (r ∈ rs) as Hr by (apply elem_of_future_reservations; tauto).
      rewrite E in Hr. by apply not_elem_of_nil in Hr.
    + intros Hnone. destruct rs as [| r rest] eqn:E; [done |].
      assert (r ∈ rs) as Hr by (rewrite E; left).
      apply elem_of_future_reservations in Hr as (? & ? & ?). naive_solver.
  - apply order_by_start_time_perm.
  - apply order_by_start_time_sorted.
Qed.

(** ** The gap computer: gaps and reservations as a tiling *)

Lemma hits_cons {A} (f : A → bool) x l :
  hits f (x :: l) = ((if f x then 1 else 0) + hits f l)%nat.
Proof.
  unfold hits. rewrite filter_cons.
  destruct (decide (f x = true)) as [E | E].
  - by rewrite E.
  - apply not_true_is_false in E. by rewrite E.
Qed.

Lemma hits_app {A} (f : A → bool) l1 l2 :
  hits f (l1 ++ l2) = (hits f l1 + hits f l2)%nat.
Proof. unfold hits. by rewrite filter_app, length_app. Qed.

Lemma hits_perm {A} (f : A → bool) l1 l2 : l1 ≡ₚ l2 → hits f l1 = hits f l2.
Proof. intros H. unfold hits. by rewrite H. Qed.

Lemma hits_none {A} (f : A → bool) l :
  Forall (λ x, f x = false) l → hits f l = 0%nat.
Proof.
  induction 1 as [| x l Hx _ IH]; [done |].
  by rewrite hits_cons, Hx, IH.
Qed.

(** Rows that fail the test can be filtered out before counting. *)
Lemma hits_filter {A} (f : A → bool) (P : A → Prop) `{∀ x, Decision (P x)} l :
  Forall (λ x, ¬ P x → f x = false) l → hits f (filter P l) = hits f l.
Proof.
  induction 1 as [| x l Hx _ IH]; [done |].
  rewrite filter_cons. destruct (decide (P x)) as [Hp | Hp].
  - by rewrite !hits_cons, IH.
  - by rewrite hits_cons, (Hx Hp), IH.
Qed.

Lemma in_reservation_true t r :
  in_reservation t r = true
  ↔ Reservation.start_time r <= t ∧ t < Reservation.end_time r.
Proof. unfold in_reservation. rewrite andb_true_iff, Z.leb_le, Z.ltb_lt. tauto. Qed.

Lemma in_reservation_false t r :
  t < Reservation.start_time r ∨ Reservation.end_time r <= t →
  in_reservation t r = false.
Proof. intros H. apply not_true_is_false. rewrite in_reservation_true. lia. Qed.

Lemma in_slot_bounded t s e :
  in_slot t (mkSlot s (Some e)) = bool_decide (s <= t ∧ t < e).
Proof.
  unfold in_slot. simpl. case_bool_decide as H.
  - apply andb_true_iff. rewrite Z.leb_le, Z.ltb_lt. done.
  - apply not_true_is_false. rewrite andb_true_iff, Z.leb_le, Z.ltb_lt. done.
Qed.

Lemma in_slot_open t s : in_slot t (mkSlot s None) = bool_decide (s <= t).
Proof.
  unfold in_slot. simpl. rewrite andb_true_r. case_bool_decide as H.
  - by apply Z.leb_le.
  - apply Z.leb_gt. lia.
Qed.

Lemma in_reservation_decide t r :
  in_reservation t r
  = bool_decide (Reservation.start_time r <= t ∧ t < Reservation.end_time r).
Proof.
  case_bool_decide as H.
  - by apply in_reservation_true.
  - apply not_true_is_false. by rewrite in_reservation_true.
Qed.

Ltac count_cases :=
  repeat case_bool_decide; repeat case_match; simpl; try lia.

(** From the start of a chain of proper reservations onwards, every instant
    lies in exactly one of: a reservation of the chain, a gap between two of
    them, the trailing gap; earlier instants lie in none. *)
Lemma chain_tiling a l t :
  Forall proper_interval (a :: l) → chained (a :: l) →
  (hits (in_slot t)
        (gaps_between (a :: l)
         ++ [mkSlot (Reservation.end_time (List.last (a :: l) a)) None])
   + hits (in_reservation t) (a :: l))%nat
  = if bool_decide (Reservation.start_time a <= t) then 1%nat else 0%nat.
Proof.
  revert a. induction l as [| b l IH]; intros a Hp Hc.
  - apply Forall_cons in Hp as [Ha _]. unfold proper_interval in Ha.
    simpl. rewrite !hits_cons, in_slot_open, in_reservation_decide.
    unfold hits. simpl. count_cases.
  - apply Forall_cons in Hp as [Ha Hp]. destruct Hc as [Hab Hc].
    specialize (IH b Hp Hc).
    pose proof Hp as [Hb _]%Forall_cons. unfold proper_interval in Ha, Hb.
    rewrite !List_last_cons in *.
    change (gaps_between (a :: b :: l))
      with ((if Reservation.end_time a <? Reservation.start_time b
             then [mkSlot (Reservation.end_time a) (Some (Reservation.start_time b))]
             else []) ++ gaps_between (b :: l)).
    rewrite <- app_assoc, hits_app, (hits_cons _ a).
    rewrite in_reservation_decide.
    revert IH.
    generalize (hits (in_slot t)
                  (gaps_between (b :: l)
                   ++ [mkSlot (Reservation.end_time (List.last l b)) None])).
    generalize (hits (in_reservation t) (b :: l)).
    intros nr ng IH.
    destruct (Reservation.end_time a <? Reservation.start_time b) eqn:E.
    + apply Z.ltb_lt in E. rewrite hits_cons, in_slot_bounded.
      unfold hits at 1. simpl filter. simpl length.
      revert IH. repeat case_bool_decide; lia.
    + apply Z.ltb_ge in E. unfold hits at 1. simpl filter. simpl length.
      revert IH. repeat case_bool_decide; lia.
Qed.

(** The gap list of the specification tiles [now, +inf) together with a
    chain of proper reservations that all start after [now]. *)
Lemma expected_slots_tiling now rs t :
  Forall proper_interval rs → chained rs →
  Forall (λ r, Reservation.start_time r > now) rs →
  cover_count t (expected_slots now rs) rs
  = if bool_decide (now <= t) then 1%nat else 0%nat.
Proof.
  intros Hp Hc Hf. unfold cover_count. destruct rs as [| a l].
  - simpl. rewrite hits_cons, in_slot_open. unfold hits. simpl. count_cases.
  - pose proof Hf as [Ha _]%Forall_cons.
    unfold expected_slots.
    assert ((now <? Reservation.start_time a) = true) as -> by (apply Z.ltb_lt; lia).
    rewrite hits_app, <- Nat.add_assoc, (chain_tiling a l t Hp Hc).
    rewrite hits_cons, in_slot_bounded. unfold hits. simpl. count_cases.
Qed.

(** Pairwise properties of a table survive filtering, and reordering when
    the property is symmetric. *)
Section Pairwise.
Context {A : Type} (R : A → A → Prop).

Lemma ForallOrdPairs_filter (P : A → Prop) `{∀ x, Decision (P x)} l :
  ForallOrdPairs R l → ForallOrdPairs R (filter P l).
Proof.
  induction 1 as [| x l Hx _ IH]; [constructor |].
  rewrite filter_cons. destruct (decide (P x)); [| done].
  constructor; [| done].
  apply List.Forall_forall. intros y Hy.
  rewrite List.Forall_forall in Hx. apply Hx.
  apply list_elem_of_In in Hy. apply list_elem_of_filter in Hy as [_ Hy].
  by apply list_elem_of_In.
Qed.

Hypothesis R_sym : ∀ a b, R a b → R b a.

Lemma ForallOrdPairs_perm l1 l2 :
  l1 ≡ₚ l2 → ForallOrdPairs R l1 → ForallOrdPairs R l2.
Proof.
  induction 1 as [| x l1 l2 Hp IH | x y l | l1 l2 l3 _ IH1 _ IH2]; intros H.
  - done.
  - inversion H as [| ? ? Hx Hl]; subst. constructor; [| by apply IH].
    by rewrite <- Hp.
  - inversion H as [| ? ? Hy Hl]; subst.
    inversion Hl as [| ? ? Hx Hl']; subst.
    inversion Hy as [| ? ? Hyx Hyl]; subst.
    constructor; [constructor; [by apply R_sym | done] |].
    by constructor.
  - auto.
Qed.
End Pairwise.

Lemma disjoint_times_sym a b : disjoint_times a b → disjoint_times b a.
Proof. unfold disjoint_times. tauto. Qed.

(** Sorted by start, proper and pairwise disjoint: each ends no later than the
    next starts. *)
Lemma sorted_disjoint_chained l :
  StronglySorted starts_no_later l → Forall proper_interval l →
  ForallOrdPairs disjoint_times l → chained l.
Proof.
  induction 1 as [| a l Hs IH Ha]; intros Hp Hd; [done |].
  apply Forall_cons in Hp as [Hpa Hp].
  inversion Hd as [| ? ? Hda Hd']; subst.
  destruct l as [| b l']; [done |].
  split; [| by apply IH].
  apply Forall_cons in Ha as [Hab _]. apply Forall_cons in Hp as [Hpb _].
  apply Forall_cons in Hda as [Hdab _].
  unfold starts_no_later, proper_interval, disjoint_times in *. lia.
Qed.

(** C3, as the code has it. Take a device whose reservations are proper
    intervals, pairwise sharing no instant, none of them in progress at [now]
    (each starts after [now] or has ended by [now]). Then the gap list is
    computed, and every instant [t >= now] lies in exactly one interval among
    the gaps and the device's reservations (all read as half-open), while no
    gap contains an instant before [now]. Reservations that ended by [now]
    play no part. A reservation in progress at [now] is outside this
    statement: the query leaves it out and the gap list still starts at
    [now]. *)
Theorem availability_slots_tile_the_future (d : DB) (device_id now t : Z) :
  let rs := reservations_for_device d device_id in
  Forall proper_interval rs →
  ForallOrdPairs disjoint_times rs →
  Forall (λ r, Reservation.start_time r > now ∨ Reservation.end_time r <= now) rs →
  ∃ slots,
    compute_availability_slots now (future_reservations d device_id now) = Some slots
    ∧ (now <= t → cover_count t slots rs = 1%nat)
    ∧ (t < now → hits (in_slot t) slots = 0%nat).
Proof.
  intros rs Hp Hd Hnow.
  set (frs := future_reservations d device_id now).
  exists (expected_slots now frs).
  assert (frs ≡ₚ filter (λ r, Reservation.start_time r > now) rs) as Hperm
    by apply order_by_start_time_perm.
  assert (Forall proper_interval frs) as Hpf.
  { rewrite Hperm. apply Forall_forall. intros r [_ Hr]%list_elem_of_filter.
    rewrite Forall_forall in Hp. by apply Hp. }
  assert (Forall (λ r, Reservation.start_time r > now) frs) as Hff.
  { rewrite Hperm. apply Forall_forall. by intros r [? _]%list_elem_of_filter. }
  assert (chained frs) as Hc.
  { apply sorted_disjoint_chained; [apply order_by_start_time_sorted | done |].
    eapply ForallOrdPairs_perm; [apply disjoint_times_sym | symmetry; exact Hperm |].
    by apply ForallOrdPairs_filter. }
  pose proof (expected_slots_tiling now frs t Hpf Hc Hff) as Htile.
  assert (hits (in_reservation t) rs = hits (in_reservation t) frs
          ∨ t < now) as Hsame.
  { destruct (decide (t < now)) as [? | Hge]; [by right | left].
    rewrite (hits_perm _ _ _ Hperm). symmetry. apply hits_filter.
    eapply Forall_impl; [exact Hnow |]. intros r Hr Hnf. simpl in Hr.
    apply in_reservation_false. lia. }
  split_and!.
  - apply compute_availability_slots_expected.
  - intros Hle. destruct Hsame as [Hsame | ?]; [| lia].
    unfold cover_count in *. rewrite Hsame.
    by rewrite bool_decide_eq_true_2 in Htile.
  - intros Hlt. unfold cover_count in Htile.
    rewrite bool_decide_eq_false_2 in Htile by lia. lia.
Qed.

(** The laptop with two reservations, the second starting when the first
    ends, and a third that is over; seen at 09:00, for the instant 11:30. *)
Lemma availability_slots_tile_the_future_witness :
  let d := mkDB [laptop]
             [Reservation.mk (Some 1) 1 "Laptop-A" "alice" (clock 10 0) (clock 11 0) "work";
              Reservation.mk (Some 2) 1 "Laptop-A" "bob" (clock 11 0) (clock 12 0) "work";
              Reservation.mk (Some 3) 1 "Laptop-A" "bob" (clock 7 0) (clock 8 0) "work"]
             [alice; bob] in
  ∃ slots,
    compute_availability_slots (clock 9 0) (future_reservations d 1 (clock 9 0))
    = Some slots
    ∧ (clock 9 0 <= clock 11 30 →
       cover_count (clock 11 30) slots (reservations_for_device d 1) = 1%nat)
    ∧ (clock 11 30 < clock 9 0 → hits (in_slot (clock 11 30)) slots = 0%nat).
Proof.
  apply (availability_slots_tile_the_future _ 1 (clock 9 0) (clock 11 30)).
  - repeat constructor.
  - unfold disjoint_times. repeat constructor; vm_compute; intuition discriminate.
  - repeat constructor; vm_compute; intuition discriminate.
Defined.

(** C3, as the specification states it, fails when a reservation is in
    progress: the laptop is reserved from 10:00 to 11:00; at 10:30 the gap
    list is the single open gap from 10:30, and the instant 10:45 lies both
    in that gap and in the reservation. *)
Lemma in_progress_reservation_overlaps_gap :
  let d := mkDB [laptop]
             [Reservation.mk (Some 1) 1 "Laptop-A" "alice" (clock 10 0) (clock 11 0) "work"]
             [alice] in
  let slots := [mkSlot (clock 10 30) None] in
  compute_availability_slots (clock 10 30) (future_reservations d 1 (clock 10 30))
  = Some slots
  ∧ cover_count (clock 10 45) slots (reservations_for_device d 1) = 2%nat
  ∧ ¬ (∀ t, clock 10 30 <= t →
         cover_count t slots (reservations_for_device d 1) = 1%nat).
Proof.
  split_and!; [done | done |].
  intros H. specialize (H (clock 10 45) ltac:(by vm_compute)). discriminate H.
Qed.

(** ** Deleting a reservation *)

Lemma commit_or_rollback_ok env d' ok_msg err_msg w :
  commit_fault env = None →
  commit_or_rollback env d' ok_msg err_msg w
  = Cont true (add_flash ok_msg "success" (mkWorld d' (jobs w) (flashes w))).
Proof. intros H. unfold commit_or_rollback. by rewrite H. Qed.

Lemma commit_or_rollback_fault env d' ok_msg err_msg w e :
  commit_fault env = Some e →
  commit_or_rollback env d' ok_msg err_msg w
  = Cont false (add_flash (err_msg +:+ "  " +:+ e) "error" w).
Proof. intros H. unfold commit_or_rollback. by rewrite H. Qed.

(** The table after [session.delete(reservation)] and a commit. *)
Lemma reservation_get_after_delete d reservation_id :
  reservation_get
    (mkDB (devices d)
          (filter (λ r, Reservation.id r ≠ Some reservation_id) (reservations d))
          (users d))
    reservation_id = None.
Proof.
  unfold reservation_get. simpl.
  destruct (filter _ (filter _ _)) as [| r l] eqn:E; [done |].
  assert (r ∈ r :: l) as Hr by left. rewrite <- E in Hr.
  apply list_elem_of_filter in Hr as [Hid Hr].
  by apply list_elem_of_filter in Hr as [Hne _].
Qed.

Lemma reservation_get_id d reservation_id reservation :
  reservation_get d reservation_id = Some reservation →
  Reservation.id reservation = Some reservation_id ∧ reservation ∈ reservations d.
Proof.
  unfold reservation_get. intros H.
  destruct (filter _ _) as [| r l] eqn:E; [done |]. simpl in H.
  injection H as ->.
  assert (reservation ∈ reservation :: l) as Hr by left. rewrite <- E in Hr.
  by apply list_elem_of_filter in Hr.
Qed.

(** C9. For a delete request on an existing reservation: when the store
    accepts the commit, the reservation is gone afterwards exactly when the
    requesting user is an administrator or the owner, and then nothing but
    the rows with that key is removed; for any other user, whatever the
    store would answer, the permission error is flashed and the tables and
    the scheduler's jobs are left as they were. *)
Theorem home_delete_spec (env : Env) (reservation_id : Z)
    (reservation : Reservation.t) (w : World) :
  reservation_get (db w) reservation_id = Some reservation →
  let allowed :=
    User.administrator (current_user env) = true
    ∨ Reservation.username reservation = User.username (current_user env) in
  let o := run (home_delete env (Some reservation_id)) w in
  (commit_fault env = None →
   (reservation_get (db (world_of o)) reservation_id = None ↔ allowed))
  ∧ (allowed → commit_fault env = None →
     o = Responded (Redirect "views.home")
           (add_flash "Reservation deleted successfully!" "success"
              (mkWorld
                 (mkDB (devices (db w))
                       (filter (λ r, Reservation.id r ≠ Some reservation_id)
                               (reservations (db w)))
                       (users (db w)))
                 (jobs w) (flashes w))))
  ∧ (¬ allowed →
     o = Responded (Redirect "views.home") (add_flash msg_no_permission "error" w)
     ∧ db (world_of o) = db w ∧ jobs (world_of o) = jobs w).
Proof.
  intros Hget allowed o.
  pose proof (reservation_get_id _ _ _ Hget) as [Hid _].
  assert (allowed → commit_fault env = None →
          o = Responded (Redirect "views.home")
                (add_flash "Reservation deleted successfully!" "success"
                   (mkWorld
                      (mkDB (devices (db w))
                            (filter (λ r, Reservation.id r ≠ Some reservation_id)
                                    (reservations (db w)))
                            (users (db w)))
                      (jobs w) (flashes w)))) as Hyes.
  { intros Hal Hc. subst o. unfold run, home_delete, mbind, Handler_bind, get_db.
    simpl. rewrite Hget.
    assert (User.administrator (current_user env)
            || bool_decide (Reservation.username reservation
                            = User.username (current_user env)) = true) as ->.
    { apply orb_true_iff. destruct Hal as [? | ?]; [by left | right].
      by apply bool_decide_eq_true. }
    unfold table_delete_item, mbind, Handler_bind, get_db.
    rewrite (commit_or_rollback_ok env _ _ _ w Hc). simpl. by rewrite Hid. }
  assert (¬ allowed →
          o = Responded (Redirect "views.home")
                (add_flash msg_no_permission "error" w)) as Hno.
  { intros Hal. subst o. unfold run, home_delete, mbind, Handler_bind, get_db.
    simpl. rewrite Hget.
    assert (User.administrator (current_user env)
            || bool_decide (Reservation.username reservation
                            = User.username (current_user env)) = false) as ->.
    { apply orb_false_iff. split.
      - apply not_true_is_false. intros ?. apply Hal. by left.
      - apply bool_decide_eq_false. intros ?. apply Hal. by right. }
    done. }
  split_and!.
  - intros Hc. destruct (decide allowed) as [Hal | Hal].
    + rewrite (Hyes Hal Hc). simpl.
      split; [done | intros _]. apply reservation_get_after_delete.
    + rewrite (Hno Hal). simpl. rewrite Hget. split; [done | tauto].
  - done.
  - intros Hal. by rewrite (Hno Hal).
Qed.

(** Bob, who is no administrator, asks to delete the reservation of Alice. *)
Lemma home_delete_spec_witness :
  let r := Reservation.mk (Some 1) 1 "Laptop-A" "alice" (clock 10 0) (clock 11 0) "work" in
  let w := mkWorld (mkDB [laptop] [r] [alice; bob]) ∅ [] in
  let env := env_of bob (clock 9 0) in
  let allowed :=
    User.administrator (current_user env) = true
    ∨ Reservation.username r = User.username (current_user env) in
  let o := run (home_delete env (Some 1)) w in
  (commit_fault env = None → (reservation_get (db (world_of o)) 1 = None ↔ allowed))
  ∧ (allowed → commit_fault env = None →
     o = Responded (Redirect "views.home")
           (add_flash "Reservation deleted successfully!" "success"
              (mkWorld
                 (mkDB (devices (db w))
                       (filter (λ r, Reservation.id r ≠ Some 1) (reservations (db w)))
                       (users (db w)))
                 (jobs w) (flashes w))))
  ∧ (¬ allowed →
     o = Responded (Redirect "views.home") (add_flash msg_no_permission "error" w)
     ∧ db (world_of o) = db w ∧ jobs (world_of o) = jobs w).
Proof.
  apply (home_delete_spec (env_of bob (clock 9 0)) 1
           (Reservation.mk (Some 1) 1 "Laptop-A" "alice" (clock 10 0) (clock 11 0) "work")).
  reflexivity.
Defined.

(** ** Renaming a device *)

Lemma NoDup_map_inj_on {A B} (f : A → B) (l : list A) x y :
  NoDup (map f l) → x ∈ l → y ∈ l → f x = f y → x = y.
Proof.
  induction l as [| a l IH]; intros Hnd Hx Hy E.
  - by apply not_elem_of_nil in Hx.
  - simpl in Hnd. apply NoDup_cons in Hnd as [Ha Hnd].
    assert (∀ z, z ∈ l → f z ≠ f a) as Hfresh.
    { intros z Hz Hfz. apply Ha. rewrite <- Hfz.
      apply list_elem_of_In, in_map, list_elem_of_In, Hz. }
    apply elem_of_cons in Hx as [-> | Hx]; apply elem_of_cons in Hy as [-> | Hy].
    + done.
    + symmetry in E. by apply Hfresh in E.
    + by apply Hfresh in E.
    + by apply IH.
Qed.

Lemma rename_loop_snoc value all r s :
  rename_loop value (all ++ [r]) s
  = let device' := Device.set_device_name value (fst (rename_loop value all s)) in
    (device',
     replace_device device'
       (replace_reservation (Reservation.set_device_name value r)
          (snd (rename_loop value all s)))).
Proof.
  unfold rename_loop. rewrite foldl_app. simpl.
  by destruct (foldl _ s all).
Qed.

(** The device object and the device rows after the inner loop. *)
Lemma rename_loop_device value all device d :
  fst (rename_loop value all (device, d))
  = (if all is [] then device else Device.set_device_name value device)
  ∧ devices (snd (rename_loop value all (device, d)))
    = (if all is [] then devices d
       else map (λ x, if decide (Device.id x = Device.id device)
                      then Device.set_device_name value device else x)
                (devices d)).
Proof.
  induction all as [| r all IH] using rev_ind; [done |].
  rewrite rename_loop_snoc. cbv zeta. destruct IH as [IHf IHd].
  set (st := rename_loop value all (device, d)) in *.
  assert (Device.set_device_name value (fst st)
          = Device.set_device_name value device) as ->.
  { rewrite IHf. by destruct all. }
  cbn [fst snd]. unfold replace_device, replace_reservation. cbn [devices].
  rewrite IHd. clearbody st.
  assert (all ++ [r] ≠ []) as Hne by (by destruct all).
  destruct (all ++ [r]); [done |].
  split; [done |].
  destruct all; [done |].
  rewrite map_map. apply map_ext. intros x.
  change (Device.id (Device.set_device_name value device)) with (Device.id device).
  destruct (decide (Device.id x = Device.id device)) as [E | E].
  - by rewrite decide_True.
  - by rewrite decide_False.
Qed.

(** The reservation rows after the inner loop, for a table with distinct
    keys and a loop over rows of that table. *)
Lemma rename_loop_reservations value all device d :
  NoDup (map Reservation.id (reservations d)) →
  Forall (λ r, r ∈ reservations d) all →
  reservations (snd (rename_loop value all (device, d)))
  = map (λ r, if decide (r ∈ all) then Reservation.set_device_name value r else r)
        (reservations d).
Proof.
  intros Hnd. induction all as [| r all IH] using rev_ind; intros Hall.
  - simpl. rewrite <- (map_id (reservations d)) at 1. apply map_ext.
    done.
  - apply Forall_app in Hall as [Hall [Hr _]%Forall_cons].
    rewrite rename_loop_snoc. cbv zeta. cbn [fst snd].
    unfold replace_device, replace_reservation. cbn [reservations].
    rewrite (IH Hall), map_map.
    apply map_ext_in. intros x Hx%list_elem_of_In.
    assert (Reservation.id
              (if decide (x ∈ all) then Reservation.set_device_name value x else x)
            = Reservation.id x) as -> by (by case_decide).
    simpl. destruct (decide (Reservation.id x = Reservation.id r)) as [E | E].
    + assert (x = r) as -> by (by eapply NoDup_map_inj_on).
      rewrite decide_True; [done |].
      apply elem_of_app. right. by apply list_elem_of_singleton.
    + assert (x ≠ r) by congruence.
      destruct (decide (x ∈ all)).
      * rewrite decide_True; [done |]. apply elem_of_app. by left.
      * rewrite decide_False; [done |].
        intros [? | ?%list_elem_of_singleton]%elem_of_app; done.
Qed.

Lemma device_get_id d device_id device :
  device_get d device_id = Some device →
  Device.id device = device_id ∧ device ∈ devices d.
Proof.
  unfold device_get. intros H.
  destruct (filter _ _) as [| x l] eqn:E; [done |]. simpl in H.
  injection H as ->.
  assert (device ∈ device :: l) as Hr by left. rewrite <- E in Hr.
  by apply list_elem_of_filter in Hr.
Qed.

(** The whole rename: with distinct keys in both tables it renames the
    device row and the rows of the device's reservations, provided there is
    at least one of these. *)
Lemma rename_loop_tables value device_id device d :
  NoDup (map Device.id (devices d)) →
  NoDup (map Reservation.id (reservations d)) →
  device_get d device_id = Some device →
  reservations_for_device d device_id ≠ [] →
  snd (rename_loop value (reservations_for_device d device_id) (device, d))
  = mkDB (rename_device_rows value device_id (devices d))
         (rename_reservation_rows value device_id (reservations d))
         (users d).
Proof.
  intros Hdd Hdr Hget Hne.
  pose proof (device_get_id _ _ _ Hget) as [Hid Hin].
  pose proof (rename_loop_device value (reservations_for_device d device_id) device d)
    as [_ Hdev].
  pose proof (rename_loop_reservations value
                (reservations_for_device d device_id) device d Hdr) as Hres.
  assert (users (snd (rename_loop value (reservations_for_device d device_id)
                        (device, d))) = users d) as Husers.
  { generalize (reservations_for_device d device_id). intros all.
    induction all as [| r all IH] using rev_ind; [done |].
    by rewrite rename_loop_snoc. }
  destruct (snd (rename_loop _ _ _)) as [dv rv uv]. simpl in *.
  f_equal.
  - rewrite Hdev. destruct (reservations_for_device d device_id); [done |].
    apply map_ext_in. intros x Hx%list_elem_of_In. rewrite Hid.
    case_decide as E; [| done].
    assert (device = x) as ->
      by (apply (NoDup_map_inj_on Device.id (devices d)); try done; congruence).
    done.
  - rewrite Hres.
    + apply map_ext_in. intros x Hx%list_elem_of_In.
      pose proof (elem_of_reservations_for_device d device_id x) as Hiff.
      destruct (decide (x ∈ reservations_for_device d device_id)),
               (decide (Reservation.device_id x = device_id)); tauto.
    + apply Forall_forall. by intros x [? _]%elem_of_reservations_for_device.
  - done.
Qed.

(** The loop over the five fields: only [device_name] can change the working
    state, and only [last_use] can flash or raise. *)
Lemma device_fields_loop env device_id form s w :
  for_each device_fields (device_field_body env device_id form) s w
  = let s1 := if truthy (df_device_name form)
              then rename_loop (df_device_name form)
                     (reservations_for_device (snd s) device_id) s
              else s in
    match df_last_use form with
    | TBlank => Cont s1 w
    | TMalformed => Stop (Raised ValueError w)
    | TStamp t =>
        Cont s1 (if t >? now env
                 then add_flash "The last use of a device can not be in the future"
                        "info" w
                 else w)
    end.
Proof.
  unfold device_fields, for_each, device_field_body, mbind, Handler_bind.
  simpl. destruct (truthy (df_device_name form)), (df_last_use form) as [| | t];
    simpl; try done; by destruct (t >? now env).
Qed.

Lemma device_update_db_cases env device_id is_post form w device :
  device_get (db w) device_id = Some device →
  let w' := world_of (run (device_update env (Some device_id) is_post form) w) in
  (is_post = true → User.administrator (current_user env) = true →
   df_last_use form ≠ TMalformed → commit_fault env = None →
   db w' = device_update_tables device_id form device (db w))
  ∧ (db w' = db w ∨ db w' = device_update_tables device_id form device (db w)).
Proof.
  intros Hget w'. subst w'.
  remember (run (device_update env (Some device_id) is_post form) w) as o eqn:Ho.
  unfold device_update, run in Ho.
  unfold mbind at 1, Handler_bind at 1, get_db at 1 in Ho.
  rewrite Hget in Ho.
  destruct (is_post && User.administrator (current_user env)) eqn:Hpa.
  - unfold mbind at 1, Handler_bind at 1 in Ho.
    rewrite device_fields_loop in Ho. cbv zeta in Ho.
    unfold device_update_tables. cbn [snd] in Ho.
    destruct (if truthy (df_device_name form) then _ else _)
      as [device' d'] eqn:Es1.
    cbn [snd]. unfold table_update_item in Ho.
    destruct (df_last_use form) as [| | t] eqn:El.
    + unfold mbind, Handler_bind in Ho.
      destruct (commit_fault env) as [e |] eqn:Ec.
      * rewrite (commit_or_rollback_fault _ _ _ _ _ e Ec) in Ho. subst o.
        split; [done | by left].
      * rewrite (commit_or_rollback_ok _ _ _ _ _ Ec) in Ho. subst o.
        split; [done | by right].
    + subst o. split; [done | by left].
    + unfold mbind, Handler_bind in Ho.
      destruct (commit_fault env) as [e |] eqn:Ec.
      * rewrite (commit_or_rollback_fault _ _ _ _ _ e Ec) in Ho. subst o.
        split; [done | left; by destruct (t >? now env)].
      * rewrite (commit_or_rollback_ok _ _ _ _ _ Ec) in Ho. subst o.
        split; [done | by right].
  - split.
    + intros -> Hadm. by rewrite Hadm in Hpa.
    + left. subst o. by destruct (negb (User.administrator (current_user env))).
Qed.

Lemma same_but_name_rename value device_id rows :
  Forall2 same_but_name rows (rename_device_rows value device_id rows).
Proof.
  induction rows as [| x rows IH]; [constructor |].
  simpl. constructor; [| exact IH].
  case_decide; by unfold same_but_name.
Qed.

Lemma same_but_name_refl rows : Forall2 same_but_name rows rows.
Proof. induction rows; constructor; by unfold same_but_name. Qed.

Lemma device_get_renamed value device_id rows device :
  head (filter (λ x, Device.id x = device_id) rows) = Some device →
  head (filter (λ x, Device.id x = device_id)
          (rename_device_rows value device_id rows))
  = Some (Device.mk device_id (Device.device_brand device) value
            (Device.device_status device) (Device.device_type device)
            (Device.last_use device)).
Proof.
  unfold rename_device_rows.
  induction rows as [| x rows IH]; [done |]. cbn [map].
  destruct (decide (Device.id x = device_id)) as [E | E].
  - rewrite !filter_cons_True by done. simpl. intros [= ->]. by rewrite E.
  - by rewrite !filter_cons_False by done.
Qed.

Lemma renamed_device_rows_name value device_id rows x' :
  x' ∈ rename_device_rows value device_id rows →
  Device.id x' = device_id → Device.device_name x' = value.
Proof.
  unfold rename_device_rows. intros Hx%list_elem_of_In.
  apply in_map_iff in Hx as (x & <- & _).
  by case_decide.
Qed.

Lemma renamed_reservation_rows_name value device_id rows r' :
  r' ∈ rename_reservation_rows value device_id rows →
  Reservation.device_id r' = device_id → Reservation.device_name r' = value.
Proof.
  unfold rename_reservation_rows. intros Hr%list_elem_of_In.
  apply in_map_iff in Hr as (r & <- & _).
  by case_decide.
Qed.

Lemma renamed_reservation_rows_some value device_id rows :
  filter (λ r, Reservation.device_id r = device_id) rows ≠ [] →
  filter (λ r, Reservation.device_id r = device_id)
    (rename_reservation_rows value device_id rows) ≠ [].
Proof.
  unfold rename_reservation_rows.
  induction rows as [| r rows IH]; [done |]. cbn [map].
  destruct (decide (Reservation.device_id r = device_id)) as [E | E].
  - by rewrite !filter_cons_True by done.
  - by rewrite !filter_cons_False by done.
Qed.

(** C10. For a device that exists, in tables with distinct keys: when the
    device has no reservation the tables are left as they were, whatever the
    form holds; when it has at least one, an administrator's POST with a
    non-empty [device_name] (a [last_use] that parses or is blank, a commit
    that is accepted) stores the submitted name in the device row and in
    every reservation row of the device and changes nothing else: the device
    found under the key afterwards carries the submitted name and its old
    brand, status, type and last use, every stored reservation of the device
    carries the submitted name, and there still is one; and in every case
    each device row keeps its identifier, brand, status, type and last use. *)
Theorem device_update_rename_spec (env : Env) (device_id : Z) (is_post : bool)
    (form : DeviceForm) (w : World) (device : Device.t) :
  NoDup (map Device.id (devices (db w))) →
  NoDup (map Reservation.id (reservations (db w))) →
  device_get (db w) device_id = Some device →
  let w' := world_of (run (device_update env (Some device_id) is_post form) w) in
  (reservations_for_device (db w) device_id = [] → db w' = db w)
  ∧ (reservations_for_device (db w) device_id ≠ [] →
     is_post = true → User.administrator (current_user env) = true →
     truthy (df_device_name form) = true →
     df_last_use form ≠ TMalformed → commit_fault env = None →
     db w' = mkDB (rename_device_rows (df_device_name form) device_id (devices (db w)))
                  (rename_reservation_rows (df_device_name form) device_id
                     (reservations (db w)))
                  (users (db w))
     ∧ device_get (db w') device_id
       = Some (Device.mk device_id (Device.device_brand device) (df_device_name form)
                 (Device.device_status device) (Device.device_type device)
                 (Device.last_use device))
     ∧ (∀ x', x' ∈ devices (db w') → Device.id x' = device_id →
              Device.device_name x' = df_device_name form)
     ∧ (∀ r', r' ∈ reservations (db w') → Reservation.device_id r' = device_id →
              Reservation.device_name r' = df_device_name form)
     ∧ reservations_for_device (db w') device_id ≠ [])
  ∧ Forall2 same_but_name (devices (db w)) (devices (db w')).
Proof.
  intros Hdd Hdr Hget w'.
  pose proof (device_update_db_cases env device_id is_post form w device Hget)
    as [Hpost Hcases].
  fold w' in Hpost, Hcases.
  assert (reservations_for_device (db w) device_id = [] →
          device_update_tables device_id form device (db w) = db w) as Hzero.
  { intros E. unfold device_update_tables. rewrite E.
    by destruct (truthy (df_device_name form)). }
  assert (reservations_for_device (db w) device_id ≠ [] →
          truthy (df_device_name form) = true →
          device_update_tables device_id form device (db w)
          = mkDB (rename_device_rows (df_device_name form) device_id (devices (db w)))
                 (rename_reservation_rows (df_device_name form) device_id
                    (reservations (db w)))
                 (users (db w))) as Hsome.
  { intros Hne Ht. unfold device_update_tables. rewrite Ht.
    by apply rename_loop_tables. }
  split_and!.
  - intros E. destruct Hcases as [-> | ->]; [done | by apply Hzero].
  - intros Hne -> Hadm Ht Hl Hc. rewrite Hpost by done. rewrite Hsome by done.
    split_and!.
    + done.
    + by apply device_get_renamed.
    + intros x'. apply renamed_device_rows_name.
    + intros r'. apply renamed_reservation_rows_name.
    + by apply renamed_reservation_rows_some.
  - destruct Hcases as [-> | ->]; [apply same_but_name_refl |].
    destruct (reservations_for_device (db w) device_id) eqn:E.
    + rewrite Hzero by done. apply same_but_name_refl.
    + destruct (truthy (df_device_name form)) eqn:Ht.
      * rewrite Hsome by (rewrite ?E; done). apply same_but_name_rename.
      * unfold device_update_tables. rewrite Ht. apply same_but_name_refl.
Qed.

(** Renaming the laptop, which has one reservation: an administrator's
    request at 09:00 with every field of the form filled in. *)
Lemma device_update_rename_spec_witness :
  let r := Reservation.mk (Some 1) 1 "Laptop-A" "alice" (clock 10 0) (clock 11 0) "work" in
  let w := mkWorld (mkDB [laptop; laptop2] [r] [alice; root]) ∅ [] in
  let form := mkDeviceForm "Laptop-B" "Other" "Retired" "Phone" TBlank in
  let w' := world_of (run (device_update (env_of root (clock 9 0)) (Some 1) true form) w) in
  (db w' = mkDB (rename_device_rows "Laptop-B" 1 (devices (db w)))
                (rename_reservation_rows "Laptop-B" 1 (reservations (db w)))
                (users (db w))
   ∧ device_get (db w') 1 = Some (Device.mk 1 "Acme" "Laptop-B" "Active" "Laptop" None)
   ∧ (∀ x', x' ∈ devices (db w') → Device.id x' = 1 →
            Device.device_name x' = "Laptop-B")
   ∧ (∀ r', r' ∈ reservations (db w') → Reservation.device_id r' = 1 →
            Reservation.device_name r' = "Laptop-B")
   ∧ reservations_for_device (db w') 1 ≠ [])
  ∧ Forall2 same_but_name (devices (db w)) (devices (db w')).
Proof.
  intros r w form w'.
  assert (NoDup (map Device.id (devices (db w)))) as Hdd
    by (apply (bool_decide_unpack _); reflexivity).
  assert (NoDup (map Reservation.id (reservations (db w)))) as Hdr
    by (apply (bool_decide_unpack _); reflexivity).
  assert (device_get (db w) 1 = Some laptop) as Hget by reflexivity.
  destruct (device_update_rename_spec (env_of root (clock 9 0)) 1 true form w laptop
              Hdd Hdr Hget) as (_ & Hrename & Hsame).
  split; [| exact Hsame].
  apply Hrename; try reflexivity.
  - intros H. discriminate H.
  - intros H. discriminate H.
Defined.

(** The rename is dropped for a device without reservations and applied for
    a device with one; the other submitted fields are never written. *)
Example device_update_rename_examples :
  let form := mkDeviceForm "Laptop-B" "Other" "Retired" "Phone" TBlank in
  let env := env_of root (clock 9 0) in
  let r := Reservation.mk (Some 1) 1 "Laptop-A" "alice" (clock 10 0) (clock 11 0) "work" in
  let free := mkWorld (mkDB [laptop] [] [root]) ∅ [] in
  let busy := mkWorld (mkDB [laptop] [r] [root]) ∅ [] in
  db (world_of (run (device_update env (Some 1) true form) free)) = db free
  ∧ db (world_of (run (device_update env (Some 1) true form) busy))
    = mkDB [Device.mk 1 "Acme" "Laptop-B" "Active" "Laptop" None]
           [Reservation.mk (Some 1) 1 "Laptop-B" "alice" (clock 10 0) (clock 11 0) "work"]
           [root].
Proof. split; reflexivity. Qed.

(** ** Creating a reservation *)

Lemma first_available_some d all_devices start_time end_time i :
  first_available d all_devices start_time end_time = Some i →
  check_if_device_is_available d i start_time end_time = true
  ∧ ∃ device, device ∈ all_devices ∧ Device.id device = i.
Proof.
  induction all_devices as [| x l IH]; simpl; [done |].
  destruct (check_if_device_is_available d (Device.id x) start_time end_time) eqn:E.
  - intros [= <-]. split; [done |]. exists x. split; [left | done].
  - intros H. destruct (IH H) as [Ha (device & Hin & Hid)].
    split; [done |]. exists device. split; [by right | done].
Qed.

Lemma device_first_some d device :
  device ∈ devices d → is_Some (device_first d (Device.id device)).
Proof.
  intros Hin. unfold device_first.
  destruct (filter _ _) as [| x l] eqn:E; [| by eexists].
  assert (device ∈ filter (λ x, Device.id x = Device.id device) (devices d)) as H
    by (by apply list_elem_of_filter).
  rewrite E in H. by apply not_elem_of_nil in H.
Qed.

(** What a request that passes the checks of [create] is known to satisfy:
    nothing was flashed, the times are the submitted ones and form a present
    or future proper interval, the device exists and is available. *)
Lemma create_checks_sound env form w device_id start_time end_time w1 :
  create_checks env form w = Cont (device_id, start_time, end_time) w1 →
  w1 = w
  ∧ cf_start_time form = TStamp start_time
  ∧ cf_end_time form = TStamp end_time
  ∧ now env <= start_time ∧ start_time < end_time
  ∧ check_if_device_is_available (db w) device_id start_time end_time = true
  ∧ is_Some (device_first (db w) device_id).
Proof.
  unfold create_checks. intros H.
  destruct (cf_start_time form) as [| | s]; try done.
  destruct (cf_end_time form) as [| | e]; try done.
  unfold mbind at 1, Handler_bind at 1 in H. simpl in H.
  unfold mbind at 1, Handler_bind at 1 in H. simpl in H.
  unfold mbind at 1, Handler_bind at 1 in H.
  unfold check_start_and_end_time in H.
  destruct ((s <? now env) || (e <? now env)) eqn:Hpast; [done |].
  destruct (s >=? e) eqn:Hord; [done |].
  apply orb_false_iff in Hpast as [Hs He].
  apply Z.ltb_ge in Hs. apply Z.ltb_ge in He.
  rewrite Z.geb_leb in Hord. apply Z.leb_gt in Hord.
  simpl in H. unfold mbind at 1, Handler_bind at 1, get_db at 1 in H.
  destruct (cf_device_id form) as [z |]; simpl in H.
  - destruct (check_if_device_is_available (db w) z s e) eqn:Hav; [| done].
    simpl in H. destruct (device_first (db w) z) eqn:Hdev; [| done].
    injection H as <- <- <- <-. split_and!; try done; by eexists.
  - unfold check_availability_of_device_name in H.
    destruct (filter _ (devices (db w))) as [| x l] eqn:Hmatch; [done |].
    destruct (first_available (db w) (x :: l) s e) as [i |] eqn:Hfirst; [| done].
    unfold mbind at 1, Handler_bind at 1 in H. simpl in H.
    destruct (i =? 0) eqn:Hi; [done |].
    destruct (check_if_user_exists_from_username _ _); [| done].
    injection H as <- <- <- <-.
    apply first_available_some in Hfirst as [Hav (device & Hin & <-)].
    split_and!; try done; [].
    apply device_first_some. rewrite <- Hmatch in Hin.
    by apply list_elem_of_filter in Hin as [_ ?].
Qed.

(** The outcome of [create] for a request that passes the checks. *)
Lemma create_after_checks env form w device_id start_time end_time device :
  create_checks env form w = Cont (device_id, start_time, end_time) w →
  device_first (db w) device_id = Some device →
  let reservation := new_reservation_of env form device device_id start_time end_time in
  let scheduled := <[job_id_of reservation := job_of env reservation]> (jobs w) in
  run (create env form) w
  = if add_job_fault env then Raised SchedulerError w
    else match commit_fault env with
         | None =>
             Responded (Redirect "reservation.home")
               (add_flash "Reservation created successfully!" "success"
                  (mkWorld
                     (mkDB (devices (db w))
                           (reservations (db w)
                            ++ [Reservation.set_id
                                  (Some (next_reservation_id (db w))) reservation])
                           (users (db w)))
                     scheduled (flashes w)))
         | Some e =>
             Responded (Redirect "reservation.create")
               (add_flash ("Error creating reservation:" +:+ "  " +:+ e) "error"
                  (mkWorld (db w) scheduled (flashes w)))
         end.
Proof.
  intros Hchecks Hdev reservation scheduled.
  unfold run, create. unfold mbind at 1, Handler_bind at 1. rewrite Hchecks.
  unfold mbind at 1, Handler_bind at 1, get_db at 1. rewrite Hdev.
  unfold schedule_reservation_notification, add_job.
  fold (new_reservation_of env form device device_id start_time end_time).
  fold reservation.
  destruct (add_job_fault env); [done |].
  unfold table_create_item, commit_or_rollback.
  destruct (commit_fault env); reflexivity.
Qed.

Lemma job_id_of_unsaved reservation :
  Reservation.id reservation = None → job_id_of reservation = "notify_user_None".
Proof. unfold job_id_of. by intros ->. Qed.

(** Saved reservations with different keys get different job identifiers. *)
Lemma job_id_of_saved_inj r1 r2 i j :
  Reservation.id r1 = Some i → Reservation.id r2 = Some j →
  job_id_of r1 = job_id_of r2 → i = j.
Proof.
  unfold job_id_of. intros -> -> E. simpl in E.
  apply (inj (String.append "notify_user_")) in E.
  by apply (inj pretty) in E.
Qed.

(** C7, as the code has it. For a create request that passes validation and
    availability checking: when the scheduling step fails, the failure is not
    swallowed but leaves [create] as an unhandled error, and nothing is
    reported to the user; when the scheduling step succeeds and the store
    accepts the commit, the reservation is inserted with a fresh key and
    reported as created. *)
Theorem create_scheduling_failure_propagates (env : Env) (form : CreateForm)
    (w : World) (device_id start_time end_time : Z) (w1 : World) :
  create_checks env form w = Cont (device_id, start_time, end_time) w1 →
  (add_job_fault env = true →
   ∃ w', run (create env form) w = Raised SchedulerError w'
         ∧ flashes w' = flashes w)
  ∧ (add_job_fault env = false → commit_fault env = None →
     ∃ device w',
       device_first (db w) device_id = Some device
       ∧ run (create env form) w = Responded (Redirect "reservation.home") w'
       ∧ reservations (db w')
         = reservations (db w)
           ++ [Reservation.set_id (Some (next_reservation_id (db w)))
                 (new_reservation_of env form device device_id start_time end_time)]
       ∧ flashes w'
         = flashes w ++ [mkFlash "Reservation created successfully!" "success"]).
Proof.
  intros Hchecks.
  pose proof (create_checks_sound _ _ _ _ _ _ _ Hchecks) as (-> & _ & _ & _ & _ & _ & Hdev).
  destruct Hdev as [device Hdev].
  pose proof (create_after_checks _ _ _ _ _ _ _ Hchecks Hdev) as Hrun.
  cbv zeta in Hrun. split.
  - intros Hf. rewrite Hf in Hrun. by eexists.
  - intros Hf Hc. rewrite Hf, Hc in Hrun. exists device. eexists.
    split; [done |]. split; [exact Hrun |]. done.
Qed.

(** Alice books the laptop for 10:00 to 11:00; the scheduler is down. *)
Lemma create_scheduling_failure_propagates_witness :
  let env := mkEnv (clock 9 0) alice true None in
  let form := book 1 (clock 10 0) (clock 11 0) in
  (add_job_fault env = true →
   ∃ w', run (create env form) world0 = Raised SchedulerError w'
         ∧ flashes w' = flashes world0)
  ∧ (add_job_fault env = false → commit_fault env = None →
     ∃ device w',
       device_first (db world0) 1 = Some device
       ∧ run (create env form) world0 = Responded (Redirect "reservation.home") w'
       ∧ reservations (db w')
         = reservations (db world0)
           ++ [Reservation.set_id (Some (next_reservation_id (db world0)))
                 (new_reservation_of env form device 1 (clock 10 0) (clock 11 0))]
       ∧ flashes w'
         = flashes world0 ++ [mkFlash "Reservation created successfully!" "success"]).
Proof.
  apply (create_scheduling_failure_propagates
           (mkEnv (clock 9 0) alice true None) (book 1 (clock 10 0) (clock 11 0))
           world0 1 (clock 10 0) (clock 11 0) world0).
  reflexivity.
Defined.

(** C7, as the specification states it, fails: Alice's request passes
    validation and availability checking, the scheduler is down, and the
    request ends in an unhandled error with no reservation stored and nothing
    reported. *)
Lemma scheduling_failure_loses_reservation :
  let env := mkEnv (clock 9 0) alice true None in
  let form := book 1 (clock 10 0) (clock 11 0) in
  let o := run (create env form) world0 in
  create_checks env form world0 = Cont (1, clock 10 0, clock 11 0) world0
  ∧ o = Raised SchedulerError world0
  ∧ reservations (db (world_of o)) = []
  ∧ flashes (world_of o) = [].
Proof. split_and!; reflexivity. Qed.

(** ** Scheduling keyed by an identifier not yet assigned *)

(** C8 fails on the code: [create] schedules the notification for the
    reservation object before the store has given it a key, so the job
    identifier is "notify_user_None" for every reservation. Alice books the
    laptop for 10:00 to 11:00 and Bob for 12:00 to 13:00: both reservations
    are stored, under the keys 1 and 2, and the scheduler holds one job only,
    Bob's, which took the place of Alice's. *)
Theorem create_jobs_share_one_key :
  let w1 := handle (CreateReq (env_of alice (clock 9 0))
                      (book 1 (clock 10 0) (clock 11 0))) world0 in
  let w2 := handle (CreateReq (env_of bob (clock 9 0))
                      (book 1 (clock 12 0) (clock 13 0))) w1 in
  map Reservation.id (reservations (db w2)) = [Some 1; Some 2]
  ∧ map Reservation.username (reservations (db w2)) = ["alice"; "bob"]
  ∧ (job_email <$> jobs w1 !! "notify_user_None") = Some "alice@example.org"
  ∧ (job_email <$> jobs w2 !! "notify_user_None") = Some "bob@example.org"
  ∧ size (jobs w2) = 1%nat
  ∧ jobs w2 !! "notify_user_1" = None
  ∧ jobs w2 !! "notify_user_2" = None.
Proof. split_and!; vm_compute; reflexivity. Qed.

(** ** The no-overlap invariant *)

Lemma ForallOrdPairs_snoc {A} (R : A → A → Prop) l x :
  ForallOrdPairs R l → Forall (λ a, R a x) l → ForallOrdPairs R (l ++ [x]).
Proof.
  induction 1 as [| a l Ha _ IH]; intros Hx; simpl.
  - repeat constructor.
  - apply Forall_cons in Hx as [Hax Hx]. constructor; [| by apply IH].
    apply Forall_app. split; [done | by constructor].
Qed.

(** The checks of [create] leave the tables alone, whatever they answer. *)
Lemma create_checks_db env form w :
  match create_checks env form w with
  | Cont _ w1 => w1 = w
  | Stop o => db (world_of o) = db w
  end.
Proof.
  unfold create_checks.
  destruct (cf_start_time form) as [| | s]; try done.
  destruct (cf_end_time form) as [| | e]; try done.
  unfold mbind at 1, Handler_bind at 1. simpl.
  unfold mbind at 1, Handler_bind at 1. simpl.
  unfold mbind at 1, Handler_bind at 1.
  unfold check_start_and_end_time.
  destruct ((s <? now env) || (e <? now env)); [done |].
  destruct (s >=? e); [done |].
  simpl. unfold mbind at 1, Handler_bind at 1, get_db at 1.
  destruct (cf_device_id form) as [z |]; simpl.
  - destruct (check_if_device_is_available (db w) z s e); [| done].
    simpl. by destruct (device_first (db w) z).
  - unfold check_availability_of_device_name.
    destruct (filter _ (devices (db w))) as [| x l]; [done |].
    destruct (first_available (db w) (x :: l) s e) as [i |]; [| done].
    unfold mbind at 1, Handler_bind at 1. simpl.
    destruct (i =? 0); [done |].
    by destruct (check_if_user_exists_from_username _ _).
Qed.

(** A create request either leaves the reservation table as it was or adds
    one row, on a device that was available for the row's interval. *)
Lemma create_table_cases env form w :
  let w' := handle (CreateReq env form) w in
  reservations (db w') = reservations (db w)
  ∨ ∃ row, reservations (db w') = reservations (db w) ++ [row]
           ∧ check_if_device_is_available (db w) (Reservation.device_id row)
               (Reservation.start_time row) (Reservation.end_time row) = true
           ∧ now env <= Reservation.start_time row
           ∧ Reservation.start_time row < Reservation.end_time row.
Proof.
  intros w'. subst w'. unfold handle.
  pose proof (create_checks_db env form w) as Hdb.
  destruct (create_checks env form w) as [[[device_id s] e] w1 | o] eqn:Hchecks.
  - subst w1.
    pose proof (create_checks_sound _ _ _ _ _ _ _ Hchecks)
      as (_ & _ & _ & Hnow & Hlt & Hav & [device Hdev]).
    rewrite (create_after_checks _ _ _ _ _ _ _ Hchecks Hdev).
    destruct (add_job_fault env); [by left |].
    destruct (commit_fault env); [by left |].
    right. eexists. split; [reflexivity |]. done.
  - left. unfold run, create. unfold mbind at 1, Handler_bind at 1.
    rewrite Hchecks. by rewrite Hdb.
Qed.

(** The create path keeps the invariant: a stored table without overlaps
    stays without overlaps through any create request. *)
Lemma create_preserves_no_overlap env form w :
  no_overlap (db w) → no_overlap (db (handle (CreateReq env form) w)).
Proof.
  unfold no_overlap. intros Hinv.
  destruct (create_table_cases env form w) as [-> | (row & -> & Hav & _ & _)];
    [done |].
  apply ForallOrdPairs_snoc; [done |].
  apply Forall_forall. intros a Ha Hsame.
  rewrite check_if_device_is_available_true in Hav.
  specialize (Hav a Ha Hsame). unfold clear_of, apart in *. lia.
Qed.

(** C1 fails on the code: [update] validates submitted times but checks
    availability only when a device is submitted too. Alice books the laptop
    for 10:00 to 11:00 and Bob for 12:00 to 13:00; an administrator then
    moves the start of Bob's reservation to 10:30. The update is committed
    and the two stored reservations of the laptop overlap. *)
Theorem update_times_breaks_no_overlap :
  let w1 := handle (CreateReq (env_of alice (clock 9 0))
                      (book 1 (clock 10 0) (clock 11 0))) world0 in
  let w2 := handle (CreateReq (env_of bob (clock 9 0))
                      (book 1 (clock 12 0) (clock 13 0))) w1 in
  let move := mkUpdateForm None "" "" (TStamp (clock 10 30)) TBlank "" in
  let w3 := handle (UpdateReq (env_of root (clock 9 0)) (Some 2) true move) w2 in
  reachable w2 ∧ no_overlap (db w2)
  ∧ reachable w3
  ∧ reservations (db w3)
    = [Reservation.mk (Some 1) 1 "Laptop-A" "alice" (clock 10 0) (clock 11 0) "work";
       Reservation.mk (Some 2) 1 "Laptop-A" "bob" (clock 10 30) (clock 13 0) "work"]
  ∧ ¬ no_overlap (db w3).
Proof.
  intros w1 w2 move w3.
  assert (reachable w2) as Hr2.
  { do 2 apply reachable_step. by apply reachable_init. }
  assert (reservations (db w3)
    = [Reservation.mk (Some 1) 1 "Laptop-A" "alice" (clock 10 0) (clock 11 0) "work";
       Reservation.mk (Some 2) 1 "Laptop-A" "bob" (clock 10 30) (clock 13 0) "work"])
    as E3 by (vm_compute; reflexivity).
  split_and!.
  - done.
  - do 2 apply create_preserves_no_overlap. unfold no_overlap. simpl. constructor.
  - by apply reachable_step.
  - done.
  - unfold no_overlap. rewrite E3. intros H.
    inversion H as [| ? ? Hfirst _]. inversion Hfirst as [| ? ? Hpair _].
    specialize (Hpair eq_refl). vm_compute in Hpair.
    by destruct Hpair.
Qed.

(** ** The scenarios of the specification *)

(** The laptop is reserved from 10:00 to 11:00. A request for 10:30 to 11:30
    conflicts, a request for 11:00 to 12:00 conflicts as well (it touches the
    reservation), and a request for 11:01 to 12:00 is free. *)
Example availability_scenario :
  let d := mkDB [laptop]
             [Reservation.mk (Some 1) 1 "Laptop-A" "alice" (clock 10 0) (clock 11 0) "work"]
             [alice] in
  check_if_device_is_available d 1 (clock 10 30) (clock 11 30) = false
  ∧ check_if_device_is_available d 1 (clock 11 0) (clock 12 0) = false
  ∧ check_if_device_is_available d 1 (clock 11 1) (clock 12 0) = true.
Proof. split_and!; reflexivity. Qed.

(** Without reservations the only gap is the open one from now; with two
    reservations back to back there is no gap between them. *)
Example gap_scenarios :
  let back_to_back :=
    mkDB [laptop]
      [Reservation.mk (Some 1) 1 "Laptop-A" "alice" (clock 10 0) (clock 11 0) "work";
       Reservation.mk (Some 2) 1 "Laptop-A" "bob" (clock 11 0) (clock 12 0) "work"]
      [alice; bob] in
  compute_availability_slots (clock 9 0) (future_reservations db0 1 (clock 9 0))
  = Some [mkSlot (clock 9 0) None]
  ∧ compute_availability_slots (clock 9 0)
      (future_reservations back_to_back 1 (clock 9 0))
    = Some [mkSlot (clock 9 0) (Some (clock 10 0)); mkSlot (clock 12 0) None].
Proof. split; reflexivity. Qed.

(** Two devices share the name; the one that is busy from 14:00 to 15:00 is
    passed over wherever it comes in the retrieval order. *)
Example resolver_scenario :
  let busy := Reservation.mk (Some 1) 1 "Laptop-A" "alice" (clock 14 0) (clock 15 0) "work" in
  let w := mkWorld (mkDB [laptop; laptop2] [busy] [alice]) ∅ [] in
  let w' := mkWorld (mkDB [laptop2; laptop] [busy] [alice]) ∅ [] in
  check_availability_of_device_name (db w) "Laptop-A" (clock 14 0) (clock 15 0) w
  = Cont (PyInt 2) w
  ∧ check_availability_of_device_name (db w') "Laptop-A" (clock 14 0) (clock 15 0) w'
    = Cont (PyInt 2) w'.
Proof. split; reflexivity. Qed.

(** The page of [see_availability] for a device that exists shows the future
    reservations and the gap list of the specification. *)
Lemma see_availability_renders env device_id device w :
  device_get (db w) device_id = Some device →
  run (see_availability env (Some device_id)) w
  = Responded
      (RenderAvailability
         (future_reservations (db w) device_id (now env))
         (expected_slots (now env) (future_reservations (db w) device_id (now env))))
      w.
Proof.
  intros Hget. unfold run, see_availability, mbind, Handler_bind, get_db.
  rewrite Hget. by rewrite compute_availability_slots_expected.
Qed.

(** * Further properties of the handlers *)

(** ** Updating a reservation: the stages *)

Lemma update_times_cases env form reservation w :
  match update_times env form reservation w with
  | Cont (r, s, e) w1 =>
      w1 = w
      ∧ r = Reservation.set_end_time e (Reservation.set_start_time s reservation)
      ∧ (time_truthy (uf_start_time form) || time_truthy (uf_end_time form) = true →
         now env <= s ∧ s < e)
      ∧ (uf_start_time form = TBlank → s = Reservation.start_time reservation)
      ∧ (uf_end_time form = TBlank → e = Reservation.end_time reservation)
  | Stop o => store_kept w o ∧ ∀ w', o ≠ Responded (Redirect "reservation.home") w'
  end.
Proof.
  unfold update_times, store_kept, check_start_and_end_time, mbind, Handler_bind.
  destruct reservation as [i dv dn un st en rs].
  destruct (uf_start_time form) as [| | s], (uf_end_time form) as [| | e]; simpl;
    try done;
    repeat match goal with
      | |- context [if ?b then _ else _] => destruct b eqn:?
      end; simpl; try done;
    repeat match goal with
      | H : (_ || _) = false |- _ => apply orb_false_iff in H as [? ?]
      | H : (_ <? _) = false |- _ => apply Z.ltb_ge in H
      | H : (_ >=? _) = false |- _ => rewrite Z.geb_leb in H; apply Z.leb_gt in H
      end;
    split_and!; try done; intros; lia.
Qed.

Lemma resolver_cases d device_name start_time end_time w :
  check_availability_of_device_name d device_name start_time end_time w
  = Cont PyFalse (add_flash (msg_no_devices device_name) "error" w)
  ∨ check_availability_of_device_name d device_name start_time end_time w
    = Cont PyFalse (add_flash msg_none_available "error" w)
  ∨ ∃ device,
      check_availability_of_device_name d device_name start_time end_time w
      = Cont (PyInt (Device.id device)) w
      ∧ device ∈ devices d ∧ Device.device_name device = device_name
      ∧ check_if_device_is_available d (Device.id device) start_time end_time = true.
Proof.
  unfold check_availability_of_device_name.
  destruct (filter _ (devices d)) as [| x l] eqn:Hm; [by left |].
  destruct (first_available d (x :: l) start_time end_time) as [i |] eqn:Hf;
    [| right; by left].
  right. right.
  apply first_available_some in Hf as [Hav (device & Hin & <-)].
  exists device. rewrite <- Hm in Hin.
  apply list_elem_of_filter in Hin as [? ?]. done.
Qed.

(** What an administrator's POST on an existing reservation comes to: either
    it stops short of a successful commit, and then tables and jobs are as
    before; or it commits one object [r'], obtained from the stored row by
    the submitted reason and username, the validated times, and the device
    that passed the availability check against the flushed tables. *)
Lemma update_inv env rid form w r0 :
  reservation_get (db w) rid = Some r0 →
  User.administrator (current_user env) = true →
  let o := run (update env (Some rid) true form) w in
  (store_kept w o ∧ ∀ w', o ≠ Responded (Redirect "reservation.home") w')
  ∨ ∃ r1 r2 s e r',
      Reservation.id r1 = Reservation.id r0
      ∧ Reservation.device_id r1 = Reservation.device_id r0
      ∧ Reservation.start_time r1 = Reservation.start_time r0
      ∧ Reservation.end_time r1 = Reservation.end_time r0
      ∧ update_times env form r1 w = Cont (r2, s, e) w
      ∧ Reservation.id r' = Reservation.id r0
      ∧ Reservation.start_time r' = s ∧ Reservation.end_time r' = e
      ∧ ((truthy (uf_device_name form) = false ∧ uf_device_id form = None
          ∧ Reservation.device_id r' = Reservation.device_id r0)
         ∨ ∃ r3, Reservation.id r3 = Reservation.id r0
                 ∧ Reservation.device_id r3 = Reservation.device_id r0
                 ∧ Reservation.start_time r3 = s ∧ Reservation.end_time r3 = e
                 ∧ (truthy (uf_device_name form) = false →
                    uf_device_id form = Some (Reservation.device_id r'))
                 ∧ check_if_device_exists_from_device_id (db w)
                     (Reservation.device_id r') = true
                 ∧ check_if_device_is_available (replace_reservation r3 (db w))
                     (Reservation.device_id r') s e = true)
      ∧ commit_fault env = None
      ∧ o = Responded (Redirect "reservation.home")
              (add_flash "Reservation updated successfully!" "success"
                 (mkWorld (replace_reservation r' (db w)) (jobs w) (flashes w))).
Proof.
  intros Hget Hadm o.
  assert (o = run (update env (Some rid) true form) w) as Ho by done.
  clearbody o.
  unfold update, run in Ho.
  unfold mbind at 1, Handler_bind at 1, get_db at 1 in Ho.
  rewrite Hget, Hadm in Ho. cbn [andb] in Ho.
  set (ra := if truthy (uf_reason form) then _ else r0) in Ho.
  assert (Reservation.id ra = Reservation.id r0
          ∧ Reservation.device_id ra = Reservation.device_id r0
          ∧ Reservation.start_time ra = Reservation.start_time r0
          ∧ Reservation.end_time ra = Reservation.end_time r0) as Hra.
  { subst ra. by destruct (truthy (uf_reason form)). }
  clearbody ra.
  unfold mbind at 1, Handler_bind at 1 in Ho.
  set (r1step := if truthy (uf_username form) then _ else _) in Ho.
  assert ((∃ o1, r1step w = Stop o1 ∧ store_kept w o1
                 ∧ ∀ w', o1 ≠ Responded (Redirect "reservation.home") w')
          ∨ ∃ r1, r1step w = Cont r1 w
                  ∧ Reservation.id r1 = Reservation.id r0
                  ∧ Reservation.device_id r1 = Reservation.device_id r0
                  ∧ Reservation.start_time r1 = Reservation.start_time r0
                  ∧ Reservation.end_time r1 = Reservation.end_time r0) as Hr1.
  { subst r1step. destruct (truthy (uf_username form)).
    - destruct (check_if_user_exists_from_username _ _); simpl.
      + right. eexists. split; [reflexivity |]. by destruct ra.
      + left. eexists. split; [reflexivity |]. by unfold store_kept.
    - right. by exists ra. }
  clearbody r1step.
  destruct Hr1 as [(o1 & E1 & Hk & Hn) | (r1 & E1 & Hr1)]; rewrite E1 in Ho;
    cbv beta iota in Ho; [subst o; by left |].
  unfold mbind at 1, Handler_bind at 1 in Ho.
  pose proof (update_times_cases env form r1 w) as Ht.
  destruct (update_times env form r1 w) as [[[r2 s] e] w1 | o1] eqn:Etimes;
    cbv beta iota in Ho; [| subst o; by left].
  destruct Ht as (-> & Hr2 & Hvalid & _).
  unfold mbind at 1, Handler_bind at 1 in Ho.
  destruct (truthy (uf_device_name form)) eqn:Hname.
  - unfold mbind at 1, Handler_bind at 1 in Ho.
    destruct (resolver_cases (replace_reservation r2 (db w))
                (uf_device_name form) s e w)
      as [E | [E | (device & E & Hin & Hnm & Hav)]]; rewrite E in Ho;
      cbv beta iota in Ho;
      [subst o; left; by unfold store_kept
      | subst o; left; by unfold store_kept |].
    cbn [id_truthy] in Ho. destruct (Device.id device =? 0) eqn:Hz;
      [subst o; left; by unfold store_kept |].
    cbn [negb] in Ho. unfold mret at 1, Handler_ret at 1 in Ho.
    unfold mbind at 1, Handler_bind at 1 in Ho. cbn [id_key] in Ho.
    rewrite Hz in Ho.
    assert (check_if_device_exists_from_device_id (db w) (Device.id device) = true)
      as Hex.
    { unfold check_if_device_exists_from_device_id, device_get.
      unfold replace_reservation in Hin. simpl in Hin.
      destruct (device_first_some (db w) device Hin) as [x Hx].
      unfold device_first in Hx. by rewrite Hx. }
    rewrite Hex in Ho. cbn [negb] in Ho.
    set (r3 := Reservation.set_device_name (uf_device_name form) r2) in *.
    assert (check_if_device_is_available (replace_reservation r3 (db w))
              (Device.id device) s e = true) as Hav3.
    { rewrite check_if_device_is_available_true in Hav |- *.
      intros r Hr Hdev. unfold replace_reservation in Hr, Hav. simpl in Hr, Hav.
      apply list_elem_of_In, in_map_iff in Hr as (x & Hx & Hxin).
      change (Reservation.id r3) with (Reservation.id r2) in Hx.
      destruct (decide (Reservation.id x = Reservation.id r2)) as [E' | E'].
      - subst r. apply (Hav r2).
        + apply list_elem_of_In, in_map_iff. exists x.
          rewrite decide_True by done. done.
        + done.
      - subst r. apply (Hav x); [| done].
        apply list_elem_of_In, in_map_iff. exists x.
        rewrite decide_False by done. done. }
    rewrite Hav3 in Ho. unfold mret at 1, Handler_ret at 1 in Ho.
    unfold table_update_item, mbind, Handler_bind in Ho.
    destruct (commit_fault env) as [err |] eqn:Hc.
    + rewrite (commit_or_rollback_fault _ _ _ _ _ err Hc) in Ho. subst o. left.
      by unfold store_kept.
    + rewrite (commit_or_rollback_ok _ _ _ _ _ Hc) in Ho. subst o. right.
      exists r1, r2, s, e, (Reservation.set_device_id (Device.id device) r3).
      destruct Hr1 as (? & ? & ? & ?). subst r2 r3.
      split_and!; try done.
      right. eexists. split_and!; [| | | | | exact Hex | exact Hav3]; done.
  - unfold mret at 1, Handler_ret at 1 in Ho.
    unfold mbind at 1, Handler_bind at 1 in Ho.
    destruct (uf_device_id form) as [z |] eqn:Hid; cbn [form_id id_key] in Ho.
    + destruct (check_if_device_exists_from_device_id (db w) z) eqn:Hex;
        [| subst o; left; by unfold store_kept].
      cbn [negb] in Ho.
      destruct (check_if_device_is_available (replace_reservation r2 (db w)) z s e)
        eqn:Hav; [| subst o; left; by unfold store_kept].
      unfold mret at 1, Handler_ret at 1 in Ho.
      unfold table_update_item, mbind, Handler_bind in Ho.
      destruct (commit_fault env) as [err |] eqn:Hc.
      * rewrite (commit_or_rollback_fault _ _ _ _ _ err Hc) in Ho. subst o. left.
        by unfold store_kept.
      * rewrite (commit_or_rollback_ok _ _ _ _ _ Hc) in Ho. subst o. right.
        exists r1, r2, s, e, (Reservation.set_device_id z r2).
        destruct Hr1 as (? & ? & ? & ?). subst r2.
        split_and!; try done.
        right. eexists. split_and!; [| | | | | exact Hex | exact Hav]; done.
    + unfold mret at 1, Handler_ret at 1 in Ho.
      unfold table_update_item, mbind, Handler_bind in Ho.
      destruct (commit_fault env) as [err |] eqn:Hc.
      * rewrite (commit_or_rollback_fault _ _ _ _ _ err Hc) in Ho. subst o. left.
        by unfold store_kept.
      * rewrite (commit_or_rollback_ok _ _ _ _ _ Hc) in Ho. subst o. right.
        exists r1, r2, s, e, r2.
        destruct Hr1 as (? & ? & ? & ?). subst r2.
        split_and!; try done. by left.
Qed.

Lemma reservation_get_replace d k r0 r' :
  reservation_get d k = Some r0 → Reservation.id r' = Some k →
  reservation_get (replace_reservation r' d) k = Some r'.
Proof.
  unfold reservation_get, replace_reservation. simpl. intros Hget Hid.
  rewrite Hid.
  induction (reservations d) as [| x l IH]; [done |].
  rewrite filter_cons in Hget. simpl. rewrite filter_cons.
  destruct (decide (Reservation.id x = Some k)) as [E | E].
  - by rewrite decide_True.
  - rewrite decide_False by done. by apply IH.
Qed.

Lemma add_flash_message_inj m1 c1 w1 m2 c2 w2 :
  add_flash m1 c1 w1 = add_flash m2 c2 w2 → m1 = m2.
Proof.
  intros E. apply (f_equal (λ w, message <$> last (flashes w))) in E.
  unfold add_flash, flashes in E. rewrite !last_snoc in E.
  unfold fmap, option_fmap, option_map, message in E. by apply (inj Some) in E.
Qed.

(** Requests that never reach the body of [update]. *)
Lemma update_outside env rid is_post form w :
  match rid with
  | None => True
  | Some k => reservation_get (db w) k = None
              ∨ is_post && User.administrator (current_user env) = false
  end →
  store_kept w (run (update env rid is_post form) w)
  ∧ ∀ w', run (update env rid is_post form) w
          ≠ Responded (Redirect "reservation.home")
              (add_flash "Reservation updated successfully!" "success" w').
Proof.
  intros Hrid.
  remember (run (update env rid is_post form) w) as o eqn:Ho.
  unfold update, run in Ho. unfold store_kept.
  destruct rid as [k |].
  - unfold mbind at 1, Handler_bind at 1, get_db at 1 in Ho.
    destruct (reservation_get (db w) k) as [r0 |] eqn:Hget.
    + destruct Hrid as [? | Hpa]; [done |]. rewrite Hpa in Ho. subst o.
      split; [done |]. by intros w'.
    + subst o. split; [done |]. intros w' E.
      apply (f_equal world_of) in E. cbn [world_of] in E.
      by apply add_flash_message_inj in E.
  - subst o. split; [done |]. intros w' E.
    apply (f_equal world_of) in E. cbn [world_of] in E.
    by apply add_flash_message_inj in E.
Qed.

(** Whatever is submitted and by whom, [update] leaves jobs, devices and
    users as they were, and either leaves the reservations as they were too
    or replaces the rows bearing the requested key by one object with that
    key. *)
Lemma update_outcome_cases (env : Env) (rid : option Z) (is_post : bool)
    (form : UpdateForm) (w : World) :
  let o := run (update env rid is_post form) w in
  jobs (world_of o) = jobs w
  ∧ devices (db (world_of o)) = devices (db w)
  ∧ users (db (world_of o)) = users (db w)
  ∧ (reservations (db (world_of o)) = reservations (db w)
     ∨ ∃ k r0 r',
         rid = Some k ∧ reservation_get (db w) k = Some r0
         ∧ is_post = true ∧ User.administrator (current_user env) = true
         ∧ commit_fault env = None
         ∧ Reservation.id r' = Some k
         ∧ reservations (db (world_of o))
           = map (λ r, if decide (Reservation.id r = Some k) then r' else r)
                 (reservations (db w))
         ∧ o = Responded (Redirect "reservation.home")
                 (add_flash "Reservation updated successfully!" "success"
                    (mkWorld (replace_reservation r' (db w)) (jobs w) (flashes w)))).
Proof.
  intros o.
  assert (store_kept w o →
          jobs (world_of o) = jobs w
          ∧ devices (db (world_of o)) = devices (db w)
          ∧ users (db (world_of o)) = users (db w)
          ∧ (reservations (db (world_of o)) = reservations (db w)
             ∨ ∃ k r0 r',
                 rid = Some k ∧ reservation_get (db w) k = Some r0
                 ∧ is_post = true ∧ User.administrator (current_user env) = true
                 ∧ commit_fault env = None
                 ∧ Reservation.id r' = Some k
                 ∧ reservations (db (world_of o))
                   = map (λ r, if decide (Reservation.id r = Some k) then r' else r)
                         (reservations (db w))
                 ∧ o = Responded (Redirect "reservation.home")
                         (add_flash "Reservation updated successfully!" "success"
                            (mkWorld (replace_reservation r' (db w)) (jobs w)
                               (flashes w))))) as Hkept.
  { intros [Hdb Hjobs]. rewrite Hdb. split_and!; try done. by left. }
  destruct rid as [k |]; [| apply Hkept, update_outside; done].
  destruct (reservation_get (db w) k) as [r0 |] eqn:Hget;
    [| apply Hkept, update_outside; by left].
  destruct (is_post && User.administrator (current_user env)) eqn:Hpa;
    [| apply Hkept, update_outside; by right].
  apply andb_true_iff in Hpa as [-> Hadm].
  destruct (update_inv env k form w r0 Hget Hadm)
    as [[Hk _] | (r1 & r2 & s & e & r' & _ & _ & _ & _ & _ & Hid & _ & _ & _ & Hc & Ho)];
    [by apply Hkept |].
  pose proof (reservation_get_id _ _ _ Hget) as [Hid0 _].
  fold o in Ho. rewrite Ho. simpl. split_and!; try done.
  right. exists k, r0, r'. split_and!; try done; [congruence |].
  apply map_ext. intros x. rewrite Hid, Hid0. done.
Qed.

(** X1. Whatever is submitted and by whom, [update] leaves the scheduler's
    jobs, the devices and the users as they were (so a changed start time
    never reschedules the notification), keeps the keys of the reservations
    in place, and leaves every reservation with another key than the
    requested one as it was. The reservations change only through an
    administrator's POST that the store accepts, which is answered with the
    success message. *)
Theorem update_frame (env : Env) (rid : option Z) (is_post : bool)
    (form : UpdateForm) (w : World) :
  let o := run (update env rid is_post form) w in
  jobs (world_of o) = jobs w
  ∧ devices (db (world_of o)) = devices (db w)
  ∧ users (db (world_of o)) = users (db w)
  ∧ map Reservation.id (reservations (db (world_of o)))
    = map Reservation.id (reservations (db w))
  ∧ Forall2 (λ r r', r' = r ∨ (is_Some rid ∧ Reservation.id r = rid))
      (reservations (db w)) (reservations (db (world_of o)))
  ∧ (reservations (db (world_of o)) = reservations (db w)
     ∨ (is_post = true ∧ User.administrator (current_user env) = true
        ∧ commit_fault env = None
        ∧ ∃ w', o = Responded (Redirect "reservation.home")
                      (add_flash "Reservation updated successfully!" "success" w'))).
Proof.
  intros o.
  destruct (update_outcome_cases env rid is_post form w)
    as (Hjobs & Hdev & Husers
        & [Hsame | (k & r0 & r' & -> & _ & -> & Hadm & Hc & Hid & Hrows & Ho)]);
    fold o in Hjobs, Hdev, Husers.
  - fold o in Hsame. rewrite Hsame. split_and!; try done; [| by left].
    apply Forall2_same_length_lookup. split; [done |].
    intros i x y Hx Hy. left. congruence.
  - fold o in Hrows, Ho. rewrite Hrows. split_and!; try done.
    + rewrite map_map. apply map_ext. intros x. case_decide; congruence.
    + clear. induction (reservations (db w)) as [| x l IH]; [constructor |].
      simpl. constructor; [| exact IH].
      case_decide; [right; split; [by eexists | done] | by left].
    + right. split_and!; try done. by eexists.
Qed.

(** X2. When an administrator's update that submits a start or an end time
    is stored, the stored row holds a validated interval: it starts no
    earlier than the request's clock and strictly before it ends; a time
    that was left blank keeps its stored value. *)
Theorem update_stores_validated_times (env : Env) (k : Z) (form : UpdateForm)
    (w : World) (r0 : Reservation.t) :
  reservation_get (db w) k = Some r0 →
  time_truthy (uf_start_time form) || time_truthy (uf_end_time form) = true →
  let o := run (update env (Some k) true form) w in
  db (world_of o) ≠ db w →
  ∃ r', reservation_get (db (world_of o)) k = Some r'
        ∧ now env <= Reservation.start_time r'
        ∧ Reservation.start_time r' < Reservation.end_time r'
        ∧ (uf_start_time form = TBlank →
           Reservation.start_time r' = Reservation.start_time r0)
        ∧ (uf_end_time form = TBlank →
           Reservation.end_time r' = Reservation.end_time r0).
Proof.
  intros Hget Hsub o Hchanged.
  destruct (User.administrator (current_user env)) eqn:Hadm.
  - destruct (update_inv env k form w r0 Hget Hadm)
      as [[[Hk _] _] | (r1 & r2 & s & e & r' & _ & _ & Hs1 & He1 & Ht & Hid
                        & Hs & He & _ & _ & Ho)]; [done |].
    fold o in Ho. pose proof (update_times_cases env form r1 w) as Hcases.
    rewrite Ht in Hcases. destruct Hcases as (_ & _ & Hvalid & Hbs & Hbe).
    destruct (Hvalid Hsub) as [Hnow Hlt].
    pose proof (reservation_get_id _ _ _ Hget) as [Hid0 _].
    exists r'. rewrite Ho. simpl. split_and!.
    + apply (reservation_get_replace _ _ r0); [done | congruence].
    + lia.
    + lia.
    + intros Hb. rewrite Hs, (Hbs Hb). done.
    + intros Hb. rewrite He, (Hbe Hb). done.
  - destruct (update_outside env (Some k) true form w) as [[Hk _] _];
      [right; by rewrite Hadm | done].
Qed.

(** The administrator moves Bob's reservation to 14:00 to 15:00. *)
Lemma update_stores_validated_times_witness :
  let r := Reservation.mk (Some 1) 1 "Laptop-A" "bob" (clock 12 0) (clock 13 0) "work" in
  let w := mkWorld (mkDB [laptop] [r] [bob; root]) ∅ [] in
  let env := env_of root (clock 9 0) in
  let form := mkUpdateForm None "" "" (TStamp (clock 14 0)) (TStamp (clock 15 0)) "" in
  let o := run (update env (Some 1) true form) w in
  ∃ r', reservation_get (db (world_of o)) 1 = Some r'
        ∧ now env <= Reservation.start_time r'
        ∧ Reservation.start_time r' < Reservation.end_time r'
        ∧ (uf_start_time form = TBlank →
           Reservation.start_time r' = Reservation.start_time r)
        ∧ (uf_end_time form = TBlank →
           Reservation.end_time r' = Reservation.end_time r).
Proof.
  apply (update_stores_validated_times (env_of root (clock 9 0)) 1
           (mkUpdateForm None "" "" (TStamp (clock 14 0)) (TStamp (clock 15 0)) "")
           _ (Reservation.mk (Some 1) 1 "Laptop-A" "bob" (clock 12 0) (clock 13 0) "work")).
  - reflexivity.
  - reflexivity.
  - vm_compute. intros H. discriminate H.
Defined.

Lemma ForallOrdPairs_map_distinct {A K} (key : A → K) (R R' : A → A → Prop)
    (f : A → A) (l : list A) :
  NoDup (map key l) → ForallOrdPairs R l →
  (∀ a b, a ∈ l → b ∈ l → key a ≠ key b → R a b → R' (f a) (f b)) →
  ForallOrdPairs R' (map f l).
Proof.
  induction l as [| a l IH]; intros Hnd Hfop Hstep; simpl; [constructor |].
  simpl in Hnd. apply NoDup_cons in Hnd as [Ha Hnd].
  inversion Hfop as [| ? ? Hal Hl]; subst.
  constructor.
  - apply List.Forall_forall. intros y Hy. apply in_map_iff in Hy as (b & <- & Hb).
    apply Hstep.
    + left.
    + right. by apply list_elem_of_In.
    + intros E. apply Ha. rewrite E. by apply list_elem_of_In, in_map.
    + rewrite List.Forall_forall in Hal. by apply Hal.
  - apply IH; [done | done |].
    intros x y Hx Hy. apply Hstep; by right.
Qed.

Lemma apart_sym a b : apart a b → apart b a.
Proof. unfold apart. tauto. Qed.

(** X3. An update that submits a device, by identifier or by name, keeps the
    no-overlap invariant: in a table with distinct keys and no overlap, the
    stored result has no overlap either, whoever asks and whatever else is
    submitted. (Only the update that submits no device can break it.) *)
Theorem update_with_device_keeps_no_overlap (env : Env) (rid : option Z)
    (is_post : bool) (form : UpdateForm) (w : World) :
  NoDup (map Reservation.id (reservations (db w))) →
  no_overlap (db w) →
  truthy (uf_device_name form) = true ∨ is_Some (uf_device_id form) →
  no_overlap (db (world_of (run (update env rid is_post form) w))).
Proof.
  intros Hnd Hinv Hdev.
  destruct (update_outcome_cases env rid is_post form w)
    as (_ & _ & _ & [Hsame | (k & r0 & r' & -> & Hget & -> & Hadm & _ & _ & _ & _)]).
  { unfold no_overlap. by rewrite Hsame. }
  destruct (update_inv env k form w r0 Hget Hadm)
    as [[[Hk _] _] | (r1 & r2 & s & e & r'' & _ & _ & _ & _ & _ & Hid
                      & Hs & He & Hpath & _ & Ho)].
  { unfold no_overlap. by rewrite Hk. }
  rewrite Ho. unfold no_overlap. simpl.
  destruct Hpath as [(Hn & Hi & _) | (r3 & Hid3 & _ & _ & _ & _ & _ & Hav)].
  { destruct Hdev as [? | [? ?]]; congruence. }
  rewrite check_if_device_is_available_true in Hav.
  assert (∀ b, b ∈ reservations (db w) →
               Reservation.id b ≠ Reservation.id r'' →
               Reservation.device_id b = Reservation.device_id r'' →
               apart r'' b) as Hclear.
  { intros b Hb Hne Hsame.
    assert (clear_of s e b) as Hc.
    { apply Hav; [| done]. unfold replace_reservation. simpl.
      apply list_elem_of_In, in_map_iff. exists b.
      split; [| by apply list_elem_of_In].
      rewrite decide_False; [done | congruence]. }
    unfold clear_of in Hc. unfold apart. lia. }
  eapply (ForallOrdPairs_map_distinct Reservation.id); [done | exact Hinv |].
  intros a b Ha Hb Hne Hab. simpl.
  destruct (decide (Reservation.id a = Reservation.id r'')) as [Ea | Ea];
    destruct (decide (Reservation.id b = Reservation.id r'')) as [Eb | Eb].
  - congruence.
  - intros Hsame. by apply Hclear.
  - intros Hsame. by apply apart_sym, Hclear.
  - done.
Qed.

(** The administrator moves Bob's reservation from the first laptop to the
    second, which Alice holds at another time. *)
Lemma update_with_device_keeps_no_overlap_witness :
  let w := mkWorld
             (mkDB [laptop; laptop2]
                [Reservation.mk (Some 1) 2 "Laptop-A" "alice" (clock 10 0) (clock 11 0) "work";
                 Reservation.mk (Some 2) 1 "Laptop-A" "bob" (clock 12 0) (clock 13 0) "work"]
                [alice; bob; root]) ∅ [] in
  no_overlap
    (db (world_of (run (update (env_of root (clock 9 0)) (Some 2) true
                          (mkUpdateForm (Some 2) "" "" TBlank TBlank "")) w))).
Proof.
  apply (update_with_device_keeps_no_overlap (env_of root (clock 9 0)) (Some 2) true
           (mkUpdateForm (Some 2) "" "" TBlank TBlank "")).
  - apply (bool_decide_unpack _). reflexivity.
  - unfold no_overlap. simpl. repeat constructor.
  - right. by eexists.
Defined.

Lemma time_truthy_false f : time_truthy f = false → f = TBlank.
Proof. by destruct f. Qed.

(** X4. An update that submits a device never stores the reservation on the
    device it is already on: the availability check runs against tables in
    which the reservation itself still occupies that device, so the
    reservation is in its own way. For a stored row with [start <= end], the
    request either changes nothing or moves the row to another device. *)
Theorem update_refuses_current_device (env : Env) (k : Z) (is_post : bool)
    (form : UpdateForm) (w : World) (r0 : Reservation.t) :
  reservation_get (db w) k = Some r0 →
  Reservation.start_time r0 <= Reservation.end_time r0 →
  truthy (uf_device_name form) = true ∨ is_Some (uf_device_id form) →
  let o := run (update env (Some k) is_post form) w in
  db (world_of o) = db w
  ∨ ∃ r', reservation_get (db (world_of o)) k = Some r'
          ∧ Reservation.device_id r' ≠ Reservation.device_id r0.
Proof.
  intros Hget Hproper Hdev o.
  destruct (is_post && User.administrator (current_user env)) eqn:Hpa.
  2: { left. by destruct (update_outside env (Some k) is_post form w) as [[? _] _];
         [right |]. }
  apply andb_true_iff in Hpa as [-> Hadm]. subst o.
  destruct (update_inv env k form w r0 Hget Hadm)
    as [[[Hk _] _] | (r1 & r2 & s & e & r' & _ & _ & Hs1 & He1 & Ht & Hid
                      & Hs & He & Hpath & _ & Ho)]; [by left |].
  right. exists r'. rewrite Ho. simpl.
  pose proof (reservation_get_id _ _ _ Hget) as [Hid0 Hin0].
  split; [apply (reservation_get_replace _ _ r0); [done | congruence] |].
  destruct Hpath as [(Hn & Hi & _) | (r3 & Hid3 & Hd3 & Hs3 & He3 & _ & _ & Hav)].
  { destruct Hdev as [? | [? ?]]; congruence. }
  intros Esame.
  rewrite check_if_device_is_available_true in Hav.
  assert (clear_of s e r3) as Hc.
  { apply Hav; [| congruence]. unfold replace_reservation. simpl.
    apply list_elem_of_In, in_map_iff. exists r0.
    split; [| by apply list_elem_of_In].
    rewrite decide_True; [done | congruence]. }
  pose proof (update_times_cases env form r1 w) as Hcases.
  rewrite Ht in Hcases. destruct Hcases as (_ & _ & Hvalid & Hbs & Hbe).
  unfold clear_of in Hc. rewrite Hs3, He3 in Hc.
  destruct (time_truthy (uf_start_time form) || time_truthy (uf_end_time form))
    eqn:Hsub.
  - destruct (Hvalid eq_refl). lia.
  - apply orb_false_iff in Hsub as [Hb1%time_truthy_false Hb2%time_truthy_false].
    rewrite (Hbs Hb1), (Hbe Hb2) in Hc. lia.
Qed.

(** The administrator submits for Bob's reservation the laptop it is on. *)
Lemma update_refuses_current_device_witness :
  let r := Reservation.mk (Some 1) 1 "Laptop-A" "bob" (clock 12 0) (clock 13 0) "work" in
  let w := mkWorld (mkDB [laptop] [r] [bob; root]) ∅ [] in
  let o := run (update (env_of root (clock 9 0)) (Some 1) true
                  (mkUpdateForm (Some 1) "" "" TBlank TBlank "")) w in
  db (world_of o) = db w
  ∨ ∃ r', reservation_get (db (world_of o)) 1 = Some r'
          ∧ Reservation.device_id r' ≠ Reservation.device_id r.
Proof.
  apply (update_refuses_current_device (env_of root (clock 9 0)) 1 true
           (mkUpdateForm (Some 1) "" "" TBlank TBlank "") _
           (Reservation.mk (Some 1) 1 "Laptop-A" "bob" (clock 12 0) (clock 13 0) "work")).
  - reflexivity.
  - vm_compute. intros H. discriminate H.
  - right. by eexists.
Defined.

(** ** Scheduling notifications *)

Lemma schedule_ok env reservation w :
  add_job_fault env = false →
  schedule_reservation_notification env reservation w
  = Cont () (mkWorld (db w)
               (<[job_id_of reservation := job_of env reservation]> (jobs w))
               (flashes w)).
Proof.
  intros Hf. unfold schedule_reservation_notification, add_job. by rewrite Hf.
Qed.

(** X5. Scheduling the notifications of two stored reservations with
    different keys, whose start times leave room for the notification inside
    the range of [datetime], one after the other, keeps both jobs, each set
    to fire 30 minutes before its reservation starts and addressed to the
    user logged in when it was scheduled; scheduling again for the first
    reservation afterwards replaces its job and adds none. *)
Theorem schedule_by_stored_key (env1 env2 : Env) (r1 r2 : Reservation.t)
    (i j : Z) (w : World) :
  Reservation.id r1 = Some i → Reservation.id r2 = Some j → i ≠ j →
  schedulable_start (Reservation.start_time r1) →
  schedulable_start (Reservation.start_time r2) →
  add_job_fault env1 = false → add_job_fault env2 = false →
  ∃ w1 w2 w3,
    schedule_reservation_notification env1 r1 w = Cont () w1
    ∧ schedule_reservation_notification env2 r2 w1 = Cont () w2
    ∧ schedule_reservation_notification env2 r1 w2 = Cont () w3
    ∧ jobs w2 !! job_id_of r1
      = Some (mkJob (Reservation.start_time r1 - minutes 30)
                (User.email_address (current_user env1)) r1)
    ∧ jobs w2 !! job_id_of r2
      = Some (mkJob (Reservation.start_time r2 - minutes 30)
                (User.email_address (current_user env2)) r2)
    ∧ jobs w3 !! job_id_of r1
      = Some (mkJob (Reservation.start_time r1 - minutes 30)
                (User.email_address (current_user env2)) r1)
    ∧ datetime_min <= Reservation.start_time r1 - minutes 30 <= datetime_max
    ∧ datetime_min <= Reservation.start_time r2 - minutes 30 <= datetime_max
    ∧ dom (jobs w3) = dom (jobs w2)
    ∧ db w3 = db w ∧ flashes w3 = flashes w.
Proof.
  intros Hi Hj Hne Hs1 Hs2 Hf1 Hf2.
  assert (job_id_of r1 ≠ job_id_of r2) as Hkeys.
  { intros E. by apply (job_id_of_saved_inj r1 r2 i j) in E. }
  do 3 eexists. rewrite !schedule_ok by done.
  do 3 (split; [reflexivity |]). cbn [jobs db flashes]. unfold job_of.
  split_and!; try reflexivity.
  - rewrite lookup_insert_ne by done. by rewrite lookup_insert_eq.
  - by rewrite lookup_insert_eq.
  - by rewrite lookup_insert_eq.
  - unfold schedulable_start, minutes in *. lia.
  - unfold schedulable_start, minutes, datetime_max in *. lia.
  - unfold schedulable_start, minutes in *. lia.
  - unfold schedulable_start, minutes, datetime_max in *. lia.
  - rewrite !dom_insert_L.
    apply set_eq. intros x. rewrite !elem_of_union. tauto.
Qed.

Lemma schedule_by_stored_key_witness :
  let r1 := Reservation.mk (Some 1) 1 "Laptop-A" "alice" (clock 10 0) (clock 11 0) "work" in
  let r2 := Reservation.mk (Some 2) 1 "Laptop-A" "bob" (clock 12 0) (clock 13 0) "work" in
  let env1 := env_of alice (clock 9 0) in
  let env2 := env_of bob (clock 9 0) in
  ∃ w1 w2 w3,
    schedule_reservation_notification env1 r1 world0 = Cont () w1
    ∧ schedule_reservation_notification env2 r2 w1 = Cont () w2
    ∧ schedule_reservation_notification env2 r1 w2 = Cont () w3
    ∧ jobs w2 !! job_id_of r1
      = Some (mkJob (Reservation.start_time r1 - minutes 30)
                (User.email_address (current_user env1)) r1)
    ∧ jobs w2 !! job_id_of r2
      = Some (mkJob (Reservation.start_time r2 - minutes 30)
                (User.email_address (current_user env2)) r2)
    ∧ jobs w3 !! job_id_of r1
      = Some (mkJob (Reservation.start_time r1 - minutes 30)
                (User.email_address (current_user env2)) r1)
    ∧ datetime_min <= Reservation.start_time r1 - minutes 30 <= datetime_max
    ∧ datetime_min <= Reservation.start_time r2 - minutes 30 <= datetime_max
    ∧ dom (jobs w3) = dom (jobs w2)
    ∧ db w3 = db world0 ∧ flashes w3 = flashes world0.
Proof.
  apply (schedule_by_stored_key (env_of alice (clock 9 0)) (env_of bob (clock 9 0))
           _ _ 1 2 world0); try reflexivity.
  - intros H. discriminate H.
  - split; vm_compute; intros H; discriminate H.
  - split; vm_compute; intros H; discriminate H.
Defined.

(** ** Creating reservations: what is stored *)

(** X6. Whatever is submitted, [create] leaves devices and users as they
    were and adds at most one reservation. A row that is added carries a key,
    belongs to the logged-in user (the form has no say in it), holds the
    submitted times and reason, lies on an existing device whose current name
    it copies, and that device passed the availability check for a proper
    interval that does not start before the request's clock. *)
Theorem create_row_facts (env : Env) (form : CreateForm) (w : World) :
  let o := run (create env form) w in
  devices (db (world_of o)) = devices (db w)
  ∧ users (db (world_of o)) = users (db w)
  ∧ (reservations (db (world_of o)) = reservations (db w)
     ∨ ∃ row device,
         reservations (db (world_of o)) = reservations (db w) ++ [row]
         ∧ is_Some (Reservation.id row)
         ∧ Reservation.username row = User.username (current_user env)
         ∧ cf_start_time form = TStamp (Reservation.start_time row)
         ∧ cf_end_time form = TStamp (Reservation.end_time row)
         ∧ Reservation.reason row = cf_reason form
         ∧ device_first (db w) (Reservation.device_id row) = Some device
         ∧ Reservation.device_name row = Device.device_name device
         ∧ now env <= Reservation.start_time row
         ∧ Reservation.start_time row < Reservation.end_time row
         ∧ check_if_device_is_available (db w) (Reservation.device_id row)
             (Reservation.start_time row) (Reservation.end_time row) = true
         ∧ add_job_fault env = false ∧ commit_fault env = None).
Proof.
  intros o. subst o.
  pose proof (create_checks_db env form w) as Hdb.
  destruct (create_checks env form w) as [[[device_id s] e] w1 | o] eqn:Hchecks.
  - subst w1.
    pose proof (create_checks_sound _ _ _ _ _ _ _ Hchecks)
      as (_ & Hst & Hen & Hnow & Hlt & Hav & [device Hdev]).
    rewrite (create_after_checks _ _ _ _ _ _ _ Hchecks Hdev).
    destruct (add_job_fault env); [split_and!; try done; by left |].
    destruct (commit_fault env); [split_and!; try done; by left |].
    simpl. split_and!; try done. right.
    eexists. exists device. split; [reflexivity |]. simpl.
    split_and!; done.
  - assert (run (create env form) w = o) as ->.
    { unfold run, create. unfold mbind at 1, Handler_bind at 1.
      by rewrite Hchecks. }
    rewrite Hdb. split_and!; try done; by left.
Qed.

(** X7. Any sequence of create requests keeps the no-overlap invariant. *)
Theorem creates_keep_no_overlap (requests : list (Env * CreateForm)) (w : World) :
  no_overlap (db w) →
  no_overlap (db (foldl (λ w q, handle (CreateReq q.1 q.2) w) w requests)).
Proof.
  revert w. induction requests as [| [env form] requests IH]; intros w Hinv;
    [done |].
  simpl. apply IH. by apply create_preserves_no_overlap.
Qed.

(** Alice books 10:00 to 11:00, Bob asks for 10:30 to 11:30 and is refused,
    then books 12:00 to 13:00. *)
Lemma creates_keep_no_overlap_witness :
  no_overlap
    (db (foldl (λ w q, handle (CreateReq q.1 q.2) w) world0
           [(env_of alice (clock 9 0), book 1 (clock 10 0) (clock 11 0));
            (env_of bob (clock 9 0), book 1 (clock 10 30) (clock 11 30));
            (env_of bob (clock 9 0), book 1 (clock 12 0) (clock 13 0))])).
Proof.
  apply (creates_keep_no_overlap
           [(env_of alice (clock 9 0), book 1 (clock 10 0) (clock 11 0));
            (env_of bob (clock 9 0), book 1 (clock 10 30) (clock 11 30));
            (env_of bob (clock 9 0), book 1 (clock 12 0) (clock 13 0))] world0).
  unfold no_overlap. simpl. constructor.
Defined.

(** X8. When the store refuses the commit of a create request that passed
    the checks, no reservation is stored and the error is flashed, yet the
    notification job scheduled just before stays in the scheduler, for a
    reservation that does not exist. *)
Theorem create_commit_fault_leaves_job (env : Env) (form : CreateForm) (w : World)
    (device_id start_time end_time : Z) (err : string) :
  create_checks env form w = Cont (device_id, start_time, end_time) w →
  add_job_fault env = false → commit_fault env = Some err →
  ∃ device,
    device_first (db w) device_id = Some device
    ∧ run (create env form) w
      = Responded (Redirect "reservation.create")
          (add_flash ("Error creating reservation:" +:+ "  " +:+ err) "error"
             (mkWorld (db w)
                (<["notify_user_None" :=
                     job_of env (new_reservation_of env form device device_id
                                   start_time end_time)]> (jobs w))
                (flashes w))).
Proof.
  intros Hchecks Hf Hc.
  pose proof (create_checks_sound _ _ _ _ _ _ _ Hchecks)
    as (_ & _ & _ & _ & _ & _ & [device Hdev]).
  exists device. split; [done |].
  rewrite (create_after_checks _ _ _ _ _ _ _ Hchecks Hdev), Hf, Hc. done.
Qed.

Lemma create_commit_fault_leaves_job_witness :
  let env := mkEnv (clock 9 0) alice false (Some "database is locked") in
  let form := book 1 (clock 10 0) (clock 11 0) in
  ∃ device,
    device_first (db world0) 1 = Some device
    ∧ run (create env form) world0
      = Responded (Redirect "reservation.create")
          (add_flash ("Error creating reservation:" +:+ "  " +:+ "database is locked")
             "error"
             (mkWorld (db world0)
                (<["notify_user_None" :=
                     job_of env (new_reservation_of env form device 1
                                   (clock 10 0) (clock 11 0))]> (jobs world0))
                (flashes world0))).
Proof.
  apply (create_commit_fault_leaves_job
           (mkEnv (clock 9 0) alice false (Some "database is locked"))
           (book 1 (clock 10 0) (clock 11 0)) world0 1 (clock 10 0) (clock 11 0)
           "database is locked"); reflexivity.
Defined.

(** ** Deleting a reservation: the rest of the cases *)

(** X9. Whatever is asked, the delete branch of the reservation [home]
    leaves the scheduler's jobs, the devices and the users as they were (the
    notification job of a deleted reservation is not cancelled), and either
    leaves the reservations as they were or removes exactly the rows bearing
    the requested key; a missing or unknown key is answered with the
    not-found message, and a refused commit leaves the tables as they were. *)
Theorem home_delete_frame (env : Env) (rid : option Z) (w : World) :
  let o := run (home_delete env rid) w in
  jobs (world_of o) = jobs w
  ∧ devices (db (world_of o)) = devices (db w)
  ∧ users (db (world_of o)) = users (db w)
  ∧ (reservations (db (world_of o)) = reservations (db w)
     ∨ ∃ k, rid = Some k ∧ commit_fault env = None
            ∧ reservations (db (world_of o))
              = filter (λ r, Reservation.id r ≠ Some k) (reservations (db w)))
  ∧ (rid ≫= reservation_get (db w) = None →
     o = Responded (Redirect "reservation.home")
           (add_flash "Reservation not found." "error" w))
  ∧ (is_Some (commit_fault env) → db (world_of o) = db w).
Proof.
  intros o.
  assert (o = run (home_delete env rid) w) as Ho by done. clearbody o.
  unfold run, home_delete in Ho.
  unfold mbind at 1, Handler_bind at 1, get_db at 1 in Ho.
  destruct (rid ≫= reservation_get (db w)) as [r |] eqn:Hget.
  - destruct rid as [k |]; [| done]. simpl in Hget.
    pose proof (reservation_get_id _ _ _ Hget) as [Hid _].
    unfold mbind at 1, Handler_bind at 1 in Ho.
    destruct (User.administrator (current_user env) || _).
    + unfold mbind at 1, Handler_bind at 1 in Ho.
      unfold table_delete_item in Ho.
      unfold mbind at 1, Handler_bind at 1, get_db at 1 in Ho.
      destruct (commit_fault env) as [err |] eqn:Hc.
      * rewrite (commit_or_rollback_fault _ _ _ _ _ err Hc) in Ho. subst o.
        simpl. split_and!; try done. by left.
      * rewrite (commit_or_rollback_ok _ _ _ _ _ Hc) in Ho. subst o.
        simpl. split_and!; try done.
        right. exists k. by rewrite Hid.
    + subst o. simpl. split_and!; try done. by left.
  - subst o. simpl. split_and!; try done. by left.
Qed.

(** ** The availability page *)

Lemma gaps_between_bounded rs :
  Forall bounded_gap (gaps_between rs)
  ∧ (length (gaps_between rs) <= length rs - 1)%nat.
Proof.
  induction rs as [| a rs IH]; [split; [constructor | done] |].
  destruct rs as [| b rs]; [split; [constructor | done] |].
  destruct IH as [IHb IHl].
  change (gaps_between (a :: b :: rs))
    with ((if Reservation.end_time a <? Reservation.start_time b
           then [mkSlot (Reservation.end_time a) (Some (Reservation.start_time b))]
           else []) ++ gaps_between (b :: rs)).
  destruct (Reservation.end_time a <? Reservation.start_time b) eqn:E.
  - apply Z.ltb_lt in E. split.
    + constructor; [| done]. eexists. split; [reflexivity | done].
    + simpl in *. lia.
  - split; [done |]. simpl in *. lia.
Qed.

(** X10. The availability page never changes the store: without a device
    identifier, or for an unknown device, it flashes an error and redirects;
    for a known device it shows the future reservations and a gap list that
    is never empty, whose last gap is the only open-ended one and starts at
    [now] when nothing is reserved ahead, whose other gaps all have an end
    after their start, and that has at most one gap more than there are
    future reservations. *)
Theorem see_availability_page (env : Env) (device_id : option Z) (w : World) :
  let o := run (see_availability env device_id) w in
  db (world_of o) = db w ∧ jobs (world_of o) = jobs w
  ∧ match device_id ≫= device_get (db w) with
    | None =>
        ∃ msg, o = Responded (Redirect "device.home") (add_flash msg "error" w)
               ∧ msg = (if device_id is None then "Device ID not provided."
                        else "Device not found.")
    | Some _ =>
        ∃ k init final,
          device_id = Some k
          ∧ o = Responded
                  (RenderAvailability (future_reservations (db w) k (now env))
                     (init ++ [final])) w
          ∧ slot_end final = None
          ∧ Forall bounded_gap init
          ∧ (length init <= length (future_reservations (db w) k (now env)))%nat
          ∧ (future_reservations (db w) k (now env) = [] →
             init = [] ∧ slot_start final = now env)
    end.
Proof.
  intros o.
  assert (o = run (see_availability env device_id) w) as Ho by done. clearbody o.
  destruct device_id as [k |]; simpl.
  - destruct (device_get (db w) k) as [device |] eqn:Hget.
    + rewrite (see_availability_renders env k device w Hget) in Ho. subst o.
      split; [done |]. split; [done |]. exists k.
      assert (Forall (λ r, Reservation.start_time r > now env)
                (future_reservations (db w) k (now env))) as Hfut.
      { apply Forall_forall. intros r Hr.
        by apply elem_of_future_reservations in Hr as (_ & _ & ?). }
      revert Hfut. generalize (future_reservations (db w) k (now env)).
      intros rs Hfut. unfold expected_slots.
      destruct rs as [| first rest].
      * exists [], (mkSlot (now env) None). simpl. split_and!; try done.
      * pose proof (gaps_between_bounded (first :: rest)) as [Hb Hl].
        apply Forall_cons in Hfut as [Hfirst _].
        assert ((now env <? Reservation.start_time first) = true) as ->
          by (apply Z.ltb_lt; lia).
        exists ([mkSlot (now env) (Some (Reservation.start_time first))]
                ++ gaps_between (first :: rest)),
               (mkSlot (Reservation.end_time (List.last (first :: rest) first)) None).
        split_and!; try done.
        -- apply Forall_app. split; [| done]. constructor; [| constructor].
           eexists. split; [reflexivity |]. simpl. lia.
        -- rewrite length_app. simpl in *. lia.
    + unfold run, see_availability, mbind, Handler_bind, get_db in Ho.
      rewrite Hget in Ho. subst o. simpl. split_and!; try done. by eexists.
  - subst o. simpl. split_and!; try done. by eexists.
Qed.

(** ** Availability under narrowing *)

(** X11. Availability is kept when the request shrinks and when rows leave
    the table: a device that is available for an interval is available for
    every interval inside it, also in any table holding only some of the
    reservations. *)
Theorem availability_monotone (d : DB) (device_id start_time end_time : Z)
    (start_time' end_time' : Z) (kept : list Reservation.t) :
  check_if_device_is_available d device_id start_time end_time = true →
  start_time <= start_time' → end_time' <= end_time →
  kept ⊆ reservations d →
  check_if_device_is_available (mkDB (devices d) kept (users d))
    device_id start_time' end_time' = true.
Proof.
  rewrite !check_if_device_is_available_true. intros Hav Hs He Hsub r Hr Hdev.
  simpl in Hr. specialize (Hav r (Hsub r Hr) Hdev). unfold clear_of in *. lia.
Qed.

Lemma availability_monotone_witness :
  let r1 := Reservation.mk (Some 1) 1 "Laptop-A" "alice" (clock 10 0) (clock 11 0) "work" in
  let r2 := Reservation.mk (Some 2) 1 "Laptop-A" "bob" (clock 15 0) (clock 16 0) "work" in
  check_if_device_is_available (mkDB [laptop] [r2] [alice; bob]) 1
    (clock 12 30) (clock 13 0) = true.
Proof.
  intros r1 r2.
  apply (availability_monotone (mkDB [laptop] [r1; r2] [alice; bob]) 1
           (clock 12 0) (clock 14 0) (clock 12 30) (clock 13 0) [r2]).
  - reflexivity.
  - vm_compute. intros H. discriminate H.
  - vm_compute. intros H. discriminate H.
  - intros x Hx. by right.
Defined.

(** ** The home page lists *)

Lemma home_loop_body_test now r :
  (Reservation.start_time r <? now) && (now <? Reservation.end_time r) = true
  ↔ in_progress now r.
Proof. unfold in_progress. by rewrite andb_true_iff, !Z.ltb_lt. Qed.

Lemma home_loop_general now l cur up :
  (length up <= 3)%nat →
  foldl (home_loop_body now) (cur, up) l
  = (cur ++ filter (in_progress now) l,
     up ++ take (3 - length up) (filter (λ r, ¬ in_progress now r) l)).
Proof.
  revert cur up. induction l as [| r l IH]; intros cur up Hup.
  - rewrite !filter_nil, take_nil, !app_nil_r. done.
  - cbn [foldl]. unfold home_loop_body at 2. rewrite !filter_cons.
    destruct ((Reservation.start_time r <? now) && (now <? Reservation.end_time r))
      eqn:E.
    + apply home_loop_body_test in E.
      rewrite decide_True by done. rewrite decide_False by tauto.
      rewrite IH by done. by rewrite <- app_assoc.
    + assert (¬ in_progress now r) as Hn.
      { rewrite <- home_loop_body_test. congruence. }
      rewrite decide_False by done. rewrite decide_True by done.
      destruct (length up <? 3)%nat eqn:El.
      * apply Nat.ltb_lt in El. rewrite IH by (rewrite length_app; simpl; lia).
        rewrite length_app. simpl length.
        replace (3 - length up)%nat with (S (3 - (length up + 1))) by lia.
        simpl. by rewrite <- app_assoc.
      * apply Nat.ltb_ge in El. rewrite IH by done.
        replace (3 - length up)%nat with 0%nat by lia. by rewrite !take_0.
Qed.

(** X12. The home page lists, as filters of the user's reservations in
    retrieval order: [current_reservations] holds exactly those strictly in
    progress, and [upcoming_reservations] holds the first three of all the
    others, whether they lie ahead or are over already. *)
Theorem views_home_lists_spec (env : Env) (d : DB) :
  let mine := filter (λ r, Reservation.username r = User.username (current_user env))
                     (reservations d) in
  views_home_lists env d
  = (filter (in_progress (now env)) mine,
     take 3 (filter (λ r, ¬ in_progress (now env) r) mine))
  ∧ (length (snd (views_home_lists env d)) <= 3)%nat.
Proof.
  intros mine. unfold views_home_lists. fold mine.
  rewrite home_loop_general by (simpl; lia). simpl. split; [done |].
  rewrite length_take. lia.
Qed.

(** A reservation that is over is listed as upcoming. *)
Example views_home_lists_past :
  let r := Reservation.mk (Some 1) 1 "Laptop-A" "alice" (clock 7 0) (clock 8 0) "work" in
  views_home_lists (env_of alice (clock 9 0)) (mkDB [laptop] [r] [alice]) = ([], [r]).
Proof. reflexivity. Qed.

(** ** Deleting and creating devices *)

Lemma device_get_form_some d device_id k device :
  device_get_form d device_id = Some (k, device) →
  device_id = Some k ∧ device_get d k = Some device.
Proof.
  unfold device_get_form. destruct device_id as [k' |]; simpl; [| done].
  destruct (device_get d k') eqn:E; simpl; [| done].
  intros [= <- <-]. by rewrite E.
Qed.

(** X13. The device list page never changes the store. For an
    administrator's delete request it answers with the confirmation page
    exactly when the device exists and has a reservation; an existing device
    without reservations is not deleted, the request is just redirected. *)
Theorem device_home_spec (env : Env) (method : Method) (is_delete : bool)
    (device_id : option Z) (w : World) :
  let o := run (device_home env method is_delete device_id) w in
  db (world_of o) = db w ∧ jobs (world_of o) = jobs w
  ∧ (o = Responded (Render "confirm_device_delete.html") w
     ↔ method = POST ∧ is_delete = true
       ∧ User.administrator (current_user env) = true
       ∧ ∃ k device, device_id = Some k ∧ device_get (db w) k = Some device
                     ∧ reservations_for_device (db w) k ≠ [])
  ∧ (method = POST → is_delete = true →
     User.administrator (current_user env) = true →
     ∀ k device, device_id = Some k → device_get (db w) k = Some device →
       reservations_for_device (db w) k = [] →
       o = Responded (Redirect "device.home") w).
Proof.
  intros o.
  assert (o = run (device_home env method is_delete device_id) w) as Ho by done.
  clearbody o. unfold run, device_home in Ho.
  destruct method.
  { subst o. simpl. split_and!; try done. split; [done |]. by intros [? _]. }
  destruct (is_delete && User.administrator (current_user env)) eqn:Hda.
  2: { subst o. simpl. split_and!; try done.
       - split; [done |]. intros (_ & Hd & Ha & _). by rewrite Hd, Ha in Hda.
       - intros _ Hd Ha. by rewrite Hd, Ha in Hda. }
  apply andb_true_iff in Hda as [-> Hadm].
  unfold mbind at 1, Handler_bind at 1, get_db at 1 in Ho.
  destruct (device_get_form (db w) device_id) as [[k device] |] eqn:Hget.
  - apply device_get_form_some in Hget as [-> Hget].
    destruct (reservations_for_device (db w) k) as [| r l] eqn:Hres.
    + subst o. simpl. split_and!; try done.
      split; [done |]. intros (_ & _ & _ & k' & device' & [= <-] & _ & Hne).
      by rewrite Hres in Hne.
    + subst o. simpl. split_and!; try done.
      * split; [intros _ | done]. split_and!; try done.
        exists k, device. by rewrite Hres.
      * intros _ _ _ k' device' [= <-] _ Hnil. by rewrite Hres in Hnil.
  - subst o. simpl. split_and!; try done.
    + split; [done |]. intros (_ & _ & _ & k' & device' & -> & Hget' & _).
      unfold device_get_form in Hget. simpl in Hget. by rewrite Hget' in Hget.
    + intros _ _ _ k' device' -> Hget' _.
      unfold device_get_form in Hget. simpl in Hget. by rewrite Hget' in Hget.
Qed.

Lemma device_get_after_delete d k :
  device_get (mkDB (filter (λ x, Device.id x ≠ k) (devices d))
                   (reservations d) (users d)) k = None.
Proof.
  unfold device_get. simpl.
  destruct (filter _ (filter _ _)) as [| x l] eqn:E; [done |].
  assert (x ∈ x :: l) as Hx by left. rewrite <- E in Hx.
  apply list_elem_of_filter in Hx as [Hid Hx].
  by apply list_elem_of_filter in Hx as [Hne _].
Qed.

(** X14. Confirming the deletion of an existing device: when the store
    accepts the commit, the device is gone afterwards exactly when an
    administrator sent ["yes"]; in every case the reservations, users and
    jobs are left as they were, so the reservations of a deleted device stay
    behind, pointing at a device that no longer exists. *)
Theorem confirm_delete_spec (env : Env) (k : Z) (confirm : string)
    (device : Device.t) (w : World) :
  device_get (db w) k = Some device →
  let o := run (confirm_delete env (Some k) confirm) w in
  reservations (db (world_of o)) = reservations (db w)
  ∧ users (db (world_of o)) = users (db w)
  ∧ jobs (world_of o) = jobs w
  ∧ (commit_fault env = None →
     (device_get (db (world_of o)) k = None
      ↔ confirm = "yes" ∧ User.administrator (current_user env) = true))
  ∧ (devices (db (world_of o)) = devices (db w)
     ∨ devices (db (world_of o)) = filter (λ x, Device.id x ≠ k) (devices (db w)))
  ∧ ∃ w', o = Responded (Redirect "device.home") w'.
Proof.
  intros Hget o.
  assert (o = run (confirm_delete env (Some k) confirm) w) as Ho by done.
  clearbody o. unfold run, confirm_delete in Ho.
  unfold mbind at 1, Handler_bind at 1, get_db at 1 in Ho.
  unfold device_get_form in Ho. simpl in Ho. rewrite Hget in Ho. simpl in Ho.
  pose proof (device_get_id _ _ _ Hget) as [Hid _].
  unfold mbind at 1, Handler_bind at 1 in Ho.
  destruct (bool_decide (confirm = "yes")) eqn:Hyes.
  - apply bool_decide_eq_true in Hyes.
    destruct (User.administrator (current_user env)) eqn:Hadm; simpl in Ho.
    + unfold table_delete_device in Ho.
      unfold mbind at 1, Handler_bind at 1 in Ho.
      unfold mbind at 1, Handler_bind at 1, get_db at 1 in Ho.
      destruct (commit_fault env) as [err |] eqn:Hc.
      * rewrite (commit_or_rollback_fault _ _ _ _ _ err Hc) in Ho. subst o.
        simpl. split_and!; try done; [by left | by eexists].
      * rewrite (commit_or_rollback_ok _ _ _ _ _ Hc) in Ho. subst o.
        simpl. rewrite Hid. split_and!; try done.
        -- intros _. split; [done | intros _]. apply device_get_after_delete.
        -- by right.
        -- by eexists.
    + subst o. simpl. split_and!; try done; [| by left | by eexists].
      intros _. rewrite Hget. split; [done | by intros [_ ?]].
  - apply bool_decide_eq_false in Hyes. simpl in Ho.
    destruct (negb (User.administrator (current_user env))); subst o; simpl;
      (split_and!; try done; [| by left | by eexists]);
      intros _; rewrite Hget; (split; [done | by intros [? _]]).
Qed.

(** The administrator confirms the deletion of the laptop Alice has booked. *)
Lemma confirm_delete_spec_witness :
  let r := Reservation.mk (Some 1) 1 "Laptop-A" "alice" (clock 10 0) (clock 11 0) "work" in
  let w := mkWorld (mkDB [laptop; laptop2] [r] [alice; root]) ∅ [] in
  let env := env_of root (clock 9 0) in
  let o := run (confirm_delete env (Some 1) "yes") w in
  reservations (db (world_of o)) = reservations (db w)
  ∧ users (db (world_of o)) = users (db w)
  ∧ jobs (world_of o) = jobs w
  ∧ (commit_fault env = None →
     (device_get (db (world_of o)) 1 = None
      ↔ "yes" = "yes" ∧ User.administrator (current_user env) = true))
  ∧ (devices (db (world_of o)) = devices (db w)
     ∨ devices (db (world_of o)) = filter (λ x, Device.id x ≠ 1) (devices (db w)))
  ∧ ∃ w', o = Responded (Redirect "device.home") w'.
Proof.
  apply (confirm_delete_spec (env_of root (clock 9 0)) 1 "yes" laptop).
  reflexivity.
Defined.

Lemma next_device_id_fresh d x : x ∈ devices d → Device.id x < next_device_id d.
Proof.
  unfold next_device_id. induction (devices d) as [| y l IH]; intros Hx.
  - by apply not_elem_of_nil in Hx.
  - simpl. apply elem_of_cons in Hx as [-> | Hx]; [lia |].
    specialize (IH Hx). lia.
Qed.

(** X15. Creating a device. Only an administrator's POST can change the
    store, and then by adding one device row with the submitted brand, name,
    status and type and no last use. After an accepted creation the new row
    is found under its key and every device found before is still found
    under its own key; reservations, users and jobs are never touched. *)
Theorem device_create_spec (env : Env) (method : Method) (form : DeviceCreateForm)
    (w : World) :
  let o := run (device_create env method form) w in
  let row := Device.mk (next_device_id (db w)) (dc_device_brand form)
               (dc_device_name form) (dc_device_status form) (dc_device_type form)
               None in
  reservations (db (world_of o)) = reservations (db w)
  ∧ users (db (world_of o)) = users (db w)
  ∧ jobs (world_of o) = jobs w
  ∧ (devices (db (world_of o)) = devices (db w)
     ∨ devices (db (world_of o)) = devices (db w) ++ [row])
  ∧ (devices (db (world_of o)) = devices (db w) ++ [row]
     ↔ method = POST ∧ User.administrator (current_user env) = true
       ∧ commit_fault env = None)
  ∧ (devices (db (world_of o)) = devices (db w) ++ [row] →
     device_get (db (world_of o)) (Device.id row) = Some row
     ∧ ∀ k x, device_get (db w) k = Some x →
              device_get (db (world_of o)) k = Some x).
Proof.
  intros o row.
  assert (o = run (device_create env method form) w) as Ho by done.
  clearbody o. unfold run, device_create in Ho.
  assert (devices (db w) ≠ devices (db w) ++ [row]) as Hneq.
  { intros E. apply (f_equal length) in E. rewrite length_app in E.
    simpl in E. lia. }
  assert (devices (db (world_of o)) = devices (db w) ++ [row] →
          device_get (db (world_of o)) (Device.id row) = Some row
          ∧ ∀ k x, device_get (db w) k = Some x →
                   device_get (db (world_of o)) k = Some x) as Hround.
  { intros E. unfold device_get. rewrite E. split.
    - rewrite filter_app.
      assert (filter (λ x, Device.id x = Device.id row) (devices (db w)) = []) as ->.
      { destruct (filter _ (devices (db w))) as [| x l] eqn:Ef; [done |].
        assert (x ∈ x :: l) as Hx by left. rewrite <- Ef in Hx.
        apply list_elem_of_filter in Hx as [Hid Hx%next_device_id_fresh].
        simpl in Hid. lia. }
      simpl. rewrite filter_cons, decide_True by done. done.
    - intros k x Hk. rewrite filter_app.
      destruct (filter (λ y, Device.id y = k) (devices (db w))); [done |].
      done. }
  destruct (bool_decide (method = POST)) eqn:Hm.
  - apply bool_decide_eq_true in Hm.
    destruct (User.administrator (current_user env)) eqn:Hadm; simpl in Ho.
    + unfold table_create_device in Ho.
      unfold mbind at 1, Handler_bind at 1 in Ho.
      unfold mbind at 1, Handler_bind at 1, get_db at 1 in Ho.
      destruct (commit_fault env) as [err |] eqn:Hc.
      * rewrite (commit_or_rollback_fault _ _ _ _ _ err Hc) in Ho. subst o.
        simpl in *. split_and!; try done; [by left |].
        split; [done | by intros (_ & _ & ?)].
      * rewrite (commit_or_rollback_ok _ _ _ _ _ Hc) in Ho. subst o.
        simpl in *. split_and!; try done. by right.
    + subst o. simpl in *. split_and!; try done; [by left |].
      split; [done | by intros (_ & ? & _)].
  - apply bool_decide_eq_false in Hm. simpl in Ho.
    destruct (negb (User.administrator (current_user env))); subst o; simpl in *;
      (split_and!; try done; [by left |]);
      (split; [done | by intros (? & _)]).
Qed.

(** ** The administrator page and account deletion *)

(** X16. The administrator page never changes a table: in particular the
    promotion request of an administrator, accepted by the store, is answered
    with the success message while every user keeps the administrator flag
    it had. *)
Theorem admin_view_promotes_nobody (env : Env) (method : Method)
    (user_id : option Z) (w : World) :
  let o := run (admin_view env method user_id) w in
  db (world_of o) = db w ∧ jobs (world_of o) = jobs w
  ∧ (method = POST → User.administrator (current_user env) = true →
     commit_fault env = None →
     o = Responded (Redirect "user.admin_view")
           (add_flash "User successfully promoted to administrator!" "success" w))
  ∧ (User.administrator (current_user env) = false →
     o = Responded (Redirect "user.user_settings")
           (add_flash "You are not administrator" "error" w)).
Proof.
  intros o.
  assert (o = run (admin_view env method user_id) w) as Ho by done. clearbody o.
  unfold run, admin_view in Ho.
  destruct (User.administrator (current_user env)) eqn:Hadm, method; simpl in Ho;
    try (subst o; simpl; split_and!; done).
  unfold table_update_item, commit_or_rollback, mbind, Handler_bind, get_db in Ho.
  destruct (commit_fault env) as [err |] eqn:Hc; simpl in Ho; subst o; simpl;
    split_and!; try done.
Qed.

(** X17. Deleting one's account. The administrator check only flashes a
    message: whoever is logged in, once re-authenticated within the last 15
    minutes, has the account removed when the store accepts the commit. The
    reservations of the account stay behind, and the request then ends in an
    error, since the endpoint it redirects to does not exist. *)
Theorem delete_account_spec (env : Env) (last_auth_time : option Z) (w : World)
    (user : User.t) :
  filter (λ u, User.id u = User.id (current_user env)) (users (db w)) = [user] →
  auth_expired env last_auth_time = false →
  commit_fault env = None →
  ∃ w', delete_account env last_auth_time true w = Cont (inl BuildError) w'
        ∧ users (db w')
          = filter (λ u, User.id u ≠ User.id (current_user env)) (users (db w))
        ∧ reservations (db w') = reservations (db w)
        ∧ devices (db w') = devices (db w)
        ∧ jobs w' = jobs w
        ∧ flashes w'
          = flashes w
            ++ (if User.administrator (current_user env) then []
                else [mkFlash "You are not administrator" "error"])
            ++ [mkFlash ("User " +:+ User.username user +:+ " successfully deleted!")
                  "success"].
Proof.
  intros Hone Hauth Hc.
  assert (User.id user = User.id (current_user env)) as Hid.
  { assert (user ∈ [user]) as Hin by left. rewrite <- Hone in Hin.
    by apply list_elem_of_filter in Hin as [? _]. }
  remember (delete_account env last_auth_time true w) as res eqn:Hres.
  unfold delete_account in Hres.
  unfold mbind at 1, Handler_bind at 1 in Hres.
  destruct (User.administrator (current_user env)); cbn [negb] in Hres.
  - unfold mret at 1, Handler_ret at 1 in Hres. rewrite Hauth in Hres.
    unfold mbind at 1, Handler_bind at 1, get_db at 1 in Hres.
    rewrite Hone in Hres.
    unfold table_delete_user, mbind, Handler_bind, get_db in Hres.
    rewrite (commit_or_rollback_ok _ _ _ _ _ Hc) in Hres.
    subst res. eexists. split; [reflexivity |]. simpl. rewrite Hid.
    split_and!; done.
  - unfold flash at 1 in Hres. rewrite Hauth in Hres.
    unfold mbind at 1, Handler_bind at 1, get_db at 1 in Hres.
    cbn [db add_flash] in Hres. rewrite Hone in Hres.
    unfold table_delete_user, mbind, Handler_bind, get_db in Hres.
    rewrite (commit_or_rollback_ok _ _ _ _ _ Hc) in Hres.
    subst res. eexists. split; [reflexivity |]. simpl. rewrite Hid.
    split_and!; try done. by rewrite <- app_assoc.
Qed.

(** Alice, who is no administrator, deletes her account ten minutes after
    re-authenticating. *)
Lemma delete_account_spec_witness :
  let r := Reservation.mk (Some 1) 1 "Laptop-A" "alice" (clock 10 0) (clock 11 0) "work" in
  let w := mkWorld (mkDB [laptop] [r] [alice; bob]) ∅ [] in
  let env := env_of alice (clock 9 0) in
  ∃ w', delete_account env (Some (clock 8 50)) true w = Cont (inl BuildError) w'
        ∧ users (db w')
          = filter (λ u, User.id u ≠ User.id (current_user env)) (users (db w))
        ∧ reservations (db w') = reservations (db w)
        ∧ devices (db w') = devices (db w)
        ∧ jobs w' = jobs w
        ∧ flashes w'
          = flashes w
            ++ (if User.administrator (current_user env) then []
                else [mkFlash "You are not administrator" "error"])
            ++ [mkFlash ("User " +:+ User.username alice +:+ " successfully deleted!")
                  "success"].
Proof.
  apply (delete_account_spec (env_of alice (clock 9 0)) (Some (clock 8 50)) _ alice);
    reflexivity.
Defined.

(** ** Changing one's details *)

Lemma rename_owner_loop_frame new_username all d :
  devices (rename_owner_loop new_username all d) = devices d
  ∧ users (rename_owner_loop new_username all d) = users d.
Proof.
  unfold rename_owner_loop. revert d.
  induction all as [| r all IH]; intros d; [done |].
  simpl. destruct (IH (replace_reservation
                         (Reservation.set_username new_username r) d)) as [-> ->].
  done.
Qed.

Lemma rename_owner_loop_rows new_username all d :
  NoDup (map Reservation.id (reservations d)) →
  Forall (λ r, r ∈ reservations d) all →
  reservations (rename_owner_loop new_username all d)
  = map (λ r, if decide (r ∈ all) then Reservation.set_username new_username r
              else r)
        (reservations d).
Proof.
  intros Hnd. unfold rename_owner_loop.
  induction all as [| r all IH] using rev_ind; intros Hall.
  - simpl. rewrite <- (map_id (reservations d)) at 1. apply map_ext. done.
  - apply Forall_app in Hall as [Hall [Hr _]%Forall_cons].
    rewrite foldl_app. cbn [foldl]. unfold replace_reservation at 1.
    cbn [reservations]. rewrite (IH Hall), map_map.
    apply map_ext_in. intros x Hx%list_elem_of_In.
    assert (Reservation.id
              (if decide (x ∈ all) then Reservation.set_username new_username x
               else x)
            = Reservation.id x) as -> by (by case_decide).
    change (Reservation.id (Reservation.set_username new_username r))
      with (Reservation.id r).
    destruct (decide (Reservation.id x = Reservation.id r)) as [E | E].
    + assert (x = r) as -> by (by eapply NoDup_map_inj_on).
      rewrite decide_True; [done |].
      apply elem_of_app. right. by apply list_elem_of_singleton.
    + assert (x ≠ r) by congruence.
      destruct (decide (x ∈ all)).
      * rewrite decide_True; [done |]. apply elem_of_app. by left.
      * rewrite decide_False; [done |].
        intros [? | ?%list_elem_of_singleton]%elem_of_app; done.
Qed.

Lemma rename_owner_loop_all old_username new_username d :
  NoDup (map Reservation.id (reservations d)) →
  reservations
    (rename_owner_loop new_username
       (filter (λ r, Reservation.username r = old_username) (reservations d)) d)
  = rename_owner_rows old_username new_username (reservations d).
Proof.
  intros Hnd. rewrite rename_owner_loop_rows; [| done |].
  - apply map_ext_in. intros x Hx%list_elem_of_In.
    destruct (decide (x ∈ filter (λ r, Reservation.username r = old_username)
                           (reservations d))) as [Hin | Hin];
      rewrite list_elem_of_filter in Hin.
    + rewrite decide_True; [done | tauto].
    + rewrite decide_False; [done | tauto].
  - apply Forall_forall. by intros x [_ ?]%list_elem_of_filter.
Qed.

Section UserSettingsFacts.

Variable generate_password_hash : string → string.
Variable generate_pin_hash : string → Z.
Variable email_matches : string → bool.

Abbreviation change_details' :=
  (change_details generate_password_hash generate_pin_hash email_matches).

(** What a POST to [change_details] inside the re-authentication window
    comes to: either it stops short of a successful commit, and then tables
    and jobs are as before; or it commits the user object [u'], which keeps
    the key and the administrator flag of the logged-in user, together with
    the reservation rows renamed when a new, free username of at least three
    characters was submitted. *)
Lemma change_details_inv env last_auth_time form w :
  auth_expired env last_auth_time = false →
  let cu := current_user env in
  let o := run (change_details' env last_auth_time POST form) w in
  (store_kept w o ∧ ∀ w', o ≠ Responded (Redirect "views.home") w')
  ∨ ∃ u1 u' d',
      User.id u1 = User.id cu ∧ User.username u1 = User.username cu
      ∧ User.id u' = User.id cu
      ∧ User.administrator u' = User.administrator cu
      ∧ ((User.username u' = User.username cu ∧ d' = db w)
         ∨ (User.username u' = sf_username form
            ∧ sf_username form ≠ User.username cu
            ∧ (3 <= String.length (sf_username form))%nat
            ∧ check_if_user_exists_from_username (replace_user u1 (db w))
                (sf_username form) = false
            ∧ d' = rename_owner_loop (sf_username form)
                     (filter (λ r, Reservation.username r = User.username cu)
                             (reservations (db w)))
                     (db w)))
      ∧ commit_fault env = None
      ∧ o = Responded (Redirect "views.home")
              (add_flash "Your details have been updated successfully!" "success"
                 (mkWorld (replace_user u' d') (jobs w) (flashes w))).
Proof.
  intros Hauth cu o.
  assert (o = run (change_details' env last_auth_time POST form) w) as Ho by done.
  clearbody o. unfold run, change_details in Ho. rewrite Hauth in Ho.
  unfold mbind at 1, Handler_bind at 1, get_db at 1 in Ho.
  fold cu in Ho.
  (* the password *)
  unfold mbind at 1, Handler_bind at 1 in Ho.
  set (step1 := if truthy (sf_new_password form) then _ else _) in Ho.
  assert ((∃ o1, step1 w = Stop o1 ∧ store_kept w o1
                 ∧ ∀ w', o1 ≠ Responded (Redirect "views.home") w')
          ∨ ∃ u1, step1 w = Cont u1 w
                  ∧ User.id u1 = User.id cu ∧ User.username u1 = User.username cu
                  ∧ User.administrator u1 = User.administrator cu) as H1.
  { subst step1. destruct (truthy (sf_new_password form)); [| right; by exists cu].
    destruct (String.length (sf_new_password form) <? 7)%nat;
      [left; eexists; split; [reflexivity |]; by unfold store_kept |].
    destruct (bool_decide (sf_new_password form ≠ sf_confirm_password form));
      [left; eexists; split; [reflexivity |]; by unfold store_kept |].
    right. eexists. split; [reflexivity |]. done. }
  clearbody step1.
  destruct H1 as [(o1 & E1 & Hk & Hn) | (u1 & E1 & Hid1 & Hun1 & Had1)];
    rewrite E1 in Ho; cbv beta iota in Ho; [subst o; by left |].
  (* the username *)
  unfold mbind at 1, Handler_bind at 1 in Ho.
  set (step2 := if truthy (sf_username form) && _ then _ else _) in Ho.
  assert ((∃ o1, step2 w = Stop o1 ∧ store_kept w o1
                 ∧ ∀ w', o1 ≠ Responded (Redirect "views.home") w')
          ∨ ∃ u2 d',
              step2 w = Cont (u2, d') w
              ∧ User.id u2 = User.id cu
              ∧ User.administrator u2 = User.administrator cu
              ∧ ((User.username u2 = User.username cu ∧ d' = db w)
                 ∨ (User.username u2 = sf_username form
                    ∧ sf_username form ≠ User.username cu
                    ∧ (3 <= String.length (sf_username form))%nat
                    ∧ check_if_user_exists_from_username (replace_user u1 (db w))
                        (sf_username form) = false
                    ∧ d' = rename_owner_loop (sf_username form)
                             (filter (λ r, Reservation.username r = User.username cu)
                                     (reservations (db w)))
                             (db w)))) as H2.
  { subst step2.
    destruct (truthy (sf_username form)
              && bool_decide (sf_username form ≠ User.username u1)) eqn:Hnew.
    2: { right. exists u1, (db w). split; [reflexivity |]. split_and!; try done.
         by left. }
    apply andb_true_iff in Hnew as [_ Hne%bool_decide_eq_true].
    destruct (String.length (sf_username form) <? 3)%nat eqn:Hlen;
      [left; eexists; split; [reflexivity |]; by unfold store_kept |].
    apply Nat.ltb_ge in Hlen.
    destruct (check_if_user_exists_from_username (replace_user u1 (db w))
                (sf_username form)) eqn:Hex;
      [left; eexists; split; [reflexivity |]; by unfold store_kept |].
    right. eexists _, _. split; [reflexivity |]. split_and!; try done.
    right. rewrite Hun1 in *. done. }
  clearbody step2.
  destruct H2 as [(o1 & E2 & Hk & Hn) | (u2 & d' & E2 & Hid2 & Had2 & Hname)];
    rewrite E2 in Ho; cbv beta iota in Ho; [subst o; by left |].
  (* the e-mail address *)
  unfold mbind at 1, Handler_bind at 1 in Ho.
  set (step3 := if truthy (sf_email form) && _ then _ else _) in Ho.
  assert ((∃ o1, step3 w = Stop o1 ∧ store_kept w o1
                 ∧ ∀ w', o1 ≠ Responded (Redirect "views.home") w')
          ∨ ∃ u3, step3 w = Cont u3 w
                  ∧ User.id u3 = User.id u2 ∧ User.username u3 = User.username u2
                  ∧ User.administrator u3 = User.administrator u2) as H3.
  { subst step3.
    destruct (truthy (sf_email form) && _); [| right; by exists u2].
    destruct (email_matches (sf_email form)); simpl;
      [| left; eexists; split; [reflexivity |]; by unfold store_kept].
    right. eexists. split; [reflexivity |]. done. }
  clearbody step3.
  destruct H3 as [(o1 & E3 & Hk & Hn) | (u3 & E3 & Hid3 & Hun3 & Had3)];
    rewrite E3 in Ho; cbv beta iota in Ho; [subst o; by left |].
  (* the security pin *)
  unfold mbind at 1, Handler_bind at 1 in Ho.
  set (step4 := if truthy (sf_security_pin form) then _ else _) in Ho.
  assert ((∃ o1, step4 w = Stop o1 ∧ store_kept w o1
                 ∧ ∀ w', o1 ≠ Responded (Redirect "views.home") w')
          ∨ ∃ u4, step4 w = Cont u4 w
                  ∧ User.id u4 = User.id u3 ∧ User.username u4 = User.username u3
                  ∧ User.administrator u4 = User.administrator u3) as H4.
  { subst step4. destruct (truthy (sf_security_pin form)); [| right; by exists u3].
    destruct ((String.length (sf_security_pin form) <? 8)%nat
              || negb (py_isdigit (sf_security_pin form)));
      [left; eexists; split; [reflexivity |]; by unfold store_kept |].
    destruct (bool_decide (sf_security_pin form ≠ sf_confirm_security_pin form));
      [left; eexists; split; [reflexivity |]; by unfold store_kept |].
    right. eexists. split; [reflexivity |]. done. }
  clearbody step4.
  destruct H4 as [(o1 & E4 & Hk & Hn) | (u4 & E4 & Hid4 & Hun4 & Had4)];
    rewrite E4 in Ho; cbv beta iota in Ho; [subst o; by left |].
  (* the commit *)
  unfold table_update_item, mbind, Handler_bind in Ho.
  destruct (commit_fault env) as [err |] eqn:Hc.
  - rewrite (commit_or_rollback_fault _ _ _ _ _ err Hc) in Ho. subst o. left.
    by unfold store_kept.
  - rewrite (commit_or_rollback_ok _ _ _ _ _ Hc) in Ho. subst o. right.
    exists u1, u4, d'. split_and!; try done; try congruence.
Qed.

(** The same for any request: outside the window, or for a GET, nothing is
    stored. *)
Lemma change_details_cases env last_auth_time method form w :
  let cu := current_user env in
  let o := run (change_details' env last_auth_time method form) w in
  store_kept w o
  ∨ ∃ u1 u' d',
      User.id u1 = User.id cu ∧ User.username u1 = User.username cu
      ∧ User.id u' = User.id cu
      ∧ User.administrator u' = User.administrator cu
      ∧ ((User.username u' = User.username cu ∧ d' = db w)
         ∨ (User.username u' = sf_username form
            ∧ sf_username form ≠ User.username cu
            ∧ (3 <= String.length (sf_username form))%nat
            ∧ check_if_user_exists_from_username (replace_user u1 (db w))
                (sf_username form) = false
            ∧ d' = rename_owner_loop (sf_username form)
                     (filter (λ r, Reservation.username r = User.username cu)
                             (reservations (db w)))
                     (db w)))
      ∧ db (world_of o) = replace_user u' d' ∧ jobs (world_of o) = jobs w.
Proof.
  intros cu o.
  destruct (auth_expired env last_auth_time) eqn:Hauth.
  { left. subst o. unfold run, change_details. rewrite Hauth. by unfold store_kept. }
  destruct method.
  { left. subst o. unfold run, change_details. rewrite Hauth. by unfold store_kept. }
  destruct (change_details_inv env last_auth_time form w Hauth)
    as [[Hk _] | (u1 & u' & d' & ? & ? & ? & ? & ? & ? & Ho)]; [by left |].
  right. exists u1, u', d'. fold o in Ho. rewrite Ho. split_and!; done.
Qed.

Lemma replace_user_self_rows (u' cu : User.t) (rows : list User.t) :
  NoDup (map User.id rows) → cu ∈ rows → User.id u' = User.id cu →
  map (λ u, if decide (User.id u = User.id u') then u' else u) rows
  = map (λ u, if decide (u = cu) then u' else u) rows.
Proof.
  intros Hnd Hin Hid. apply map_ext_in. intros x Hx%list_elem_of_In.
  destruct (decide (User.id x = User.id u')) as [E | E].
  - assert (x = cu) as -> by (eapply NoDup_map_inj_on; eauto; congruence).
    by rewrite decide_True.
  - rewrite decide_False; [done |]. intros ->. congruence.
Qed.

(** X18. Changing one's details never changes who is an administrator, nor
    any key: for a logged-in user who is a row of a table with distinct
    keys, after any request the users have the keys and the administrator
    flags they had, in the same order, and devices and jobs are as before. *)
Theorem change_details_keeps_rights (env : Env) (last_auth_time : option Z)
    (method : Method) (form : SettingsForm) (w : World) :
  NoDup (map User.id (users (db w))) →
  current_user env ∈ users (db w) →
  let o := run (change_details' env last_auth_time method form) w in
  map User.id (users (db (world_of o))) = map User.id (users (db w))
  ∧ map User.administrator (users (db (world_of o)))
    = map User.administrator (users (db w))
  ∧ devices (db (world_of o)) = devices (db w)
  ∧ jobs (world_of o) = jobs w.
Proof.
  intros Hnd Hin o.
  destruct (change_details_cases env last_auth_time method form w)
    as [[Hdb Hjobs] | (u1 & u' & d' & _ & _ & Hid & Hadm & Hname & Hdb & Hjobs)];
    fold o in Hdb, Hjobs; rewrite Hdb; [done |].
  assert (users d' = users (db w) ∧ devices d' = devices (db w)) as [Hu Hd].
  { destruct Hname as [[_ ->] | (_ & _ & _ & _ & ->)]; [done |].
    by destruct (rename_owner_loop_frame (sf_username form)
                   (filter (λ r, Reservation.username r
                                 = User.username (current_user env))
                           (reservations (db w))) (db w)) as [-> ->]. }
  unfold replace_user. simpl. rewrite Hu, Hd.
  rewrite (replace_user_self_rows u' (current_user env)) by done.
  rewrite !map_map. split_and!; try done.
  - apply map_ext. intros x. by case_decide; subst.
  - apply map_ext. intros x. by case_decide; subst.
Qed.

Lemma user_exists_false d username :
  check_if_user_exists_from_username d username = false →
  ∀ u, u ∈ users d → User.username u ≠ username.
Proof.
  unfold check_if_user_exists_from_username. intros H u Hu E.
  destruct (filter _ (users d)) as [| x l] eqn:Ef; [| done].
  assert (u ∈ filter (λ u, User.username u = username) (users d)) as Hin
    by (by apply list_elem_of_filter).
  rewrite Ef in Hin. by apply not_elem_of_nil in Hin.
Qed.

(** The other users, as the check of the new username saw them. *)
Lemma others_in_flushed_view (u1 cu x : User.t) (d : DB) :
  User.id u1 = User.id cu → x ∈ users d → User.id x ≠ User.id cu →
  x ∈ users (replace_user u1 d).
Proof.
  intros Hid Hx Hne. unfold replace_user. simpl.
  apply list_elem_of_In, in_map_iff. exists x. split; [| by apply list_elem_of_In].
  rewrite decide_False; [done | congruence].
Qed.

Lemma NoDup_map_replace_one {A K B} `{EqDecision A} (key : A → K) (f : A → B)
    (cu u' : A) (l : list A) :
  NoDup (map key l) → NoDup (map f l) → cu ∈ l →
  (f u' = f cu ∨ ∀ x, x ∈ l → x ≠ cu → f x ≠ f u') →
  NoDup (map f (map (λ x, if decide (x = cu) then u' else x) l)).
Proof.
  intros Hk Hf Hin Hfresh. rewrite map_map.
  destruct Hfresh as [Hsame | Hfresh].
  { erewrite map_ext; [exact Hf |]. intros x. simpl. by case_decide; subst. }
  clear Hin. induction l as [| a l IH]; [constructor |].
  simpl in Hk, Hf |- *.
  apply NoDup_cons in Hk as [Hka Hk]. apply NoDup_cons in Hf as [Hfa Hf].
  apply NoDup_cons. split.
  - intros Hin%list_elem_of_In. apply in_map_iff in Hin as (x & Hx & Hxl).
    apply list_elem_of_In in Hxl.
    assert (x ≠ a) as Hxa.
    { intros ->. apply Hka. by apply list_elem_of_In, in_map, list_elem_of_In. }
    destruct (decide (a = cu)) as [-> | Ha], (decide (x = cu)) as [-> | Hxc];
      try done.
    + apply (Hfresh x); [by right | done | done].
    + apply (Hfresh a); [left | done | done].
    + apply Hfa. rewrite <- Hx. by apply list_elem_of_In, in_map, list_elem_of_In.
  - apply IH; [done | done |]. intros x Hx. apply Hfresh. by right.
Qed.

(** X19. Changing one's details keeps usernames distinct: for a logged-in
    user who is a row of a table with distinct keys and distinct usernames,
    the usernames are distinct after any request. *)
Theorem change_details_keeps_usernames_distinct (env : Env)
    (last_auth_time : option Z) (method : Method) (form : SettingsForm)
    (w : World) :
  NoDup (map User.id (users (db w))) →
  NoDup (map User.username (users (db w))) →
  current_user env ∈ users (db w) →
  NoDup (map User.username
           (users (db (world_of
                         (run (change_details' env last_auth_time method form) w))))).
Proof.
  intros Hid Hnames Hin.
  destruct (change_details_cases env last_auth_time method form w)
    as [[Hdb _] | (u1 & u' & d' & Hid1 & _ & Hidu & _ & Hname & Hdb & _)];
    rewrite Hdb; [done |].
  assert (users d' = users (db w)) as Hu.
  { destruct Hname as [[_ ->] | (_ & _ & _ & _ & ->)]; [done |].
    apply rename_owner_loop_frame. }
  unfold replace_user. simpl. rewrite Hu.
  rewrite (replace_user_self_rows u' (current_user env)) by done.
  apply (NoDup_map_replace_one User.id); try done.
  destruct Hname as [[? _] | (Hnew & _ & _ & Hfree & _)]; [by left | right].
  intros x Hx Hne. rewrite Hnew.
  apply (user_exists_false _ _ Hfree).
  apply (others_in_flushed_view u1 (current_user env)); try done.
  intros E. apply Hne.
  by apply (NoDup_map_inj_on User.id (users (db w))).
Qed.

(** The tables a stored request leaves. *)
Lemma change_details_renames_owner_aux (env : Env) (last_auth_time : option Z)
    (method : Method) (form : SettingsForm) (w : World) :
  NoDup (map User.id (users (db w))) →
  NoDup (map Reservation.id (reservations (db w))) →
  current_user env ∈ users (db w) →
  let o := run (change_details' env last_auth_time method form) w in
  db (world_of o) = db w
  ∨ ∃ u', User.id u' = User.id (current_user env)
          ∧ users (db (world_of o))
            = map (λ u, if decide (u = current_user env) then u' else u)
                  (users (db w))
          ∧ reservations (db (world_of o))
            = rename_owner_rows (User.username (current_user env))
                (User.username u') (reservations (db w))
          ∧ (User.username u' = User.username (current_user env)
             ∨ User.username u' = sf_username form).
Proof.
  intros Hid Hrid Hin o.
  destruct (change_details_cases env last_auth_time method form w)
    as [[Hdb _] | (u1 & u' & d' & Hid1 & _ & Hidu & _ & Hname & Hdb & _)];
    fold o in Hdb; [by left |].
  right. exists u'. rewrite Hdb. unfold replace_user. simpl.
  assert (users d' = users (db w)) as Hu.
  { destruct Hname as [[_ ->] | (_ & _ & _ & _ & ->)]; [done |].
    apply rename_owner_loop_frame. }
  rewrite Hu, (replace_user_self_rows u' (current_user env)) by done.
  split_and!; try done.
  - destruct Hname as [[Hsame ->] | (Hnew & _ & _ & _ & ->)].
    + unfold rename_owner_rows. rewrite <- (map_id (reservations (db w))) at 1.
      apply map_ext. intros r. case_decide as E; [| done].
      rewrite Hsame, <- E. by destruct r.
    + rewrite rename_owner_loop_all by done. by rewrite Hnew.
  - destruct Hname as [[? _] | (? & _)]; [by left | by right].
Qed.

Lemma user_exists_none d username :
  (∀ u, u ∈ users d → User.username u ≠ username) →
  check_if_user_exists_from_username d username = false.
Proof.
  unfold check_if_user_exists_from_username. intros H.
  destruct (filter _ (users d)) as [| x l] eqn:Ef; [done |].
  assert (x ∈ filter (λ u, User.username u = username) (users d)) as Hin
    by (rewrite Ef; left).
  apply list_elem_of_filter in Hin as [Hx Hin]. by apply H in Hin.
Qed.

(** A POST inside the window whose username is new, free and of at least
    three characters, and whose other fields are accepted, is committed with
    the submitted username when the store accepts the commit. *)
Lemma change_details_accepted env last_auth_time form w :
  auth_expired env last_auth_time = false → commit_fault env = None →
  (3 <= String.length (sf_username form))%nat →
  sf_username form ≠ User.username (current_user env) →
  (∀ u, u ∈ users (db w) → User.username u ≠ sf_username form) →
  other_fields_accepted email_matches (current_user env) form →
  ∃ u', User.id u' = User.id (current_user env)
        ∧ User.username u' = sf_username form
        ∧ run (change_details' env last_auth_time POST form) w
          = Responded (Redirect "views.home")
              (add_flash "Your details have been updated successfully!" "success"
                 (mkWorld
                    (replace_user u'
                       (rename_owner_loop (sf_username form)
                          (filter (λ r, Reservation.username r
                                        = User.username (current_user env))
                                  (reservations (db w)))
                          (db w)))
                    (jobs w) (flashes w))).
Proof.
  intros Hauth Hc Hlen Hne Hfree (Hpw & Hem & Hpin).
  set (cu := current_user env) in *.
  remember (run (change_details' env last_auth_time POST form) w) as o eqn:Ho.
  unfold run, change_details in Ho. rewrite Hauth in Ho.
  unfold mbind at 1, Handler_bind at 1, get_db at 1 in Ho.
  fold cu in Ho.
  (* the password *)
  unfold mbind at 1, Handler_bind at 1 in Ho.
  set (step1 := if truthy (sf_new_password form) then _ else _) in Ho.
  assert (∃ u1, step1 w = Cont u1 w
                ∧ User.id u1 = User.id cu ∧ User.username u1 = User.username cu
                ∧ User.email_address u1 = User.email_address cu)
    as (u1 & E1 & Hid1 & Hun1 & Hem1).
  { subst step1. destruct (truthy (sf_new_password form)) eqn:Ht; [| by exists cu].
    destruct Hpw as [E | [Hl E]].
    { rewrite E in Ht. by vm_compute in Ht. }
    apply Nat.ltb_ge in Hl. rewrite Hl.
    rewrite bool_decide_eq_false_2 by (intros H; by apply H).
    eexists. split; [reflexivity |]. done. }
  clearbody step1. rewrite E1 in Ho. cbv beta iota in Ho.
  (* the username *)
  unfold mbind at 1, Handler_bind at 1 in Ho.
  set (step2 := if truthy (sf_username form) && _ then _ else _) in Ho.
  assert (step2 w
          = Cont (set_user_username (sf_username form) u1,
                  rename_owner_loop (sf_username form)
                    (filter (λ r, Reservation.username r = User.username cu)
                            (reservations (db w)))
                    (db w)) w) as E2.
  { subst step2.
    assert (truthy (sf_username form) = true) as ->.
    { apply bool_decide_eq_true_2. intros E. rewrite E in Hlen. simpl in Hlen. lia. }
    rewrite bool_decide_eq_true_2 by (by rewrite Hun1).
    apply Nat.ltb_ge in Hlen. cbn [andb]. rewrite Hlen.
    rewrite user_exists_none; [by rewrite Hun1 |].
    intros u Hu. unfold replace_user in Hu. cbn [users] in Hu.
    apply list_elem_of_In, in_map_iff in Hu as (x & <- & Hx%list_elem_of_In).
    destruct (decide (User.id x = User.id u1));
      [by rewrite Hun1 | by apply Hfree]. }
  clearbody step2. rewrite E2 in Ho. cbv beta iota in Ho.
  set (u2 := set_user_username (sf_username form) u1) in Ho.
  set (d' := rename_owner_loop _ _ _) in Ho.
  (* the e-mail address *)
  unfold mbind at 1, Handler_bind at 1 in Ho.
  set (step3 := if truthy (sf_email form) && _ then _ else _) in Ho.
  assert (∃ u3, step3 w = Cont u3 w
                ∧ User.id u3 = User.id cu ∧ User.username u3 = sf_username form)
    as (u3 & E3 & Hid3 & Hun3).
  { subst step3.
    destruct (truthy (sf_email form)
              && bool_decide (sf_email form ≠ User.email_address u2)) eqn:Hnew;
      [| by exists u2].
    apply andb_true_iff in Hnew as [Ht Hd%bool_decide_eq_true].
    destruct Hem as [E | [E | E]].
    - rewrite E in Ht. by vm_compute in Ht.
    - exfalso. apply Hd. by rewrite E, <- Hem1.
    - rewrite E. eexists. split; [reflexivity |]. done. }
  clearbody step3. rewrite E3 in Ho. cbv beta iota in Ho.
  (* the security pin *)
  unfold mbind at 1, Handler_bind at 1 in Ho.
  set (step4 := if truthy (sf_security_pin form) then _ else _) in Ho.
  assert (∃ u4, step4 w = Cont u4 w
                ∧ User.id u4 = User.id cu ∧ User.username u4 = sf_username form)
    as (u4 & E4 & Hid4 & Hun4).
  { subst step4. destruct (truthy (sf_security_pin form)) eqn:Ht; [| by exists u3].
    destruct Hpin as [E | (Hl & Hdig & E)].
    { rewrite E in Ht. by vm_compute in Ht. }
    apply Nat.ltb_ge in Hl. rewrite Hl, Hdig. cbn [negb orb].
    rewrite bool_decide_eq_false_2 by (intros H; by apply H).
    eexists. split; [reflexivity |]. done. }
  clearbody step4. rewrite E4 in Ho. cbv beta iota in Ho.
  (* the commit *)
  unfold table_update_item, mbind, Handler_bind in Ho.
  rewrite (commit_or_rollback_ok _ _ _ _ _ Hc) in Ho.
  exists u4. by subst o.
Qed.

(** X20. The rename of a user reaches the reservations and does not depend
    on them. In tables with distinct keys where the logged-in user is a row:
    (1) after any request the tables are as before, or the user row is
    replaced by one of the same key and every reservation owned under the old
    username carries the stored username, nothing else being changed in the
    reservations; (2) a POST inside the re-authentication window with a
    username of at least three characters that no user carries, other fields
    blank or accepted, and a commit that the store accepts, is answered by
    the redirect to the home page and stores the submitted username in the
    user row, whether or not the user has reservations, and in every
    reservation of the old username, so that no reservation carries the old
    username afterwards. *)
Theorem change_details_renames_owner (env : Env) (last_auth_time : option Z)
    (method : Method) (form : SettingsForm) (w : World) :
  NoDup (map User.id (users (db w))) →
  NoDup (map Reservation.id (reservations (db w))) →
  current_user env ∈ users (db w) →
  let o := run (change_details' env last_auth_time method form) w in
  (db (world_of o) = db w
   ∨ ∃ u', User.id u' = User.id (current_user env)
           ∧ users (db (world_of o))
             = map (λ u, if decide (u = current_user env) then u' else u)
                   (users (db w))
           ∧ reservations (db (world_of o))
             = rename_owner_rows (User.username (current_user env))
                 (User.username u') (reservations (db w))
           ∧ (User.username u' = User.username (current_user env)
              ∨ User.username u' = sf_username form))
  ∧ (method = POST → auth_expired env last_auth_time = false →
     commit_fault env = None →
     (3 <= String.length (sf_username form))%nat →
     (∀ u, u ∈ users (db w) → User.username u ≠ sf_username form) →
     other_fields_accepted email_matches (current_user env) form →
     ∃ u' w',
       o = Responded (Redirect "views.home") w'
       ∧ User.id u' = User.id (current_user env)
       ∧ User.username u' = sf_username form
       ∧ u' ∈ users (db w')
       ∧ users (db w')
         = map (λ u, if decide (u = current_user env) then u' else u)
               (users (db w))
       ∧ reservations (db w')
         = rename_owner_rows (User.username (current_user env))
             (sf_username form) (reservations (db w))
       ∧ (∀ r', r' ∈ reservations (db w') →
                Reservation.username r' ≠ User.username (current_user env))).
Proof.
  intros Hid Hrid Hin o. subst o. split.
  { by apply change_details_renames_owner_aux. }
  intros -> Hauth Hc Hlen Hfree Hother.
  assert (sf_username form ≠ User.username (current_user env)) as Hne.
  { intros E. by apply (Hfree _ Hin). }
  destruct (change_details_accepted env last_auth_time form w Hauth Hc Hlen Hne
              Hfree Hother) as (u' & Hidu & Hname & ->).
  eexists u', _. split; [reflexivity |].
  unfold add_flash, replace_user. cbn [db users reservations].
  destruct (rename_owner_loop_frame (sf_username form)
              (filter (λ r, Reservation.username r
                            = User.username (current_user env))
                      (reservations (db w))) (db w)) as [_ ->].
  rewrite (replace_user_self_rows u' (current_user env)) by done.
  rewrite rename_owner_loop_all by done.
  split_and!; try done.
  - apply list_elem_of_In, in_map_iff. exists (current_user env).
    split; [by rewrite decide_True | by apply list_elem_of_In].
  - intros r' Hr'%list_elem_of_In. unfold rename_owner_rows in Hr'.
    apply in_map_iff in Hr' as (r & <- & _).
    case_decide; [done | done].
Qed.

Lemma elem_of_rename_owner_rows old_username new_username rows r' :
  r' ∈ rename_owner_rows old_username new_username rows →
  (r' ∈ rows ∧ Reservation.username r' ≠ old_username)
  ∨ Reservation.username r' = new_username.
Proof.
  unfold rename_owner_rows. intros Hr%list_elem_of_In.
  apply in_map_iff in Hr as (r & <- & Hin%list_elem_of_In).
  case_decide; [by right | by left].
Qed.

(** X21. Changing one's details keeps the owners of reservations in the
    table of users: if before the request every reservation names an
    existing user, so it does afterwards. *)
Theorem change_details_keeps_owners (env : Env) (last_auth_time : option Z)
    (method : Method) (form : SettingsForm) (w : World) :
  NoDup (map User.id (users (db w))) →
  NoDup (map Reservation.id (reservations (db w))) →
  current_user env ∈ users (db w) →
  owners_exist (db w) →
  owners_exist (db (world_of (run (change_details' env last_auth_time method form) w))).
Proof.
  intros Hid Hrid Hin Hown.
  destruct (change_details_renames_owner_aux env last_auth_time method form w
              Hid Hrid Hin) as [-> | (u' & Hidu & Hu & Hr & _)]; [done |].
  intros r' Hr'. rewrite Hr in Hr'. rewrite Hu.
  apply elem_of_rename_owner_rows in Hr' as [[Hin' Hne] | Hnew].
  - destruct (Hown r' Hin') as (u & Huin & Huname).
    exists u. split; [| done].
    apply list_elem_of_In, in_map_iff. exists u.
    split; [| by apply list_elem_of_In].
    rewrite decide_False; [done |]. intros ->. congruence.
  - exists u'. split; [| done].
    apply list_elem_of_In, in_map_iff. exists (current_user env).
    split; [by rewrite decide_True | by apply list_elem_of_In].
Qed.

End UserSettingsFacts.

Lemma change_details_keeps_rights_witness :
  let o := run (change_details sample_password_hash sample_pin_hash
                  sample_email_matches (env_of alice (clock 9 0))
                  (Some (clock 8 50)) POST alice_rename) alice_world in
  map User.id (users (db (world_of o))) = map User.id (users (db alice_world))
  ∧ map User.administrator (users (db (world_of o)))
    = map User.administrator (users (db alice_world))
  ∧ devices (db (world_of o)) = devices (db alice_world)
  ∧ jobs (world_of o) = jobs alice_world.
Proof.
  apply (change_details_keeps_rights sample_password_hash sample_pin_hash
           sample_email_matches (env_of alice (clock 9 0)) (Some (clock 8 50))
           POST alice_rename alice_world).
  - apply (bool_decide_unpack _). reflexivity.
  - apply (bool_decide_unpack _). reflexivity.
Defined.

Lemma change_details_keeps_usernames_distinct_witness :
  NoDup (map User.username
           (users (db (world_of
                         (run (change_details sample_password_hash sample_pin_hash
                                 sample_email_matches (env_of alice (clock 9 0))
                                 (Some (clock 8 50)) POST alice_rename)
                              alice_world))))).
Proof.
  apply (change_details_keeps_usernames_distinct sample_password_hash
           sample_pin_hash sample_email_matches (env_of alice (clock 9 0))
           (Some (clock 8 50)) POST alice_rename alice_world).
  - apply (bool_decide_unpack _). reflexivity.
  - apply (bool_decide_unpack _). reflexivity.
  - apply (bool_decide_unpack _). reflexivity.
Defined.

Lemma change_details_renames_owner_witness :
  let env := env_of alice (clock 9 0) in
  let o := run (change_details sample_password_hash sample_pin_hash
                  sample_email_matches env (Some (clock 8 50)) POST alice_rename)
               alice_world in
  ∃ u' w',
    o = Responded (Redirect "views.home") w'
    ∧ User.id u' = User.id (current_user env)
    ∧ User.username u' = sf_username alice_rename
    ∧ u' ∈ users (db w')
    ∧ users (db w')
      = map (λ u, if decide (u = current_user env) then u' else u)
            (users (db alice_world))
    ∧ reservations (db w')
      = rename_owner_rows (User.username (current_user env))
          (sf_username alice_rename) (reservations (db alice_world))
    ∧ (∀ r', r' ∈ reservations (db w') →
             Reservation.username r' ≠ User.username (current_user env)).
Proof.
  refine (proj2 (change_details_renames_owner sample_password_hash sample_pin_hash
                   sample_email_matches (env_of alice (clock 9 0))
                   (Some (clock 8 50)) POST alice_rename alice_world _ _ _)
            _ _ _ _ _ _).
  - apply (bool_decide_unpack _). reflexivity.
  - apply (bool_decide_unpack _). reflexivity.
  - apply (bool_decide_unpack _). reflexivity.
  - reflexivity.
  - reflexivity.
  - reflexivity.
  - simpl. lia.
  - intros u Hu.
    apply elem_of_cons in Hu as [-> | Hu]; [intros H; discriminate H |].
    apply elem_of_cons in Hu as [-> | Hu]; [intros H; discriminate H |].
    by apply not_elem_of_nil in Hu.
  - split_and!; by left.
Defined.

Lemma change_details_keeps_owners_witness :
  owners_exist
    (db (world_of (run (change_details sample_password_hash sample_pin_hash
                          sample_email_matches (env_of alice (clock 9 0))
                          (Some (clock 8 50)) POST alice_rename) alice_world))).
Proof.
  apply (change_details_keeps_owners sample_password_hash sample_pin_hash
           sample_email_matches (env_of alice (clock 9 0)) (Some (clock 8 50))
           POST alice_rename alice_world).
  - apply (bool_decide_unpack _). reflexivity.
  - apply (bool_decide_unpack _). reflexivity.
  - apply (bool_decide_unpack _). reflexivity.
  - intros r Hr. simpl in Hr.
    apply elem_of_cons in Hr as [-> | Hr]; [exists alice; split; [left | done] |].
    apply elem_of_cons in Hr as [-> | Hr];
      [exists bob; split; [right; left | done] |].
    by apply not_elem_of_nil in Hr.
Defined.

(** The rename of Alice is stored: her row and her reservation carry the new
    name, Bob's are as they were. *)
Example change_details_rename_example :
  let o := run (change_details sample_password_hash sample_pin_hash
                  sample_email_matches (env_of alice (clock 9 0))
                  (Some (clock 8 50)) POST alice_rename) alice_world in
  map User.username (users (db (world_of o))) = ["alicia"; "bob"]
  ∧ map Reservation.username (reservations (db (world_of o))) = ["alicia"; "bob"].
Proof. split; reflexivity. Qed.

(** ** Keys of the stored reservations *)

Lemma next_reservation_id_fresh d r i :
  r ∈ reservations d → Reservation.id r = Some i → i < next_reservation_id d.
Proof.
  unfold next_reservation_id. induction (reservations d) as [| y l IH]; intros Hr Hi.
  - by apply not_elem_of_nil in Hr.
  - simpl. apply elem_of_cons in Hr as [<- | Hr].
    + rewrite Hi. simpl. lia.
    + specialize (IH Hr Hi). lia.
Qed.

Lemma create_keeps_keys env form w :
  keys_distinct (db w) → keys_distinct (db (handle (CreateReq env form) w)).
Proof.
  intros [Hnd Hsome]. unfold handle.
  pose proof (create_checks_db env form w) as Hdb.
  destruct (create_checks env form w) as [[[device_id s] e] w1 | o] eqn:Hchecks.
  - subst w1.
    pose proof (create_checks_sound _ _ _ _ _ _ _ Hchecks)
      as (_ & _ & _ & _ & _ & _ & [device Hdev]).
    rewrite (create_after_checks _ _ _ _ _ _ _ Hchecks Hdev).
    destruct (add_job_fault env); [done |].
    destruct (commit_fault env); [done |].
    unfold keys_distinct. simpl. rewrite map_app. simpl. split.
    + apply NoDup_app. split_and!; [done | | apply NoDup_singleton].
      intros x Hx Hx'%list_elem_of_singleton. subst x.
      apply list_elem_of_In, in_map_iff in Hx as (r & Hid & Hr%list_elem_of_In).
      pose proof (next_reservation_id_fresh _ _ _ Hr Hid). lia.
    + apply Forall_app. split; [done |]. constructor; [by eexists | constructor].
  - assert (run (create env form) w = o) as ->.
    { unfold run, create. unfold mbind at 1, Handler_bind at 1.
      by rewrite Hchecks. }
    unfold keys_distinct. by rewrite Hdb.
Qed.

Lemma update_keeps_keys env rid is_post form w :
  keys_distinct (db w) → keys_distinct (db (handle (UpdateReq env rid is_post form) w)).
Proof.
  intros [Hnd Hsome]. unfold handle, keys_distinct.
  destruct (update_outcome_cases env rid is_post form w)
    as (_ & _ & _ & [-> | (k & r0 & r' & _ & _ & _ & _ & _ & Hid & -> & _)]);
    [done |].
  assert (map Reservation.id
            (map (λ r, if decide (Reservation.id r = Some k) then r' else r)
                 (reservations (db w)))
          = map Reservation.id (reservations (db w))) as Hids.
  { rewrite map_map. apply map_ext. intros x. case_decide; congruence. }
  split; [by rewrite Hids |].
  apply Forall_forall. intros x Hx%list_elem_of_In.
  apply in_map_iff in Hx as (y & <- & Hy%list_elem_of_In).
  case_decide; [by rewrite Hid |].
  rewrite Forall_forall in Hsome. by apply Hsome.
Qed.

(** X22. In every state reached from a store without reservations by create
    and update requests, the stored reservations all carry a key and no two
    carry the same one. *)
Theorem reachable_keys_distinct (w : World) :
  reachable w → keys_distinct (db w).
Proof.
  induction 1 as [w Hempty | q w _ IH].
  - unfold keys_distinct. rewrite Hempty. split; constructor.
  - destruct q as [env form | env rid is_post form].
    + by apply create_keeps_keys.
    + by apply update_keeps_keys.
Qed.

(** The state after Alice's and Bob's bookings and the administrator's move
    of Bob's reservation to the second laptop. *)
Lemma reachable_keys_distinct_witness :
  keys_distinct
    (db (handle (UpdateReq (env_of root (clock 9 0)) (Some 2) true
                   (mkUpdateForm (Some 2) "" "" TBlank TBlank ""))
           (handle (CreateReq (env_of bob (clock 9 0))
                      (book 1 (clock 12 0) (clock 13 0)))
              (handle (CreateReq (env_of alice (clock 9 0))
                         (book 1 (clock 10 0) (clock 11 0))) world0)))).
Proof.
  apply (reachable_keys_distinct
           (handle (UpdateReq (env_of root (clock 9 0)) (Some 2) true
                      (mkUpdateForm (Some 2) "" "" TBlank TBlank ""))
              (handle (CreateReq (env_of bob (clock 9 0))
                         (book 1 (clock 12 0) (clock 13 0)))
                 (handle (CreateReq (env_of alice (clock 9 0))
                            (book 1 (clock 10 0) (clock 11 0))) world0)))).
  do 3 apply reachable_step. apply reachable_init. reflexivity.
Defined.
